(** * Dash-TM: normalisation and aggregation engine of [dash-tm.py]

    A shallow embedding of the data pipeline of the Streamlit dashboard
    [src/dash-tm.py]: [load_data] (cell normalisation), the sidebar filters
    of [main], and the metric computations of the five dashboards, followed
    by the properties of the specification, C1 to C10, and by further
    properties of the code, X1 to X21.

    Modelling conventions.
    - A pandas [DataFrame] is the list of its column names together with the
      ordered list of its rows; a row is a record with one typed field per
      column the program reads.  The fields stand for the columns the loader
      converts, and a frame is taken to list each of those at most once, as
      every frame the loader returns does; PRODUTO, which the loader leaves
      as it is, may be listed twice.  Indexing a column that is not in
      [df.columns] raises [KeyError] in the source; here it is the result
      [KeyError col].  The two other exceptions a dashboard or a filter can
      end with are results as well: [AttributeError], when a selector reads
      a column whose name the sheet lists twice (the indexing then gives a
      frame, which has no [unique]), and [TypeError], when the rates of a
      table without groups are rounded (their column has kept the [object]
      dtype).
    - A [float64] value is an exact rational or one of the three special
      values; binary rounding error is abstracted away, the special values
      (NaN, the infinities) are kept because the program's behaviour on a
      zero denominator or an absent cell depends on them.
    - Strings are the UTF-8 bytes of the Python texts.  [str.strip] removes
      the white space of Unicode; numeric coercion knows the blanks and digits
      of ASCII only, as its C tokenizer does; the [\d] of the date format
      matches every decimal digit of Unicode, and the table of those beyond
      ASCII is a field of [runtime].
    - A timestamp is a calendar date with the nanoseconds since its midnight.
      The date cells [now] and [today] are read as the time of the clock,
      the other field of [runtime]; every other timestamp is at midnight.
    - A Streamlit page is the list of the data-bearing elements it renders
      (metrics, warnings, widgets with what they offer, charts as their
      series, tables); headings and layout are left out.  What the widgets
      return is an input of the run.
    - pandas is taken at its 2.x behaviour: [Series.str.replace] replaces
      literally ([regex=False]), [astype(str)] turns a missing cell into the
      text [None], [to_datetime] with a [format] needs the whole cell to
      match it and yields nanosecond timestamps. *)

From Stdlib Require Import List String Ascii Bool Arith ZArith QArith Qabs Qround Lia.
From Stdlib Require Import Permutation Sorted Lqa.
Import ListNotations.

Local Open Scope string_scope.
Local Open Scope list_scope.

(* ================================================================== *)
(** ** Characters and strings *)

Definition code (c : ascii) : nat := nat_of_ascii c.

(** The text of the bytes with the given codes. *)
Definition bytes (l : list nat) : string := string_of_list_ascii (map ascii_of_nat l).

(** The white space of [str.isspace], which [str.strip] removes: the ASCII
    characters TAB..CR, FS..US and the space, and the code points U+0085,
    U+00A0, U+1680, U+2000..U+200A, U+2028, U+2029, U+202F, U+205F and
    U+3000, each as its UTF-8 bytes. *)
Definition white_space : list string :=
  map bytes
    [ [9]; [10]; [11]; [12]; [13]; [28]; [29]; [30]; [31]; [32];
      [194; 133]; [194; 160];
      [225; 154; 128];
      [226; 128; 128]; [226; 128; 129]; [226; 128; 130]; [226; 128; 131];
      [226; 128; 132]; [226; 128; 133]; [226; 128; 134]; [226; 128; 135];
      [226; 128; 136]; [226; 128; 137]; [226; 128; 138];
      [226; 128; 168]; [226; 128; 169]; [226; 128; 175];
      [226; 129; 159];
      [227; 128; 128] ]%nat.

(** [isspace_ascii] of the pandas tokenizer: the space and TAB..CR. *)
Definition isspace_ascii (c : ascii) : bool :=
  (code c =? 32)%nat || ((9 <=? code c) && (code c <=? 13))%nat.

Definition isdigit_ascii (c : ascii) : bool :=
  ((48 <=? code c) && (code c <=? 57))%nat.

Definition digit_val (c : ascii) : Z := Z.of_nat (code c) - 48.

(** ASCII lower-casing of one character, as [strcasecmp] sees it. *)
Definition tolower_ascii (c : ascii) : ascii :=
  if ((65 <=? code c) && (code c <=? 90))%nat then ascii_of_nat (code c + 32) else c.

Fixpoint lower (s : string) : string :=
  match s with
  | EmptyString => EmptyString
  | String c s' => String (tolower_ascii c) (lower s')
  end.

Definition rev_string (s : string) : string :=
  string_of_list_ascii (rev (list_ascii_of_string s)).

(** The text after the word [w], when the text starts with it. *)
Fixpoint after (w s : string) : option string :=
  match w, s with
  | EmptyString, _ => Some s
  | String a w', String b s' => if Ascii.eqb a b then after w' s' else None
  | String _ _, EmptyString => None
  end.

(** The text after the first of the words [ws] the text starts with. *)
Fixpoint after_any (ws : list string) (s : string) : option string :=
  match ws with
  | [] => None
  | w :: ws' =>
      match after w s with
      | Some t => Some t
      | None => after_any ws' s
      end
  end.

(** Leading words of [ws] are dropped one after the other; each step
    shortens the text, so its length is fuel enough. *)
Fixpoint drop_leading (ws : list string) (fuel : nat) (s : string) : string :=
  match fuel with
  | O => s
  | S fuel' =>
      match after_any ws s with
      | Some t => drop_leading ws fuel' t
      | None => s
      end
  end.

(** [str.lstrip()] *)
Definition lstrip (s : string) : string :=
  drop_leading white_space (String.length s) s.

(** [str.rstrip()]: the same from the other end. *)
Definition rstrip (s : string) : string :=
  rev_string (drop_leading (map rev_string white_space) (String.length s) (rev_string s)).

(** [str.strip()] *)
Definition strip (s : string) : string := rstrip (lstrip s).

(** [str.replace(pat, rep)] for a non-empty [pat]: the occurrences of [pat]
    are found left to right and do not overlap.  [skip] counts the characters
    of an occurrence already replaced that are still to be passed over. *)
Fixpoint replace_from (pat rep : string) (skip : nat) (s : string) : string :=
  match s with
  | EmptyString => EmptyString
  | String c s' =>
      match skip with
      | S k => replace_from pat rep k s'
      | O =>
          if prefix pat s
          then rep ++ replace_from pat rep (String.length pat - 1) s'
          else String c (replace_from pat rep 0 s')
      end
  end.

Definition str_replace (pat rep s : string) : string := replace_from pat rep 0 s.

(** Splitting at every occurrence of a separator character ([s.split(c)]). *)
Fixpoint split_on (sep : ascii) (s : string) : list string :=
  match s with
  | EmptyString => [EmptyString]
  | String c s' =>
      if Ascii.eqb c sep then EmptyString :: split_on sep s'
      else match split_on sep s' with
           | [] => [String c EmptyString]
           | w :: ws => String c w :: ws
           end
  end.

(* ================================================================== *)
(** ** Floating-point values *)

Inductive float64 : Type :=
| Fin (q : Q)
| PInf
| NInf
| NaN.

Definition notna (x : float64) : bool :=
  match x with NaN => false | _ => true end.

(** [fillna(0)] *)
Definition fillna0 (x : float64) : float64 :=
  match x with NaN => Fin 0 | _ => x end.

Definition fadd (x y : float64) : float64 :=
  match x, y with
  | NaN, _ | _, NaN => NaN
  | PInf, NInf | NInf, PInf => NaN
  | PInf, _ | _, PInf => PInf
  | NInf, _ | _, NInf => NInf
  | Fin a, Fin b => Fin (Qred (a + b))
  end.

(** [x <= y] and [x < y] on floats; every comparison with NaN is false. *)
Definition fleb (x y : float64) : bool :=
  match x, y with
  | NaN, _ | _, NaN => false
  | NInf, _ => true
  | _, PInf => true
  | _, NInf => false
  | PInf, _ => false
  | Fin a, Fin b => Qle_bool a b
  end.

Definition fltb (x y : float64) : bool :=
  match x, y with
  | NaN, _ | _, NaN => false
  | _, NInf => false
  | PInf, _ => false
  | NInf, _ => true
  | _, PInf => true
  | Fin a, Fin b => negb (Qle_bool b a)
  end.

(** Division of a float by a positive count (the [mean] of a column). *)
Definition fdiv_count (x : float64) (n : nat) : float64 :=
  match x with
  | Fin a => Fin (Qred (a / inject_Z (Z.of_nat n)))
  | _ => x
  end.

(** Half of the sum of two floats (the median of an even number of values). *)
Definition fmid (x y : float64) : float64 := fdiv_count (fadd x y) 2.

(** Elementwise true division of two integer columns: numpy converts both to
    [float64]; a zero divisor gives an infinity, or NaN for [0 / 0]. *)
Definition int_div (a b : Z) : float64 :=
  if (b =? 0)%Z then
    (if (a =? 0)%Z then NaN else if (0 <? a)%Z then PInf else NInf)
  else Fin (Qred (inject_Z a / inject_Z b)).

Definition fmul100 (x : float64) : float64 :=
  match x with
  | Fin a => Fin (Qred (a * 100))
  | _ => x
  end.

(** Rounding of a rational to the nearest integer, ties to even ([rint]). *)
Definition rint (q : Q) : Z :=
  let f := Qfloor q in
  let r := (q - inject_Z f)%Q in
  match Qcompare r (1 # 2) with
  | Lt => f
  | Gt => (f + 1)%Z
  | Eq => if Z.even f then f else (f + 1)%Z
  end.

(** [Series.round(1)]: [rint (x * 10) / 10]; special values are kept. *)
Definition round1 (x : float64) : float64 :=
  match x with
  | Fin a => Fin (Qred (inject_Z (rint (a * 10)) / 10))
  | _ => x
  end.

(* ================================================================== *)
(** ** Numeric coercion: [pd.to_numeric(..., errors='coerce')] on a text cell

    The cell goes through [floatify] of pandas' [lib.pyx], which first tries
    [precise_xstrtod] on the whole text (leading blanks, a sign, digits, a
    decimal point and digits, an exponent, trailing blanks) and then the
    special spellings of NaN and the infinities.  A cell that is none of
    these is coerced to NaN. *)

Fixpoint skip_spaces (s : string) : string :=
  match s with
  | String c s' => if isspace_ascii c then skip_spaces s' else s
  | EmptyString => EmptyString
  end.

Definition scan_sign (s : string) : bool * string :=
  match s with
  | String "-"%char s' => (true, s')
  | String "+"%char s' => (false, s')
  | _ => (false, s)
  end.

(** Reads a run of digits, accumulating its value and counting the digits. *)
Fixpoint scan_digits (s : string) (acc : Z) (n : nat) : Z * nat * string :=
  match s with
  | String c s' =>
      if isdigit_ascii c then scan_digits s' (acc * 10 + digit_val c)%Z (S n)
      else (acc, n, s)
  | EmptyString => (acc, n, s)
  end.

(** [m * 10 ^ e] as a reduced rational. *)
Definition scale10 (m e : Z) : Q :=
  if (0 <=? e)%Z then inject_Z (m * 10 ^ e)
  else Qred (Qmake m (Z.to_pos (10 ^ (- e)))).

(** The largest finite [float64], [2^1024 - 2^971]. *)
Definition DBL_MAX : Q := inject_Z (2 ^ 1024 - 2 ^ 971).

(** [to_double]: the number read by [precise_xstrtod] when it reads the whole
    text without a range error, and [None] otherwise. *)
Definition to_double (s : string) : option Q :=
  let p := skip_spaces s in
  let '(negative, p) := scan_sign p in
  let '(number, num_digits, p) := scan_digits p 0 0 in
  let '(number, num_all, p) :=
    match p with
    | String "."%char p' => scan_digits p' number num_digits
    | _ => (number, num_digits, p)
    end in
  if (num_all =? 0)%nat then None
  else
    let number := if negative then (- number)%Z else number in
    let exponent := (- Z.of_nat (num_all - num_digits))%Z in
    let scanned_exp :=
      match p with
      | String c p' =>
          if Ascii.eqb (tolower_ascii c) "e"%char then
            let '(eneg, q) := scan_sign p' in
            let '(n, k, q') := scan_digits q 0 0 in
            if (k =? 0)%nat then None          (* no digit after the e *)
            else if (17 <? k)%nat then None    (* digits left unread *)
            else Some (if eneg then (exponent - n)%Z else (exponent + n)%Z, q')
          else Some (exponent, p)
      | EmptyString => Some (exponent, p)
      end in
    match scanned_exp with
    | None => None
    | Some (exponent, p) =>
        if (308 <? exponent)%Z then None
        else
          let value := if (exponent <? -616)%Z then 0%Q else scale10 number exponent in
          if Qle_bool (Qabs value) DBL_MAX then
            match skip_spaces p with
            | EmptyString => Some value
            | _ => None
            end
          else None
    end.

(** [floatify] under [errors='coerce']. *)
Definition floatify (s : string) : float64 :=
  match to_double s with
  | Some q => Fin q
  | None =>
      let w := lower s in
      if String.eqb w "nan" then NaN
      else if String.eqb w "inf" || String.eqb w "+inf"
              || String.eqb w "infinity" || String.eqb w "+infinity" then PInf
      else if String.eqb w "-inf" || String.eqb w "-infinity" then NInf
      else NaN
  end.

(** A cell of the raw matrix: a text, or [None] where pandas padded a short
    row. *)
Definition cell : Type := option string.

(** [pd.to_numeric(col, errors='coerce')] on one cell of an object column. *)
Definition to_numeric (c : cell) : float64 :=
  match c with
  | Some s => floatify s
  | None => NaN
  end.

(** [astype(str)] on one cell. *)
Definition astype_str (c : cell) : string :=
  match c with
  | Some s => s
  | None => "None"
  end.

(** Lines 89-90: the cleaning of one [VALOR] cell into [VALOR_NUM]. *)
Definition clean_valor (s : string) : string :=
  let s := str_replace "R$ " "" s in
  let s := str_replace "." "" s in
  let s := str_replace "," "." s in
  if String.eqb s "" then "0" else s.

Definition valor_num (c : cell) : float64 :=
  fillna0 (to_numeric (Some (clean_valor (astype_str c)))).


(* ================================================================== *)
(** ** Dates: [pd.to_datetime(col, format='%d/%m/%Y', errors='coerce')]

    A cell that the format reads becomes the timestamp at midnight of its
    date; the words [now] and [today] become the current time, which has a
    time of day; NaT is [None]. *)

Record date : Type := mkdate { year : Z; month : Z; day : Z }.

(** Chronological order. *)
Definition date_leb (a b : date) : bool :=
  ((year a <? year b)
   || ((year a =? year b)
       && ((month a <? month b) || ((month a =? month b) && (day a <=? day b)))))%Z.

(** A timestamp: a calendar date and the time of day, in nanoseconds since
    midnight. *)
Record timestamp : Type := mkts { on : date; nanos : N }.

(** [pd.Timestamp(d)] for a calendar date [d]. *)
Definition midnight (d : date) : timestamp := {| on := d; nanos := 0 |}.

Definition ts_leb (a b : timestamp) : bool :=
  negb (date_leb (on b) (on a))
  || (date_leb (on a) (on b) && (nanos a <=? nanos b)%N).

(** What a run takes from its surroundings: [now i col], the reading of the
    clock when the cell of row [i] in the date column [col] is converted
    (each conversion of a cell [now] or [today] reads the clock), and
    [decimal], the table of the decimal digits beyond ASCII of the
    interpreter's Unicode database: [decimal w] is the value of the code
    point written [w] in UTF-8 when it is a decimal digit. *)
Record runtime : Type := mkRuntime {
  now : nat -> string -> timestamp;
  decimal : string -> option Z
}.

Definition is_leap (y : Z) : bool :=
  ((y mod 4 =? 0) && (negb (y mod 100 =? 0) || (y mod 400 =? 0)))%Z.

Definition days_in_month (y m : Z) : Z :=
  if (m =? 2)%Z then (if is_leap y then 29 else 28)%Z
  else if ((m =? 4) || (m =? 6) || (m =? 9) || (m =? 11))%Z then 30%Z
  else 31%Z.

(** The bounds of a nanosecond timestamp at midnight. *)
Definition Timestamp_min : date := mkdate 1677 9 22.
Definition Timestamp_max : date := mkdate 2262 4 11.

(** [datetime.date(y, m, d)] exists and fits a nanosecond timestamp. *)
Definition valid_date (t : date) : bool :=
  ((1 <=? month t) && (month t <=? 12) && (1 <=? day t)
   && (day t <=? days_in_month (year t) (month t)))%Z
  && date_leb Timestamp_min t && date_leb t Timestamp_max.

Definition nonzero_digit (c : ascii) : bool :=
  isdigit_ascii c && negb (Ascii.eqb c "0"%char).

(** The number of bytes of the UTF-8 sequence that a byte starts. *)
Definition utf8_width (c : ascii) : nat :=
  if (code c <? 128)%nat then 1
  else if (code c <? 224)%nat then 2
  else if (code c <? 240)%nat then 3
  else 4.

Definition continuation (c : ascii) : bool :=
  ((128 <=? code c) && (code c <=? 191))%nat.

(** One code point beyond ASCII in UTF-8: a lead byte and the continuation
    bytes it announces. *)
Definition beyond_ascii (w : string) : bool :=
  match w with
  | String c w' =>
      ((194 <=? code c) && (code c <=? 244))%nat
      && (String.length w =? utf8_width c)%nat
      && forallb continuation (list_ascii_of_string w')
  | EmptyString => false
  end.

(** The [\d] of the format's regular expression on one character: an ASCII
    digit, or a code point beyond ASCII that the table knows as a decimal
    digit. *)
Definition digit (rt : runtime) (w : string) : option Z :=
  match w with
  | String c EmptyString => if isdigit_ascii c then Some (digit_val c) else None
  | _ => if beyond_ascii w then decimal rt w else None
  end.

(** The first character of a text and the text after it. *)
Definition uncons_char (s : string) : option (string * string) :=
  match s with
  | String c _ =>
      let n := utf8_width c in
      if (n <=? String.length s)%nat
      then Some (substring 0 n s, substring n (String.length s - n) s)
      else None
  | EmptyString => None
  end.

(** [n] characters matched by [\d], read as a decimal number. *)
Fixpoint read_digits (rt : runtime) (n : nat) (s : string) (acc : Z) : option (Z * string) :=
  match n with
  | O => Some (acc, s)
  | S n' =>
      match uncons_char s with
      | Some (w, rest) =>
          match digit rt w with
          | Some v => read_digits rt n' rest (acc * 10 + v)%Z
          | None => None
          end
      | None => None
      end
  end.

(** The directive [%d] of [strptime]: [3[0-1]|[1-2]\d|0[1-9]|[1-9]| [1-9]]. *)
Definition match_d (rt : runtime) (w : string) : option Z :=
  match w with
  | EmptyString => None
  | String a EmptyString => if nonzero_digit a then Some (digit_val a) else None
  | String a rest =>
      if Ascii.eqb a "1"%char || Ascii.eqb a "2"%char then
        match digit rt rest with
        | Some v => Some (digit_val a * 10 + v)%Z
        | None => None
        end
      else
        match rest with
        | String b EmptyString =>
            if Ascii.eqb a "3"%char && (Ascii.eqb b "0"%char || Ascii.eqb b "1"%char)
            then Some (30 + digit_val b)%Z
            else if (Ascii.eqb a "0"%char || Ascii.eqb a " "%char) && nonzero_digit b
            then Some (digit_val b)
            else None
        | _ => None
        end
  end.

(** The directive [%m]: [1[0-2]|0[1-9]|[1-9]]. *)
Definition match_m (w : string) : option Z :=
  match w with
  | String a (String b EmptyString) =>
      if Ascii.eqb a "1"%char
         && (Ascii.eqb b "0"%char || Ascii.eqb b "1"%char || Ascii.eqb b "2"%char)
      then Some (10 + digit_val b)%Z
      else if Ascii.eqb a "0"%char && nonzero_digit b then Some (digit_val b)
      else None
  | String a EmptyString => if nonzero_digit a then Some (digit_val a) else None
  | _ => None
  end.

(** The directive [%Y]: [\d\d\d\d]. *)
Definition match_Y (rt : runtime) (w : string) : option Z :=
  match read_digits rt 4 w 0 with
  | Some (v, EmptyString) => Some v
  | _ => None
  end.

(** One text against the whole format [%d/%m/%Y]; none of the three
    directives matches a slash, so the text splits at its slashes. *)
Definition strptime_dmy (rt : runtime) (s : string) : option date :=
  match split_on "/"%char s with
  | [d; m; y] =>
      match match_d rt d, match_m m, match_Y rt y with
      | Some dd, Some mm, Some yy =>
          let t := mkdate yy mm dd in
          if valid_date t then Some t else None
      | _, _, _ => None
      end
  | _ => None
  end.

(** One cell of a date column, converted when the clock reads [reading].  A
    padded cell is NaT; the words [now] and [today] are read as the current
    time, whatever the format says; any other text goes through the
    format. *)
Definition to_datetime (rt : runtime) (reading : timestamp) (c : cell) : option timestamp :=
  match c with
  | Some s =>
      if String.eqb s "now" || String.eqb s "today" then Some reading
      else option_map midnight (strptime_dmy rt s)
  | None => None
  end.


(* ================================================================== *)
(** ** The data frame *)

(** One row of the frame, with the columns the program reads.  A field of a
    column that the sheet does not have holds a placeholder and is never read:
    every access goes through [require] below. *)
Record Row : Type := mkRow {
  DATA : option timestamp;
  DATA_DA_CALL : option timestamp;
  DIA_DA_VENDA : option timestamp;
  SDR : string;
  CLOSER : string;
  FUNIL : string;
  STATUS : string;
  VENDA_REALIZADA : string;
  PRODUTO : cell;
  VALOR_NUM : float64;
  CICLO_DE_VENDAS : float64
}.

Record DataFrame : Type := mkDF {
  columns : list string;
  rows : list Row
}.

(** [col in df.columns] *)
Definition has_col (cols : list string) (name : string) : bool :=
  existsb (String.eqb name) cols.

Fixpoint index_of (name : string) (cols : list string) : option nat :=
  match cols with
  | [] => None
  | c :: cs => if String.eqb name c then Some O
               else option_map S (index_of name cs)
  end.

(** The cell of a raw row under a column; pandas pads a short row with
    [None]. *)
Definition get_cell (cols : list string) (name : string) (r : list string) : cell :=
  match index_of name cols with
  | Some i => nth_error r i
  | None => None
  end.

Definition count_col (cols : list string) (name : string) : nat :=
  List.length (filter (String.eqb name) cols).

(** The columns [load_data] converts. *)
Definition date_columns : list string := ["DATA"; "DATA DA CALL"; "DIA DA VENDA"].
Definition string_columns : list string :=
  ["SDR"; "CLOSER"; "FUNIL"; "STATUS"; "VENDA REALIZADA"].
Definition converted_columns : list string :=
  date_columns ++ ["VALOR"] ++ string_columns ++ ["CICLO DE VENDAS"].

(** Lines 81-100 on the raw row of index [i]. *)
Definition load_row (rt : runtime) (i : nat) (cols : list string) (r : list string) : Row :=
  let date_of name :=
    if has_col cols name then to_datetime rt (now rt i name) (get_cell cols name r)
    else None in
  let str_of name :=
    if has_col cols name then strip (astype_str (get_cell cols name r)) else "" in
  {| DATA := date_of "DATA";
     DATA_DA_CALL := date_of "DATA DA CALL";
     DIA_DA_VENDA := date_of "DIA DA VENDA";
     SDR := str_of "SDR";
     CLOSER := str_of "CLOSER";
     FUNIL := str_of "FUNIL";
     STATUS := str_of "STATUS";
     VENDA_REALIZADA := str_of "VENDA REALIZADA";
     PRODUTO := get_cell cols "PRODUTO" r;
     VALOR_NUM :=
       if has_col cols "VALOR" then valor_num (get_cell cols "VALOR" r) else Fin 0;
     CICLO_DE_VENDAS :=
       if has_col cols "CICLO DE VENDAS"
       then to_numeric (get_cell cols "CICLO DE VENDAS" r) else NaN |}.

(** The raw rows in turn, numbered from [i]. *)
Fixpoint load_rows (rt : runtime) (cols : list string) (i : nat) (body : list (list string))
    : list Row :=
  match body with
  | [] => []
  | r :: body' => load_row rt i cols r :: load_rows rt cols (S i) body'
  end.

(** The widest row of the matrix. *)
Definition max_width (m : list (list string)) : nat :=
  fold_right (fun r w => Nat.max (List.length r) w) O m.

(** [pd.DataFrame(body, columns=header)] raises unless the widest row is
    exactly as wide as the header; shorter rows are padded. *)
Definition frame_fits (header : list string) (body : list (list string)) : bool :=
  match body with
  | [] => true
  | _ => (max_width body =? List.length header)%nat
  end.

(** A converted column that occurs twice among the trimmed names is a frame,
    not a series, and its conversion raises; so does the conversion of line
    90 when the sheet has VALOR and lists VALOR_NUM twice. *)
Definition conversions_apply (cols : list string) : bool :=
  forallb (fun name => (count_col cols name <=? 1)%nat) converted_columns
  && (negb (has_col cols "VALOR") || (count_col cols "VALOR_NUM" <=? 1)%nat).

(** [load_data] (lines 69-105) on the matrix [ler_dados] returned.

    [None] is returned for an empty matrix and whenever pandas raises inside
    the [try].  When the sheet has [VALOR] the frame gets the column
    [VALOR_NUM], which overwrites a sheet column of that name.  On a sheet
    that has a column [VALOR_NUM] and no [VALOR] the frame keeps that column
    with its texts; the field [VALOR_NUM] of a row does not stand for them,
    so what the dashboards do with such a frame is outside the model. *)
Definition load_data (rt : runtime) (aba_agendamentos : list (list string))
    : option DataFrame :=
  match aba_agendamentos with
  | [] => None
  | header :: body =>
      if frame_fits header body then
        let cols := map strip header in
        if conversions_apply cols
        then Some {| columns := if has_col cols "VALOR" && negb (has_col cols "VALOR_NUM")
                                then cols ++ ["VALOR_NUM"] else cols;
                     rows := load_rows rt cols 0 body |}
        else None
      else None
  end.

(** The matrix of the scenario of the specification. *)
Definition scenario_matrix : list (list string) :=
  [ ["DATA"; "SDR"; "CLOSER"; "FUNIL"; "STATUS"; "VENDA REALIZADA"; "VALOR"];
    ["01/03/2024"; "Ana"; "Bruno"; "Inbound"; "Call Realizada"; "Ganho"; "R$ 1.000,00"] ].

Definition scenario_row : Row :=
  {| DATA := Some (midnight (mkdate 2024 3 1)); DATA_DA_CALL := None; DIA_DA_VENDA := None;
     SDR := "Ana"; CLOSER := "Bruno"; FUNIL := "Inbound";
     STATUS := "Call Realizada"; VENDA_REALIZADA := "Ganho";
     PRODUTO := None; VALOR_NUM := Fin 1000; CICLO_DE_VENDAS := NaN |}.

Definition scenario_df : DataFrame :=
  {| columns := ["DATA"; "SDR"; "CLOSER"; "FUNIL"; "STATUS"; "VENDA REALIZADA";
                 "VALOR"; "VALOR_NUM"];
     rows := [scenario_row] |}.


(* ================================================================== *)
(** ** Column helpers: sums, means, order statistics, grouping *)

Section Sorting.
Context {A : Type} (leb : A -> A -> bool).

Fixpoint insert_sorted (x : A) (l : list A) : list A :=
  match l with
  | [] => [x]
  | y :: l' => if leb x y then x :: l else y :: insert_sorted x l'
  end.

(** [sorted(l)], by insertion. *)
Fixpoint sorted (l : list A) : list A :=
  match l with
  | [] => []
  | x :: l' => insert_sorted x (sorted l')
  end.

End Sorting.

(** [Series.unique()]: the distinct values in order of first appearance. *)
Fixpoint unique (l : list string) : list string :=
  match l with
  | [] => []
  | x :: l' => x :: filter (fun y => negb (String.eqb y x)) (unique l')
  end.

(** [Series.dropna()] on a column of cells. *)
Fixpoint dropna (l : list cell) : list string :=
  match l with
  | [] => []
  | Some s :: l' => s :: dropna l'
  | None :: l' => dropna l'
  end.

(** [Series.sum()]: NaN is skipped, the empty sum is 0. *)
Definition fsum (xs : list float64) : float64 :=
  fold_left fadd (filter notna xs) (Fin 0).

(** [Series.mean()]: NaN is skipped, the mean of nothing is NaN. *)
Definition fmean (xs : list float64) : float64 :=
  match filter notna xs with
  | [] => NaN
  | ys => fdiv_count (fold_left fadd ys (Fin 0)) (List.length ys)
  end.

(** [Series.median()] *)
Definition fmedian (xs : list float64) : float64 :=
  let ys := sorted fleb (filter notna xs) in
  let n := List.length ys in
  match ys with
  | [] => NaN
  | _ => if Nat.even n
         then fmid (nth (n / 2 - 1) ys NaN) (nth (n / 2) ys NaN)
         else nth (n / 2) ys NaN
  end.

(** [Series.min()] and [Series.max()] *)
Definition fmin (xs : list float64) : float64 :=
  match filter notna xs with
  | [] => NaN
  | y :: ys => fold_left (fun m x => if fltb x m then x else m) ys y
  end.

Definition fmax (xs : list float64) : float64 :=
  match filter notna xs with
  | [] => NaN
  | y :: ys => fold_left (fun m x => if fltb m x then x else m) ys y
  end.

(** [df.groupby(key)]: one group per distinct key, in ascending key order,
    each with its rows in frame order. *)
Definition groupby (key : Row -> string) (rs : list Row) : list (string * list Row) :=
  map (fun k => (k, filter (fun r => String.eqb (key r) k) rs))
      (sorted String.leb (unique (map key rs))).

Definition count_where (p : Row -> bool) (rs : list Row) : nat :=
  List.length (filter p rs).

Definition is_call_realizada (r : Row) : bool := String.eqb (STATUS r) "Call Realizada".
Definition is_no_show (r : Row) : bool := String.eqb (STATUS r) "No Show".
Definition is_ganho (r : Row) : bool := String.eqb (VENDA_REALIZADA r) "Ganho".

(** The guarded scalar rate of the headline metrics:
    [(num / den * 100) if den > 0 else 0]. *)
Definition taxa (num den : nat) : Q :=
  if (0 <? den)%nat
  then Qred (inject_Z (Z.of_nat num) / inject_Z (Z.of_nat den) * 100)
  else 0.

(** The rate column of a grouped table: [(num / den * 100).round(1)]. *)
Definition taxa_col (num den : nat) : float64 :=
  round1 (fmul100 (int_div (Z.of_nat num) (Z.of_nat den))).

(* ================================================================== *)
(** ** What a run puts on the page

    A dashboard function is run for the elements it renders; an exception
    stops it, and what was rendered before stays on the page. *)

Inductive value : Type :=
| Count (n : nat)            (* f"{n:,}" *)
| Money (x : float64)        (* f"R$ {x:,.2f}" *)
| Percent (q : Q)            (* f"{q:.1f}%" *)
| Days (x : float64)         (* f"{x:.0f} dias" *)
| NA.                        (* "N/A" *)

Record closer_stats : Type := mkCloserStats {
  Vendedor : string;
  Calls_Realizadas : nat;
  Vendas : nat;
  Receita : float64;
  Taxa_Conversao : float64
}.

Record sdr_stats_row : Type := mkSdrStats {
  sdr_SDR : string;
  sdr_Total_Agendamentos : nat;
  sdr_Calls_Realizadas : nat;
  sdr_No_Shows : nat;
  sdr_Taxa_Show : float64
}.

Record funil_stats : Type := mkFunilStats {
  Funil : string;
  f_Total_Agendamentos : nat;
  f_Calls_Realizadas : nat;
  f_No_Shows : nat;
  f_Vendas : nat;
  f_Receita : float64;
  f_Taxa_Show : float64;
  f_Taxa_Conversao : float64
}.

Record ciclo_stats : Type := mkCicloStats {
  Grupo : string;
  Ciclo_Medio : float64;
  Ciclo_Mediano : float64;
  Quantidade : nat
}.

Inductive element : Type :=
| metric (label : string) (v : value)
| warning (text : string)
| date_input (key : string) (bounds : option (date * date))
| checkbox (label : string)
| selectbox (label : string) (options : list string)
| bar_chart (title : string) (points : list (string * float64))
| closers_table (t : list closer_stats)
| sdrs_table (t : list sdr_stats_row)
| funis_table (t : list funil_stats)
| ciclo_table (title : string) (t : list ciclo_stats).

(** How a run ends: well, or with one of the exceptions pandas raises on the
    frames modelled here. *)
Inductive result (A : Type) : Type :=
| Ok (a : A)
| KeyError (col : string)
| TypeError
| AttributeError.
Arguments Ok {A} a.
Arguments KeyError {A} col.
Arguments TypeError {A}.
Arguments AttributeError {A}.

Definition App (A : Type) : Type := list element * result A.

Definition ret {A} (a : A) : App A := ([], Ok a).

Definition bind {A B} (m : App A) (k : A -> App B) : App B :=
  match m with
  | (out, Ok a) => let (out', r) := k a in (out ++ out', r)
  | (out, KeyError c) => (out, KeyError c)
  | (out, TypeError) => (out, TypeError)
  | (out, AttributeError) => (out, AttributeError)
  end.

Notation "x <- m ;; k" := (bind m (fun x => k))
  (at level 61, m at next level, right associativity).
Notation "m ;; k" := (bind m (fun _ => k))
  (at level 61, right associativity).

Definition emit (e : element) : App unit := ([e], Ok tt).

(** [df[name]] succeeds only for a column of the frame. *)
Definition require (df : DataFrame) (name : string) : App unit :=
  if has_col (columns df) name then ret tt else ([], KeyError name).

(** [df[name].dropna().unique()] succeeds only for a column the frame lists
    once: a name listed twice selects a frame, and a frame has no [unique]. *)
Definition require_series (df : DataFrame) (name : string) : App unit :=
  if has_col (columns df) name then
    if (1 <? count_col (columns df) name)%nat then ([], AttributeError) else ret tt
  else ([], KeyError name).

(** [.round(1)] on the rate column of a grouped table.  Grouping a frame
    without rows gives no group, the columns the lambdas aggregate keep the
    dtype [object] of the text column they read, and so does their quotient:
    rounding it raises [TypeError]. *)
Definition round_rate (grouped : list Row) : App unit :=
  match grouped with
  | [] => ([], TypeError)
  | _ :: _ => ret tt
  end.

Definition rendered {A} (m : App A) : list element := fst m.
Definition outcome {A} (m : App A) : result A := snd m.

(* ================================================================== *)
(** ** The dashboards *)

(** [create_metrics_cards] (lines 107-121). *)
Definition create_metrics_cards (df : DataFrame) : App unit :=
  let total_agendamentos := List.length (rows df) in
  require df "STATUS" ;;
  let calls_realizadas := count_where is_call_realizada (rows df) in
  require df "VENDA REALIZADA" ;;
  let vendas_ganhas := count_where is_ganho (rows df) in
  require df "VALOR_NUM" ;;
  let receita_total := fsum (map VALOR_NUM (filter is_ganho (rows df))) in
  emit (metric "Total Agendamentos" (Count total_agendamentos)) ;;
  emit (metric "Calls Realizadas" (Count calls_realizadas)) ;;
  emit (metric "Vendas Fechadas" (Count vendas_ganhas)) ;;
  emit (metric "Receita Total" (Money receita_total)).

(** The rows whose sales cycle is filled in:
    [df['CICLO DE VENDAS'].notna() & (df['CICLO DE VENDAS'] > 0)]. *)
Definition ciclo_preenchido (r : Row) : bool :=
  notna (CICLO_DE_VENDAS r) && fltb (Fin 0) (CICLO_DE_VENDAS r).

(** [dashboard_geral], lines 123-153: the two rows of headline metrics.  The
    four charts that follow (lines 155-198) are not modelled. *)
Definition dashboard_geral (df : DataFrame) : App unit :=
  create_metrics_cards df ;;
  let total_agendamentos := List.length (rows df) in
  require df "STATUS" ;;
  let calls_realizadas := count_where is_call_realizada (rows df) in
  require df "VENDA REALIZADA" ;;
  let vendas_ganhas := count_where is_ganho (rows df) in
  let no_shows := count_where is_no_show (rows df) in
  let taxa_show := taxa calls_realizadas total_agendamentos in
  let taxa_conversao := taxa vendas_ganhas calls_realizadas in
  let taxa_no_show := taxa no_shows total_agendamentos in
  require df "CICLO DE VENDAS" ;;
  let ciclo_medio := fmean (map CICLO_DE_VENDAS (filter ciclo_preenchido (rows df))) in
  emit (metric "Taxa de Show" (Percent taxa_show)) ;;
  emit (metric "Taxa de Conversão" (Percent taxa_conversao)) ;;
  emit (metric "Taxa de No Show" (Percent taxa_no_show)) ;;
  emit (metric "Ciclo Médio" (if notna ciclo_medio then Days ciclo_medio else NA)).

(** The per-closer table of [dashboard_vendedores] (lines 237-245), for a
    frame with rows; on a frame without rows line 244 raises, see
    [dashboard_vendedores]. *)
Definition vendedor_stats (rs : list Row) : list closer_stats :=
  map (fun g : string * list Row =>
         let (k, x) := g in
         let calls := count_where is_call_realizada x in
         let vendas := count_where is_ganho x in
         {| Vendedor := k;
            Calls_Realizadas := calls;
            Vendas := vendas;
            Receita := fsum (map VALOR_NUM (filter is_ganho x));
            Taxa_Conversao := taxa_col vendas calls |})
      (groupby CLOSER rs).

(** The option list of a selector:
    [['Todos'] + sorted(col.dropna().unique().tolist())]. *)
Definition selector_options (col : list cell) : list string :=
  "Todos" :: sorted String.leb (unique (dropna col)).

(** [dashboard_vendedores] (lines 200-264); [selected_closer] is what the
    closer selector returned. *)
Definition dashboard_vendedores (df : DataFrame) (selected_closer : string) : App unit :=
  require df "CLOSER" ;;
  emit (selectbox "Selecione o Closer:"
          (selector_options (map (fun r => Some (CLOSER r)) (rows df)))) ;;
  let df_filtered :=
    if negb (String.eqb selected_closer "Todos")
    then filter (fun r => String.eqb (CLOSER r) selected_closer) (rows df)
    else rows df in
  require df "STATUS" ;;
  let total_calls := count_where is_call_realizada df_filtered in
  require df "VENDA REALIZADA" ;;
  let total_vendas := count_where is_ganho df_filtered in
  let taxa_conversao := taxa total_vendas total_calls in
  require df "VALOR_NUM" ;;
  let receita_total := fsum (map VALOR_NUM (filter is_ganho df_filtered)) in
  emit (metric "Calls Realizadas" (Count total_calls)) ;;
  emit (metric "Vendas Fechadas" (Count total_vendas)) ;;
  emit (metric "Taxa de Conversão" (Percent taxa_conversao)) ;;
  emit (metric "Receita Total" (Money receita_total)) ;;
  round_rate (rows df) ;;        (* lines 243-244 *)
  let stats := vendedor_stats (rows df) in
  emit (bar_chart "Taxa de Conversão por Closer (%)"
          (map (fun s => (Vendedor s, Taxa_Conversao s)) stats)) ;;
  emit (bar_chart "Receita Total por Closer (R$)"
          (map (fun s => (Vendedor s, Receita s)) stats)) ;;
  emit (closers_table stats).

(** The per-SDR table of [dashboard_sdr] (lines 302-307), for a frame with
    rows; on a frame without rows line 307 raises, see [dashboard_sdr]. *)
Definition sdr_stats (rs : list Row) : list sdr_stats_row :=
  map (fun g : string * list Row =>
         let (k, x) := g in
         let total := List.length x in
         let calls := count_where is_call_realizada x in
         {| sdr_SDR := k;
            sdr_Total_Agendamentos := total;
            sdr_Calls_Realizadas := calls;
            sdr_No_Shows := count_where is_no_show x;
            sdr_Taxa_Show := taxa_col calls total |})
      (groupby SDR rs).

(** [dashboard_sdr] (lines 266-333), without the funnel-by-SDR chart of lines
    324-329. *)
Definition dashboard_sdr (df : DataFrame) (selected_sdr : string) : App unit :=
  require df "SDR" ;;
  emit (selectbox "Selecione o SDR:"
          (selector_options (map (fun r => Some (SDR r)) (rows df)))) ;;
  let df_filtered :=
    if negb (String.eqb selected_sdr "Todos")
    then filter (fun r => String.eqb (SDR r) selected_sdr) (rows df)
    else rows df in
  let total_agendamentos := List.length df_filtered in
  require df "STATUS" ;;
  let calls_realizadas := count_where is_call_realizada df_filtered in
  let taxa_show := taxa calls_realizadas total_agendamentos in
  let no_shows := count_where is_no_show df_filtered in
  emit (metric "Agendamentos" (Count total_agendamentos)) ;;
  emit (metric "Calls Realizadas" (Count calls_realizadas)) ;;
  emit (metric "Taxa de Show" (Percent taxa_show)) ;;
  emit (metric "No Shows" (Count no_shows)) ;;
  round_rate (rows df) ;;        (* line 307 *)
  let stats := sdr_stats (rows df) in
  emit (bar_chart "Taxa de Show por SDR (%)"
          (map (fun s => (sdr_SDR s, sdr_Taxa_Show s)) stats)) ;;
  emit (bar_chart "Total de Agendamentos por SDR"
          (map (fun s => (sdr_SDR s, Fin (inject_Z (Z.of_nat (sdr_Total_Agendamentos s)))))
               stats)) ;;
  require df "FUNIL" ;;          (* the chart of lines 324-329 reads it *)
  emit (sdrs_table stats).

(** The first table of [dashboard_funis] (lines 344-350): scheduled and held
    meetings by funnel, with the rate of held meetings. *)
Definition funil_analysis (rs : list Row) : list (string * nat * nat * float64) :=
  map (fun g : string * list Row =>
         let (k, x) := g in
         let agendamentos := List.length x in
         let realizadas := count_where is_call_realizada x in
         (k, agendamentos, realizadas, taxa_col realizadas agendamentos))
      (groupby FUNIL rs).

(** The conversion rate by funnel of [dashboard_funis] (lines 360-366): only
    the rows with a call held are grouped.  When no row is a held call line
    366 raises, see [dashboard_funis]. *)
Definition conversao_funil (rs : list Row) : list (string * float64) :=
  map (fun g : string * list Row =>
         let (k, x) := g in
         (k, taxa_col (count_where is_ganho x) (List.length x)))
      (groupby FUNIL (filter is_call_realizada rs)).

(** The summary table of [dashboard_funis] (lines 389-397). *)
Definition funil_complete (rs : list Row) : list funil_stats :=
  map (fun g : string * list Row =>
         let (k, x) := g in
         let total := List.length x in
         let calls := count_where is_call_realizada x in
         let vendas := count_where is_ganho x in
         {| Funil := k;
            f_Total_Agendamentos := total;
            f_Calls_Realizadas := calls;
            f_No_Shows := count_where is_no_show x;
            f_Vendas := vendas;
            f_Receita := fsum (map VALOR_NUM (filter is_ganho x));
            f_Taxa_Show := taxa_col calls total;
            f_Taxa_Conversao := taxa_col vendas calls |})
      (groupby FUNIL rs).

(** [dashboard_funis] (lines 335-399): the conversion chart and the summary
    table; the counts chart and the monthly chart are not modelled. *)
Definition dashboard_funis (df : DataFrame) : App unit :=
  require df "FUNIL" ;;
  require df "STATUS" ;;
  round_rate (rows df) ;;                                  (* lines 349-350 *)
  require df "VENDA REALIZADA" ;;
  round_rate (filter is_call_realizada (rows df)) ;;       (* lines 365-366 *)
  emit (bar_chart "Taxa de Conversão por Funil (%)" (conversao_funil (rows df))) ;;
  require df "VALOR_NUM" ;;
  emit (funis_table (funil_complete (rows df))).

(** Mean, median and count of the sales cycle by a dimension (lines 441,
    451). *)
Definition ciclo_por (key : Row -> string) (rs : list Row) : list ciclo_stats :=
  map (fun g : string * list Row =>
         let (k, x) := g in
         {| Grupo := k;
            Ciclo_Medio := fmean (map CICLO_DE_VENDAS x);
            Ciclo_Mediano := fmedian (map CICLO_DE_VENDAS x);
            Quantidade := List.length (filter notna (map CICLO_DE_VENDAS x)) |})
      (groupby key rs).

(** [dashboard_ciclo_vendas] (lines 401-468), without the histogram. *)
Definition dashboard_ciclo_vendas (df : DataFrame) : App unit :=
  require df "CICLO DE VENDAS" ;;
  let df_ciclo := filter ciclo_preenchido (rows df) in
  if (List.length df_ciclo =? 0)%nat then
    emit (warning "Não há dados de ciclo de vendas disponíveis.")
  else
    let ciclo := map CICLO_DE_VENDAS df_ciclo in
    emit (metric "Ciclo Médio" (Days (fmean ciclo))) ;;
    emit (metric "Ciclo Mediano" (Days (fmedian ciclo))) ;;
    emit (metric "Ciclo Mínimo" (Days (fmin ciclo))) ;;
    emit (metric "Ciclo Máximo" (Days (fmax ciclo))) ;;
    require df "FUNIL" ;;
    let ciclo_funil := ciclo_por FUNIL df_ciclo in
    emit (bar_chart "Ciclo Médio de Vendas por Funil (dias)"
            (map (fun s => (Grupo s, Ciclo_Medio s)) ciclo_funil)) ;;
    require df "CLOSER" ;;
    let ciclo_vendedor := ciclo_por CLOSER df_ciclo in
    emit (bar_chart "Ciclo Médio de Vendas por Closer (dias)"
            (map (fun s => (Grupo s, Ciclo_Medio s)) ciclo_vendedor)) ;;
    emit (ciclo_table "Resumo por Funil" ciclo_funil) ;;
    emit (ciclo_table "Resumo por Closer" ciclo_vendedor).

(* ================================================================== *)
(** ** The sidebar filters of [main] *)

(** What the sidebar widgets return in one run of the script.  A date
    selector returns a tuple of zero, one or two dates; a selectbox returns
    one text.  The widgets only ever return values they offered; the model
    lets them return anything, which covers every real run. *)
Record session : Type := mkSession {
  agendamento_date : list date;
  usar_filtro_venda : bool;
  venda_date : list date;
  selected_produto : string;
  selected_funil : string;
  selected_status : string
}.

Definition with_rows (df : DataFrame) (rs : list Row) : DataFrame :=
  {| columns := columns df; rows := rs |}.

(** [col.min()] and [col.max()] of a date column; NaT is skipped. *)
Fixpoint ts_bounds (col : list (option timestamp)) : option (timestamp * timestamp) :=
  match col with
  | [] => None
  | None :: col' => ts_bounds col'
  | Some t :: col' =>
      match ts_bounds col' with
      | None => Some (t, t)
      | Some (lo, hi) =>
          Some (if ts_leb t lo then t else lo, if ts_leb hi t then t else hi)
      end
  end.

(** [col.min().date()] and [col.max().date()]: the days of the earliest and
    of the latest timestamp. *)
Definition date_bounds (col : list (option timestamp)) : option (date * date) :=
  match ts_bounds col with
  | Some (lo, hi) => Some (on lo, on hi)
  | None => None
  end.

(** [(col >= pd.Timestamp(start)) & (col <= pd.Timestamp(end))] on one cell;
    a comparison with NaT is false. *)
Definition in_range (start_date end_date : date) (c : option timestamp) : bool :=
  match c with
  | Some t => ts_leb (midnight start_date) t && ts_leb t (midnight end_date)
  | None => false
  end.

Definition isna (c : option timestamp) : bool :=
  match c with Some _ => false | None => true end.

(** Lines 491-505.  When the column has no date at all the bounds of the
    selector come from the clock and are left out ([None]). *)
Definition filtro_agendamento (ui : session) (df : DataFrame) : App DataFrame :=
  if has_col (columns df) "DATA" then
    emit (date_input "agendamento_date" (date_bounds (map DATA (rows df)))) ;;
    match agendamento_date ui with
    | [start_date_agend; end_date_agend] =>
        ret (with_rows df
               (filter (fun r => in_range start_date_agend end_date_agend (DATA r))
                       (rows df)))
    | _ => ret df
    end
  else ret df.

(** Lines 508-530. *)
Definition filtro_venda (ui : session) (df : DataFrame) : App DataFrame :=
  if has_col (columns df) "DIA DA VENDA" then
    emit (checkbox "Filtrar também por data de venda") ;;
    if usar_filtro_venda ui then
      let vendas_com_data := filter (fun r => negb (isna (DIA_DA_VENDA r))) (rows df) in
      if (0 <? List.length vendas_com_data)%nat then
        emit (date_input "venda_date" (date_bounds (map DIA_DA_VENDA vendas_com_data))) ;;
        match venda_date ui with
        | [start_date_venda; end_date_venda] =>
            let mask_vendas r := in_range start_date_venda end_date_venda (DIA_DA_VENDA r) in
            let mask_sem_venda r := isna (DIA_DA_VENDA r) in
            ret (with_rows df (filter (fun r => mask_vendas r || mask_sem_venda r) (rows df)))
        | _ => ret df
        end
      else ret df
    else ret df
  else ret df.

(** [col == selected] on a cell that may be missing. *)
Definition cell_eqb (c : cell) (v : string) : bool :=
  match c with
  | Some s => String.eqb s v
  | None => false
  end.

(** Lines 536-539. *)
Definition filtro_produto (ui : session) (df : DataFrame) : App DataFrame :=
  require_series df "PRODUTO" ;;
  emit (selectbox "Produto:" (selector_options (map PRODUTO (rows df)))) ;;
  if negb (String.eqb (selected_produto ui) "Todos")
  then ret (with_rows df (filter (fun r => cell_eqb (PRODUTO r) (selected_produto ui)) (rows df)))
  else ret df.

(** Lines 542-545. *)
Definition filtro_funil (ui : session) (df : DataFrame) : App DataFrame :=
  require_series df "FUNIL" ;;
  emit (selectbox "Funil:" (selector_options (map (fun r => Some (FUNIL r)) (rows df)))) ;;
  if negb (String.eqb (selected_funil ui) "Todos")
  then ret (with_rows df (filter (fun r => String.eqb (FUNIL r) (selected_funil ui)) (rows df)))
  else ret df.

(** Lines 548-551. *)
Definition filtro_status (ui : session) (df : DataFrame) : App DataFrame :=
  require_series df "STATUS" ;;
  emit (selectbox "Status:" (selector_options (map (fun r => Some (STATUS r)) (rows df)))) ;;
  if negb (String.eqb (selected_status ui) "Todos")
  then ret (with_rows df (filter (fun r => String.eqb (STATUS r) (selected_status ui)) (rows df)))
  else ret df.

(** The filter section of [main] (lines 487-554) on the loaded frame. *)
Definition main_filters (ui : session) (df : DataFrame) : App DataFrame :=
  df <- filtro_agendamento ui df ;;
  df <- filtro_venda ui df ;;
  df <- filtro_produto ui df ;;
  df <- filtro_funil ui df ;;
  df <- filtro_status ui df ;;
  emit (metric "Registros Filtrados" (Count (List.length (rows df)))) ;;
  ret df.

(* ================================================================== *)
(** ** Reading a page *)

(** The options a selector offered in a run, by its label. *)
Fixpoint offered (label : string) (page : list element) : option (list string) :=
  match page with
  | [] => None
  | selectbox l opts :: page' => if String.eqb l label then Some opts else offered label page'
  | _ :: page' => offered label page'
  end.

(** Whether a date selector was shown in a run, by its key. *)
Definition asked_date (key : string) (page : list element) : bool :=
  existsb (fun e => match e with
                    | date_input k _ => String.eqb k key
                    | _ => false
                    end) page.

(** The part of the closers page that compares the closers: the two charts
    and the table. *)
Definition is_comparison (e : element) : bool :=
  match e with
  | bar_chart _ _ | closers_table _ => true
  | _ => false
  end.

Definition comparison_part (page : list element) : list element :=
  filter is_comparison page.

(** Everything on a page but the headline metrics. *)
Definition is_metric (e : element) : bool :=
  match e with
  | metric _ _ => true
  | _ => false
  end.

Definition without_metrics (page : list element) : list element :=
  filter (fun e => negb (is_metric e)) page.

(** The sales-cycle cards of a page: the metrics whose label starts with
    Ciclo, and the warning shown in their place. *)
Definition is_cycle_card (e : element) : bool :=
  match e with
  | metric label _ => prefix "Ciclo" label
  | warning _ => true
  | _ => false
  end.

Definition cycle_cards (page : list element) : list element :=
  filter is_cycle_card page.

(* ================================================================== *)
(** ** The filters, one at a time *)

(** The five sidebar filters, to speak of them one at a time. *)
Inductive filtro : Type :=
| Agendamento
| Venda
| Produto
| Funil_
| Status_.

Definition aplicar (f : filtro) (ui : session) (df : DataFrame) : App DataFrame :=
  match f with
  | Agendamento => filtro_agendamento ui df
  | Venda => filtro_venda ui df
  | Produto => filtro_produto ui df
  | Funil_ => filtro_funil ui df
  | Status_ => filtro_status ui df
  end.

(** The column a filter indexes without a guard, if any. *)
Definition needed (f : filtro) : option string :=
  match f with
  | Produto => Some "PRODUTO"
  | Funil_ => Some "FUNIL"
  | Status_ => Some "STATUS"
  | Agendamento | Venda => None
  end.

(** The row predicate a filter stands for, on a frame with the columns
    [cols]; predicates compose by conjunction. *)
Definition passes (f : filtro) (ui : session) (cols : list string) (r : Row) : bool :=
  match f with
  | Agendamento =>
      if has_col cols "DATA" then
        match agendamento_date ui with
        | [s; e] => in_range s e (DATA r)
        | _ => true
        end
      else true
  | Venda =>
      if has_col cols "DIA DA VENDA" && usar_filtro_venda ui then
        match venda_date ui with
        | [s; e] => in_range s e (DIA_DA_VENDA r) || isna (DIA_DA_VENDA r)
        | _ => true
        end
      else true
  | Produto =>
      String.eqb (selected_produto ui) "Todos" || cell_eqb (PRODUTO r) (selected_produto ui)
  | Funil_ =>
      String.eqb (selected_funil ui) "Todos" || String.eqb (FUNIL r) (selected_funil ui)
  | Status_ =>
      String.eqb (selected_status ui) "Todos" || String.eqb (STATUS r) (selected_status ui)
  end.

(** How a filter ends on a frame, by the column it reads without a guard:
    [KeyError] when the frame lacks it, [AttributeError] when the frame lists
    it twice, and otherwise well, with the frame [d]. *)
Definition reads (df : DataFrame) (c : string) (d : DataFrame) : result DataFrame :=
  if has_col (columns df) c then
    if (1 <? count_col (columns df) c)%nat then AttributeError else Ok d
  else KeyError c.

(** The frame a filter leaves: the rows its predicate accepts. *)
Definition kept (f : filtro) (ui : session) (df : DataFrame) : DataFrame :=
  with_rows df (filter (passes f ui (columns df)) (rows df)).

(** The rows of a frame that pass every filter of a list. *)
Definition narrowed (fs : list filtro) (ui : session) (df : DataFrame) : list Row :=
  filter (fun r => forallb (fun f => passes f ui (columns df) r) fs) (rows df).

(* ================================================================== *)
(** ** Statements of the specification, in its own words *)

(** A run of decimal digits. *)
Definition all_digits (w : string) : Prop :=
  Forall (fun c => isdigit_ascii c = true) (list_ascii_of_string w).

(** A number written as text, in decimal or scientific notation: an optional
    sign, digits with an optional decimal point (at least one digit before or
    after it), an optional exponent ([e] or [E], an optional sign and at
    least one digit), possibly with spaces before and after. *)
Definition spaces (w : string) : Prop :=
  Forall (fun c => isspace_ascii c = true) (list_ascii_of_string w).

Definition sign_text (w : string) : Prop := w = "" \/ w = "+" \/ w = "-".

Definition mantissa_text (w : string) : Prop :=
  exists i f,
    all_digits i /\ all_digits f
    /\ ((w = i /\ i <> "") \/ (w = (i ++ "." ++ f)%string /\ (i <> "" \/ f <> ""))).

Definition exponent_text (w : string) : Prop :=
  w = ""
  \/ exists e sg ds,
       (e = "e" \/ e = "E") /\ sign_text sg /\ all_digits ds /\ ds <> ""
       /\ w = (e ++ sg ++ ds)%string.

Definition numeral_text (s : string) : Prop :=
  exists b1 sg m ex b2,
    spaces b1 /\ sign_text sg /\ mantissa_text m /\ exponent_text ex /\ spaces b2
    /\ s = (b1 ++ sg ++ m ++ ex ++ b2)%string.

(** A spelling of infinity: the word [inf] or [infinity] in any mix of upper
    and lower case, with an optional sign. *)
Definition infinity_text (s : string) : Prop :=
  exists sg w,
    sign_text sg /\ (lower w = "inf" \/ lower w = "infinity") /\ s = (sg ++ w)%string.

Definition infinity_words : list string :=
  ["inf"; "+inf"; "-inf"; "infinity"; "+infinity"; "-infinity"].

(** The claim on currency cells as the specification words it: a cell that
    is empty, or that is no number once cleaned, has the amount 0. *)
Definition unparseable_amounts_are_zero : Prop :=
  forall s : string,
    s = "" \/ ~ numeral_text (clean_valor s) -> valor_num (Some s) = Fin 0.

(** The day/month/year textual format, field by field, with the number each
    field stands for.  A digit is an ASCII digit or a decimal digit beyond
    ASCII; a day is 30 or 31, or a 1 or a 2 followed by any digit, or one of
    the digits 1 to 9, which may be padded with a zero or a blank; a month is
    10, 11 or 12, or one of the digits 1 to 9, which may be padded with a
    zero; a year is four digits. *)
Inductive digit_text (rt : runtime) : string -> Z -> Prop :=
| ascii_digit (c : ascii) :
    isdigit_ascii c = true -> digit_text rt (String c EmptyString) (digit_val c)
| other_digit (w : string) (v : Z) :
    beyond_ascii w = true -> decimal rt w = Some v -> digit_text rt w v.

Inductive day_text (rt : runtime) : string -> Z -> Prop :=
| day_thirties (b : ascii) :
    b = "0"%char \/ b = "1"%char ->
    day_text rt (String "3" (String b EmptyString)) (30 + digit_val b)
| day_tens (a : ascii) (w : string) (v : Z) :
    a = "1"%char \/ a = "2"%char -> digit_text rt w v ->
    day_text rt (String a w) (digit_val a * 10 + v)
| day_padded (a b : ascii) :
    a = "0"%char \/ a = " "%char -> nonzero_digit b = true ->
    day_text rt (String a (String b EmptyString)) (digit_val b)
| day_single (b : ascii) :
    nonzero_digit b = true -> day_text rt (String b EmptyString) (digit_val b).

Inductive month_text : string -> Z -> Prop :=
| month_tens (b : ascii) :
    b = "0"%char \/ b = "1"%char \/ b = "2"%char ->
    month_text (String "1" (String b EmptyString)) (10 + digit_val b)
| month_padded (b : ascii) :
    nonzero_digit b = true -> month_text (String "0" (String b EmptyString)) (digit_val b)
| month_single (b : ascii) :
    nonzero_digit b = true -> month_text (String b EmptyString) (digit_val b).

Inductive year_text (rt : runtime) : string -> Z -> Prop :=
| year_digits (w1 w2 w3 w4 : string) (v1 v2 v3 v4 : Z) :
    digit_text rt w1 v1 -> digit_text rt w2 v2 ->
    digit_text rt w3 v3 -> digit_text rt w4 v4 ->
    year_text rt (w1 ++ w2 ++ w3 ++ w4) (((v1 * 10 + v2) * 10 + v3) * 10 + v4).

(** A text that writes the date [t] in the format: day, month and year of a
    date of the calendar that a timestamp can hold, separated by slashes. *)
Definition dmy_text (rt : runtime) (s : string) (t : date) : Prop :=
  exists d m y,
    s = (d ++ "/" ++ m ++ "/" ++ y)%string
    /\ day_text rt d (day t) /\ month_text m (month t) /\ year_text rt y (year t)
    /\ valid_date t = true.

(** The claim on date cells as the specification words it: whatever does
    not match the format is absent. *)
Definition unmatched_dates_are_absent : Prop :=
  forall (rt : runtime) (reading : timestamp) (s : string),
    (forall t, ~ dmy_text rt s t) -> to_datetime rt reading (Some s) = None.

(** Two raw matrices of the same shape: the same header and rows of the same
    widths; only the contents of the data cells may differ. *)
Definition same_shape (m m' : list (list string)) : Prop :=
  hd_error m = hd_error m' /\ map (@List.length string) m = map (@List.length string) m'.

(** The reading of the specification under which every selector lists the
    values of the frame [main] starts from, whatever the other filters are. *)
Definition options_from_unfiltered_frame : Prop :=
  forall (ui : session) (df df' : DataFrame) (page : list element),
    main_filters ui df = (page, Ok df') ->
    offered "Produto:" page = Some (selector_options (map PRODUTO (rows df)))
    /\ offered "Funil:" page = Some (selector_options (map (fun r => Some (FUNIL r)) (rows df)))
    /\ offered "Status:" page = Some (selector_options (map (fun r => Some (STATUS r)) (rows df))).

(* ================================================================== *)
(** ** Notions used in the statements *)

(** A text in which a character does not occur. *)
Definition lacks (p : ascii) (s : string) : Prop :=
  Forall (fun c => c <> p) (list_ascii_of_string s).

(** A text that starts, or ends, with a white-space character, and a text
    made of white space only. *)
Definition starts_blank (s : string) : Prop :=
  exists w t, In w white_space /\ s = (w ++ t)%string.

Definition ends_blank (s : string) : Prop :=
  exists w t, In w white_space /\ s = (t ++ w)%string.

Inductive made_of (ws : list string) : string -> Prop :=
| made_nil : made_of ws EmptyString
| made_cons (w t : string) : In w ws -> made_of ws t -> made_of ws (w ++ t).

Definition blank : string -> Prop := made_of white_space.

(** [t] is [s] without the white space at its two ends. *)
Definition trimmed_of (s t : string) : Prop :=
  ~ starts_blank t /\ ~ ends_blank t
  /\ exists a b, blank a /\ blank b /\ s = (a ++ t ++ b)%string.

(** The characters a decimal number is written with. *)
Definition numeric_char (c : ascii) : bool :=
  isspace_ascii c || isdigit_ascii c
  || Ascii.eqb c "+" || Ascii.eqb c "-" || Ascii.eqb c "."
  || Ascii.eqb c "e" || Ascii.eqb c "E".

(** A strictly positive float. *)
Definition positive (x : float64) : Prop :=
  match x with
  | Fin q => (0 < q)%Q
  | PInf => True
  | NInf | NaN => False
  end.

(* ================================================================== *)
(** ** Concrete frames and sessions *)

Definition all_columns : list string :=
  ["DATA"; "DATA DA CALL"; "DIA DA VENDA"; "SDR"; "CLOSER"; "FUNIL"; "STATUS";
   "VENDA REALIZADA"; "PRODUTO"; "VALOR"; "CICLO DE VENDAS"; "VALOR_NUM"].

(** No filter active: no complete date range, every selector on 'Todos'. *)
Definition no_filter : session :=
  {| agendamento_date := []; usar_filtro_venda := false; venda_date := [];
     selected_produto := "Todos"; selected_funil := "Todos"; selected_status := "Todos" |}.

(** March 2024 selected in both date selectors. *)
Definition march_2024 : session :=
  {| agendamento_date := [mkdate 2024 3 1; mkdate 2024 3 31];
     usar_filtro_venda := true;
     venda_date := [mkdate 2024 3 1; mkdate 2024 3 31];
     selected_produto := "Todos"; selected_funil := "Todos"; selected_status := "Todos" |}.

Definition pick_curso : session :=
  {| agendamento_date := []; usar_filtro_venda := false; venda_date := [];
     selected_produto := "Curso"; selected_funil := "Todos"; selected_status := "Todos" |}.

Definition row_of (data venda : option date) (sdr closer funil status resultado : string)
    (produto : cell) (valor ciclo : float64) : Row :=
  {| DATA := option_map midnight data; DATA_DA_CALL := None;
     DIA_DA_VENDA := option_map midnight venda;
     SDR := sdr; CLOSER := closer; FUNIL := funil; STATUS := status;
     VENDA_REALIZADA := resultado; PRODUTO := produto;
     VALOR_NUM := valor; CICLO_DE_VENDAS := ciclo |}.

(** Two products, each sold through its own funnel. *)
Definition two_products : DataFrame :=
  {| columns := all_columns;
     rows :=
       [ row_of (Some (mkdate 2024 3 1)) (Some (mkdate 2024 3 10)) "Ana" "Bruno" "Inbound"
                "Call Realizada" "Ganho" (Some "Curso") (Fin 1000) (Fin 9);
         row_of (Some (mkdate 2024 3 2)) None "Ana" "Carla" "Outbound"
                "No Show" "" (Some "Mentoria") (Fin 0) NaN ] |}.

(** A row of [two_products] without a sales cycle. *)
Definition carla_row : Row :=
  row_of (Some (mkdate 2024 3 2)) None "Ana" "Carla" "Outbound"
         "No Show" "" (Some "Mentoria") (Fin 0) NaN.

(** The rows of [two_products] for the product Curso scheduled in March. *)
Definition curso_in_march : DataFrame :=
  {| columns := all_columns;
     rows :=
       [ row_of (Some (mkdate 2024 3 1)) (Some (mkdate 2024 3 10)) "Ana" "Bruno" "Inbound"
                "Call Realizada" "Ganho" (Some "Curso") (Fin 1000) (Fin 9) ] |}.

(** A frame in which nothing was sold yet. *)
Definition no_sales : DataFrame :=
  {| columns := all_columns;
     rows :=
       [ row_of (Some (mkdate 2024 3 1)) None "Ana" "Bruno" "Inbound"
                "Call Realizada" "" (Some "Curso") (Fin 0) NaN;
         row_of (Some (mkdate 2024 3 2)) None "Ana" "Carla" "Outbound"
                "No Show" "" (Some "Mentoria") (Fin 0) NaN ] |}.

(** A sheet in which the closer Carla, and the funnel Outbound, had no call
    held. *)
Definition no_call_matrix : list (list string) :=
  [ ["DATA"; "SDR"; "CLOSER"; "FUNIL"; "STATUS"; "VENDA REALIZADA"; "VALOR"];
    ["01/03/2024"; "Ana"; "Bruno"; "Inbound"; "Call Realizada"; "Ganho"; "R$ 1.000,00"];
    ["02/03/2024"; "Ana"; "Carla"; "Outbound"; "No Show"; "Perdido"; "R$ 0,00"] ].

Definition no_call_df : DataFrame :=
  {| columns := ["DATA"; "SDR"; "CLOSER"; "FUNIL"; "STATUS"; "VENDA REALIZADA";
                 "VALOR"; "VALOR_NUM"];
     rows :=
       [ scenario_row;
         {| DATA := Some (midnight (mkdate 2024 3 2)); DATA_DA_CALL := None;
            DIA_DA_VENDA := None;
            SDR := "Ana"; CLOSER := "Carla"; FUNIL := "Outbound";
            STATUS := "No Show"; VENDA_REALIZADA := "Perdido";
            PRODUTO := None; VALOR_NUM := Fin 0; CICLO_DE_VENDAS := NaN |} ] |}.

(** The scenario sheet with one more column, the sales cycle. *)
Definition scenario_matrix_with_ciclo (ciclo : string) : list (list string) :=
  [ ["DATA"; "SDR"; "CLOSER"; "FUNIL"; "STATUS"; "VENDA REALIZADA"; "VALOR";
     "CICLO DE VENDAS"];
    ["01/03/2024"; "Ana"; "Bruno"; "Inbound"; "Call Realizada"; "Ganho"; "R$ 1.000,00";
     ciclo] ].

(** The scenario sheet with white space around its header names and cells:
    blanks, a no-break space (U+00A0), a tabulation and an ideographic space
    (U+3000). *)
Definition nbsp : string := bytes [194; 160]%nat.
Definition ideographic_space : string := bytes [227; 128; 128]%nat.
Definition tabulation : string := bytes [9]%nat.

Definition padded_matrix : list (list string) :=
  [ [" DATA"; "SDR "; nbsp ++ "CLOSER"; "FUNIL"; "STATUS" ++ ideographic_space;
     "VENDA REALIZADA"; "VALOR"];
    ["01/03/2024"; " Ana "; "Bruno"; "Inbound";
     nbsp ++ " Call Realizada" ++ tabulation ++ ideographic_space;
     "Ganho"; "R$ 1.000,00"] ]%string.

(** The scenario sheet with its date written year first. *)
Definition scenario_matrix_iso_date : list (list string) :=
  [ ["DATA"; "SDR"; "CLOSER"; "FUNIL"; "STATUS"; "VENDA REALIZADA"; "VALOR"];
    ["2024-03-01"; "Ana"; "Bruno"; "Inbound"; "Call Realizada"; "Ganho"; "R$ 1.000,00"] ].

(* ================================================================== *)
(** ** Fetching the sheet and entering the dashboards *)

(** What the Sheets API call of [ler_dados] does: it raises, or it answers
    with a dictionary that may lack the key [values]. *)
Inductive sheets_reply : Type :=
| request_failed
| answered (values : option (list (list string))).

(** [ler_dados] (lines 56-66): [resultado.get('values', [])], and [[]] when
    the call raises. *)
Definition ler_dados (reply : sheets_reply) : list (list string) :=
  match reply with
  | request_failed => []
  | answered None => []
  | answered (Some valores) => valores
  end.

(** [df.empty]: the frame has no column or no row. *)
Definition df_empty (df : DataFrame) : bool :=
  (List.length (columns df) =? 0)%nat || (List.length (rows df) =? 0)%nat.

(** Lines 481-484 and 592 of [main]: the frame the dashboards are built from,
    or [None] when [main] shows its error page instead
    ([df is not None and not df.empty]). *)
Definition main_data (rt : runtime) (reply : sheets_reply) : option DataFrame :=
  match load_data rt (ler_dados reply) with
  | Some df => if df_empty df then None else Some df
  | None => None
  end.

(** The selections of a run are options its selectors offered, as the
    selectbox widget guarantees. *)
Definition selections_offered (ui : session) (page : list element) : Prop :=
  (exists o, offered "Produto:" page = Some o /\ In (selected_produto ui) o)
  /\ (exists o, offered "Funil:" page = Some o /\ In (selected_funil ui) o)
  /\ (exists o, offered "Status:" page = Some o /\ In (selected_status ui) o).

(* ================================================================== *)
(** ** More sessions and frames *)

(** A frame from a sheet that has two columns called PRODUTO. *)
Definition produto_twice : DataFrame :=
  {| columns := all_columns ++ ["PRODUTO"]; rows := rows two_products |}.

(** A run whose clock reads half past ten on 15 March 2024 for every cell,
    on an interpreter whose table knows the Arabic-Indic digits U+0660 to
    U+0669. *)
Definition half_past_ten : timestamp :=
  {| on := mkdate 2024 3 15; nanos := 37800000000000 |}.

Definition arabic_indic (w : string) : option Z :=
  match w with
  | String a (String b EmptyString) =>
      if ((code a =? 217) && (160 <=? code b) && (code b <=? 169))%nat
      then Some (Z.of_nat (code b) - 160)%Z
      else None
  | _ => None
  end.

Definition sample_run : runtime :=
  {| now := fun _ _ => half_past_ten; decimal := arabic_indic |}.

(** The frame [two_products] with a row that has no scheduling date and a
    row whose scheduling cell held [now] when the clock read half past ten
    on 15 March 2024. *)
Definition undated_row : Row :=
  row_of None None "Ana" "Bruno" "Inbound" "Agendado" "" (Some "Curso") (Fin 0) NaN.

Definition stamped_row : Row :=
  {| DATA := Some half_past_ten; DATA_DA_CALL := None; DIA_DA_VENDA := None;
     SDR := "Ana"; CLOSER := "Carla"; FUNIL := "Outbound"; STATUS := "Agendado";
     VENDA_REALIZADA := ""; PRODUTO := Some "Mentoria";
     VALOR_NUM := Fin 0; CICLO_DE_VENDAS := NaN |}.

Definition odd_dates : DataFrame :=
  {| columns := all_columns;
     rows := rows two_products ++ [undated_row; stamped_row] |}.

(** The scheduling selector on the whole span of [odd_dates]. *)
Definition odd_span : session :=
  {| agendamento_date := [mkdate 2024 3 1; mkdate 2024 3 15];
     usar_filtro_venda := false; venda_date := [];
     selected_produto := "Todos"; selected_funil := "Todos"; selected_status := "Todos" |}.

(** A frame whose one sale was stamped at half past ten, and the sale
    selector on the whole span of its sale dates. *)
Definition stamped_sale_df : DataFrame :=
  {| columns := all_columns;
     rows := [ {| DATA := Some (midnight (mkdate 2024 3 1)); DATA_DA_CALL := None;
                  DIA_DA_VENDA := Some half_past_ten;
                  SDR := "Ana"; CLOSER := "Bruno"; FUNIL := "Inbound";
                  STATUS := "Call Realizada"; VENDA_REALIZADA := "Ganho";
                  PRODUTO := Some "Curso"; VALOR_NUM := Fin 1000;
                  CICLO_DE_VENDAS := Fin 14 |} ] |}.

Definition stamped_sale_span : session :=
  {| agendamento_date := []; usar_filtro_venda := true;
     venda_date := [mkdate 2024 3 15; mkdate 2024 3 15];
     selected_produto := "Todos"; selected_funil := "Todos"; selected_status := "Todos" |}.

(** The sale selector on the whole span of the sale dates of [two_products]. *)
Definition whole_sale_span : session :=
  {| agendamento_date := []; usar_filtro_venda := true;
     venda_date := [mkdate 2024 3 10; mkdate 2024 3 10];
     selected_produto := "Todos"; selected_funil := "Todos"; selected_status := "Todos" |}.

(* ================================================================== *)
(** ** Characters that make an amount unreadable *)

(** A character that is neither one a number is written with, nor one the
    cleaning removes or rewrites, nor a letter of the spellings of NaN and
    infinity. *)
Definition stray_char (c : ascii) : bool :=
  negb (numeric_char c)
  && negb (existsb (Ascii.eqb c) (list_ascii_of_string "R$,"))
  && negb (existsb (Ascii.eqb (tolower_ascii c)) (list_ascii_of_string "nainfty+-")).

(* ================================================================== *)
(** ** Dates as the sheet writes them *)

Definition digit_char (n : Z) : ascii := ascii_of_nat (48 + Z.to_nat n).

(** A number in two, and in four, decimal digits. *)
Definition two_digits (n : Z) : string :=
  String (digit_char (n / 10)) (String (digit_char (n mod 10)) EmptyString).

Definition four_digits (n : Z) : string :=
  String (digit_char (n / 1000))
    (String (digit_char (n / 100 mod 10))
       (String (digit_char (n / 10 mod 10))
          (String (digit_char (n mod 10)) EmptyString))).

(** A date written [dd/mm/yyyy]. *)
Definition write_dmy (t : date) : string :=
  (two_digits (day t) ++ "/" ++ two_digits (month t) ++ "/" ++ four_digits (year t))%string.

(** A directive reads a number back from its digits, which hold no slash. *)
Definition reads_back (write : Z -> string) (read : string -> option Z) (n : Z) : bool :=
  match read (write n) with
  | Some m => (m =? n)%Z
  | None => false
  end
  && forallb (fun c => negb (Ascii.eqb c "/")) (list_ascii_of_string (write n)).

Definition Z_range (lo : Z) (len : nat) : list Z :=
  map (fun i => (lo + Z.of_nat i)%Z) (seq 0 len).

(* ================================================================== *)
(** * Properties *)

(* ================================================================== *)
(** * Field normaliser and record set builder *)

(** ** The normalisers on sample cells *)

Example valor_num_scenario : valor_num (Some "R$ 1.000,00") = Fin 1000.
Proof. vm_compute. reflexivity. Qed.
Example valor_num_cents : valor_num (Some "R$ 12.345,67") = Fin (1234567 # 100).
Proof. vm_compute. reflexivity. Qed.
Example valor_num_letters : valor_num (Some "a combinar") = Fin 0.
Proof. vm_compute. reflexivity. Qed.
Example valor_num_padded : valor_num None = Fin 0.
Proof. vm_compute. reflexivity. Qed.
Example to_numeric_exp : to_numeric (Some " 1.5e2 ") = Fin 150.
Proof. vm_compute. reflexivity. Qed.
Example to_numeric_inf : to_numeric (Some "-Inf") = NInf.
Proof. vm_compute. reflexivity. Qed.
Example to_numeric_dot : to_numeric (Some ".") = NaN.
Proof. vm_compute. reflexivity. Qed.
Example to_datetime_scenario (rt : runtime) (reading : timestamp) :
  to_datetime rt reading (Some "01/03/2024") = Some (midnight (mkdate 2024 3 1)).
Proof. vm_compute. reflexivity. Qed.
Example to_datetime_short (rt : runtime) (reading : timestamp) :
  to_datetime rt reading (Some "1/3/2024") = Some (midnight (mkdate 2024 3 1)).
Proof. vm_compute. reflexivity. Qed.
Example to_datetime_feb30 (rt : runtime) (reading : timestamp) :
  to_datetime rt reading (Some "30/02/2024") = None.
Proof. vm_compute. reflexivity. Qed.
Example to_datetime_iso (rt : runtime) (reading : timestamp) :
  to_datetime rt reading (Some "2024-03-01") = None.
Proof. vm_compute. reflexivity. Qed.
Example to_datetime_empty (rt : runtime) (reading : timestamp) :
  to_datetime rt reading (Some "") = None.
Proof. vm_compute. reflexivity. Qed.
Example load_data_scenario (rt : runtime) : load_data rt scenario_matrix = Some scenario_df.
Proof. vm_compute. reflexivity. Qed.
Example to_datetime_blank_day (rt : runtime) (reading : timestamp) :
  to_datetime rt reading (Some " 1/03/2024") = Some (midnight (mkdate 2024 3 1)).
Proof. vm_compute. reflexivity. Qed.
Example to_datetime_out_of_bounds (rt : runtime) (reading : timestamp) :
  to_datetime rt reading (Some "01/01/3000") = None.
Proof. vm_compute. reflexivity. Qed.
Example to_datetime_padded (rt : runtime) (reading : timestamp) :
  to_datetime rt reading None = None.
Proof. reflexivity. Qed.
Example to_datetime_now (rt : runtime) (reading : timestamp) :
  to_datetime rt reading (Some "now") = Some reading
  /\ to_datetime rt reading (Some "today") = Some reading
  /\ to_datetime rt reading (Some "Now") = None.
Proof. repeat split. Qed.
Example to_datetime_arabic_indic :
  to_datetime sample_run half_past_ten (Some ("1" ++ bytes [217; 163]%nat ++ "/03/2024")%string)
  = Some (midnight (mkdate 2024 3 13)).
Proof. vm_compute. reflexivity. Qed.
Example strip_both_sides : strip "  Call Realizada " = "Call Realizada".
Proof. vm_compute. reflexivity. Qed.
Example strip_beyond_ascii :
  strip (nbsp ++ " DATA" ++ ideographic_space)%string = "DATA".
Proof. vm_compute. reflexivity. Qed.
Example load_data_empty (rt : runtime) : load_data rt [] = None.
Proof. reflexivity. Qed.
Example load_data_short_rows (rt : runtime) :
  load_data rt [["DATA"; "SDR"; "STATUS"]; ["01/03/2024"; "Ana"]] = None.
Proof. reflexivity. Qed.
Example load_data_valor_num_twice (rt : runtime) :
  load_data rt [["VALOR"; "VALOR_NUM"; "VALOR_NUM"]; ["R$ 1,00"; "1"; "1"]] = None.
Proof. vm_compute. reflexivity. Qed.
Example load_data_same_name_once_trimmed (rt : runtime) :
  load_data rt [["DATA"; ("DATA" ++ nbsp)%string]; ["01/03/2024"; "02/03/2024"]] = None.
Proof. vm_compute. reflexivity. Qed.
Example round1_half_even :
  round1 (Fin (25 # 100)) = Fin (1 # 5) /\ round1 (Fin (35 # 100)) = Fin (2 # 5).
Proof. split; vm_compute; reflexivity. Qed.

(** ** Cleaning of currency cells *)

Lemma app_string_assoc (x y z : string) :
  ((x ++ y) ++ z = x ++ (y ++ z))%string.
Proof. induction x as [ | c x IH]; simpl; [ reflexivity | rewrite IH; reflexivity ]. Qed.

Lemma chars_app (a b : string) :
  list_ascii_of_string (a ++ b) = list_ascii_of_string a ++ list_ascii_of_string b.
Proof. induction a as [ | c a IH]; simpl; [ reflexivity | rewrite IH; reflexivity ]. Qed.

Lemma string_of_chars_app (a b : list ascii) :
  string_of_list_ascii (a ++ b)
  = (string_of_list_ascii a ++ string_of_list_ascii b)%string.
Proof. induction a as [ | c a IH]; simpl; [ reflexivity | rewrite IH; reflexivity ]. Qed.

Lemma append_empty_r (s : string) : (s ++ "")%string = s.
Proof. induction s as [ | c s IH]; simpl; [ reflexivity | rewrite IH; reflexivity ]. Qed.

Lemma length_append (a b : string) :
  String.length (a ++ b) = (String.length a + String.length b)%nat.
Proof. induction a as [ | c a IH]; simpl; [ reflexivity | rewrite IH; reflexivity ]. Qed.

Lemma lacks_cons p c s : lacks p (String c s) <-> c <> p /\ lacks p s.
Proof.
  unfold lacks. simpl. split.
  - intros H. inversion H; subst. auto.
  - intros [H1 H2]. constructor; assumption.
Qed.

Lemma lacks_app p (x y : string) : lacks p x -> lacks p y -> lacks p (x ++ y)%string.
Proof.
  induction x as [ | c x IH]; simpl; intros Hx Hy; [ exact Hy | ].
  rewrite lacks_cons in *. destruct Hx as [Hc Hx]. auto.
Qed.

Lemma digits_lack p w : isdigit_ascii p = false -> all_digits w -> lacks p w.
Proof.
  intros Hp. unfold all_digits, lacks. apply Forall_impl.
  intros c Hc E. subst c. congruence.
Qed.

(** A pattern whose first character does not occur is never found. *)
Lemma replace_lacking p pat rep s :
  lacks p s -> str_replace (String p pat) rep s = s.
Proof.
  unfold str_replace. induction s as [ | c s IH]; intros H; [ reflexivity | ].
  rewrite lacks_cons in H. destruct H as [Hc Hs].
  cbn [replace_from prefix].
  destruct (ascii_dec p c) as [E | _]; [ congruence | ].
  rewrite (IH Hs). reflexivity.
Qed.

Lemma prefix_empty (s : string) : prefix "" s = true.
Proof. destruct s; reflexivity. Qed.

(** Replacing one character works through a concatenation piece by piece. *)
Lemma replace_char_app p rep (x y : string) :
  (str_replace (String p "") rep (x ++ y)
   = str_replace (String p "") rep x ++ str_replace (String p "") rep y)%string.
Proof.
  unfold str_replace. induction x as [ | c x IH]; [ reflexivity | ].
  change (String c x ++ y)%string with (String c (x ++ y)).
  cbn [replace_from prefix String.length Nat.sub].
  rewrite !prefix_empty.
  destruct (ascii_dec p c) as [_ | _].
  - rewrite IH, app_string_assoc. reflexivity.
  - rewrite IH. reflexivity.
Qed.

(** The currency prefix at the head of a text is removed. *)
Lemma replace_prefix_found (rest : string) :
  str_replace "R$ " "" ("R$ " ++ rest) = str_replace "R$ " "" rest.
Proof.
  unfold str_replace.
  change ("R$ " ++ rest)%string with (String "R" (String "$" (String " " rest))).
  cbn [replace_from prefix String.length Nat.sub].
  destruct (ascii_dec "R" "R") as [_ | N]; [ | congruence ].
  destruct (ascii_dec "$" "$") as [_ | N]; [ | congruence ].
  destruct (ascii_dec " " " ") as [_ | N]; [ | congruence ].
  rewrite prefix_empty. reflexivity.
Qed.

Lemma lacks_concat p sep (gs : list string) :
  lacks p sep -> Forall (lacks p) gs -> lacks p (String.concat sep gs).
Proof.
  intros Hsep H. induction H as [ | x l Hx Hl IH]; [ constructor | ].
  destruct l as [ | y l]; [ exact Hx | ].
  change (String.concat sep (x :: y :: l))
    with (x ++ sep ++ String.concat sep (y :: l))%string.
  apply lacks_app; [ exact Hx | ]. apply lacks_app; [ exact Hsep | exact IH ].
Qed.

Lemma digit_groups_lack p (gs : list string) :
  isdigit_ascii p = false -> Forall all_digits gs -> Forall (lacks p) gs.
Proof.
  intros Hp. apply Forall_impl. intros w. apply digits_lack. exact Hp.
Qed.

(** Removing the separator of a joined list joins it with nothing. *)
Lemma replace_separator p (gs : list string) :
  Forall (lacks p) gs ->
  str_replace (String p "") "" (String.concat (String p "") gs) = String.concat "" gs.
Proof.
  intros H. induction H as [ | x l Hx Hl IH]; [ reflexivity | ].
  destruct l as [ | y l]; [ apply replace_lacking; exact Hx | ].
  change (String.concat (String p "") (x :: y :: l))
    with (x ++ String p "" ++ String.concat (String p "") (y :: l))%string.
  change (String.concat "" (x :: y :: l))
    with (x ++ "" ++ String.concat "" (y :: l))%string.
  rewrite !replace_char_app, IH, (replace_lacking p "" "" x Hx).
  f_equal. f_equal. unfold str_replace. cbn [replace_from prefix].
  destruct (ascii_dec p p) as [_ | N]; [ reflexivity | congruence ].
Qed.

(** An amount written with the prefix, any number of thousands groups and a
    decimal comma. *)
Lemma clean_valor_formatted (gs : list string) (c : string) :
  Forall all_digits gs -> all_digits c ->
  clean_valor ("R$ " ++ String.concat "." gs ++ "," ++ c)
  = (String.concat "" gs ++ "." ++ c)%string.
Proof.
  intros Hgs Hc. unfold clean_valor.
  assert (H1 : str_replace "R$ " "" ("R$ " ++ String.concat "." gs ++ "," ++ c)
               = (String.concat "." gs ++ "," ++ c)%string).
  { rewrite replace_prefix_found. apply replace_lacking.
    apply lacks_app;
      [ apply lacks_concat;
        [ repeat constructor; discriminate | apply digit_groups_lack; auto ] | ].
    apply lacks_app; [ repeat constructor; discriminate | ].
    apply digits_lack; [ reflexivity | assumption ]. }
  rewrite H1.
  assert (H2 : str_replace "." "" (String.concat "." gs ++ "," ++ c)
               = (String.concat "" gs ++ "," ++ c)%string).
  { rewrite !replace_char_app.
    rewrite (replace_separator "."%char gs) by (apply digit_groups_lack; auto).
    rewrite (replace_lacking "."%char "" "" c)
      by (apply digits_lack; [ reflexivity | assumption ]).
    reflexivity. }
  rewrite H2.
  assert (H3 : str_replace "," "." (String.concat "" gs ++ "," ++ c)
               = (String.concat "" gs ++ "." ++ c)%string).
  { rewrite !replace_char_app.
    rewrite (replace_lacking ","%char "" "." (String.concat "" gs))
      by (apply lacks_concat; [ constructor | apply digit_groups_lack; auto ]).
    rewrite (replace_lacking ","%char "" "." c)
      by (apply digits_lack; [ reflexivity | assumption ]).
    reflexivity. }
  rewrite H3.
  destruct (String.concat "" gs); reflexivity.
Qed.

(** ** What numeric coercion can read *)

Lemma skip_spaces_split (s : string) :
  exists pre, list_ascii_of_string s = pre ++ list_ascii_of_string (skip_spaces s)
              /\ Forall (fun c => numeric_char c = true) pre.
Proof.
  induction s as [ | c s [pre [E H]]]; simpl.
  - exists []. auto.
  - destruct (isspace_ascii c) eqn:Hc.
    + exists (c :: pre). simpl. rewrite E. split; [ reflexivity | ].
      constructor; [ unfold numeric_char; rewrite Hc; reflexivity | exact H ].
    + exists []. auto.
Qed.

Lemma scan_sign_split (s r : string) (b : bool) :
  scan_sign s = (b, r) ->
  exists pre, list_ascii_of_string s = pre ++ list_ascii_of_string r /\ Forall (fun c => numeric_char c = true) pre.
Proof.
  unfold scan_sign. destruct s as [ | c s]; [ intros H; injection H as _ <-; exists []; auto | ].
  destruct (Ascii.eqb_spec c "-") as [-> | Hm].
  - intros H. injection H as _ <-. exists ["-"%char]. split; [ reflexivity | ].
    repeat constructor.
  - destruct (Ascii.eqb_spec c "+") as [-> | Hp].
    + intros H. injection H as _ <-. exists ["+"%char]. split; [ reflexivity | ].
      repeat constructor.
    + assert (E : match c with
                  | "-"%char => (true, s)
                  | "+"%char => (false, s)
                  | _ => (false, String c s)
                  end = (false, String c s)).
      { destruct c as [[ | ] [ | ] [ | ] [ | ] [ | ] [ | ] [ | ] [ | ]];
          try reflexivity; congruence. }
      rewrite E. intros H. injection H as _ <-. exists []. auto.
Qed.

Lemma scan_digits_split (s r : string) (acc v : Z) (n k : nat) :
  scan_digits s acc n = (v, k, r) ->
  exists pre, list_ascii_of_string s = pre ++ list_ascii_of_string r /\ Forall (fun c => numeric_char c = true) pre.
Proof.
  revert acc n. induction s as [ | c s IH]; intros acc n; simpl.
  - intros H. injection H as _ _ <-. exists []. auto.
  - destruct (isdigit_ascii c) eqn:Hc.
    + intros H. destruct (IH _ _ H) as [pre [E Hpre]].
      exists (c :: pre). simpl. rewrite E. split; [ reflexivity | ].
      constructor; [ | exact Hpre ].
      unfold numeric_char. rewrite Hc, orb_true_r. reflexivity.
    + intros H. injection H as _ _ <-. exists []. auto.
Qed.

Lemma skip_spaces_all (s : string) :
  skip_spaces s = "" -> Forall (fun c => numeric_char c = true) (list_ascii_of_string s).
Proof.
  intros H. destruct (skip_spaces_split s) as [pre [E Hpre]].
  rewrite H in E. simpl in E. rewrite app_nil_r in E. rewrite E. exact Hpre.
Qed.

Ltac glue E H :=
  rewrite E; apply Forall_app; split; [ exact H | ].

Ltac case_if H :=
  match type of H with
  | context [if ?b then _ else _] => destruct b eqn:?; try discriminate H
  end.

(** The optional fraction: a point and a run of digits. *)
Lemma scan_fraction_split (p r : string) (number v : Z) (num_digits k : nat) :
  match p with
  | String "."%char p' => scan_digits p' number num_digits
  | _ => (number, num_digits, p)
  end = (v, k, r) ->
  exists pre, list_ascii_of_string p = pre ++ list_ascii_of_string r
              /\ Forall (fun c => numeric_char c = true) pre.
Proof.
  destruct p as [ | c p'];
    [ intros H; injection H as _ _ <-; exists []; auto | ].
  destruct (Ascii.eqb_spec c ".") as [-> | Hc].
  - intros H. destruct (scan_digits_split _ _ _ _ _ _ H) as [pre [E Hpre]].
    exists ("."%char :: pre). simpl. rewrite E. split; [ reflexivity | ].
    constructor; [ reflexivity | exact Hpre ].
  - assert (E : match c with
                | "."%char => scan_digits p' number num_digits
                | _ => (number, num_digits, String c p')
                end = (number, num_digits, String c p')).
    { destruct c as [[ | ] [ | ] [ | ] [ | ] [ | ] [ | ] [ | ] [ | ]];
        try reflexivity; congruence. }
    rewrite E. intros H. injection H as _ _ <-. exists []. auto.
Qed.

Lemma exponent_mark (c : ascii) :
  Ascii.eqb (tolower_ascii c) "e" = true -> numeric_char c = true.
Proof.
  intros He. apply Ascii.eqb_eq in He. unfold tolower_ascii in He.
  destruct ((65 <=? code c)%nat && (code c <=? 90)%nat) eqn:Hup.
  - assert (Hc : c = "E"%char).
    { destruct c as [[ | ] [ | ] [ | ] [ | ] [ | ] [ | ] [ | ] [ | ]];
        try reflexivity; try discriminate Hup; discriminate He. }
    subst c. reflexivity.
  - subst c. reflexivity.
Qed.

(** A text that [to_double] reads is written with numeric characters only. *)
Lemma to_double_chars (s : string) (q : Q) :
  to_double s = Some q ->
  Forall (fun c => numeric_char c = true) (list_ascii_of_string s).
Proof.
  intros H. unfold to_double in H.
  destruct (skip_spaces_split s) as [p0 [E0 H0]]. glue E0 H0.
  destruct (scan_sign (skip_spaces s)) as [negative p1] eqn:S1.
  destruct (scan_sign_split _ _ _ S1) as [p1' [E1 H1]]. glue E1 H1.
  destruct (scan_digits p1 0 0) as [[number num_digits] p2] eqn:S2.
  destruct (scan_digits_split _ _ _ _ _ _ S2) as [p2' [E2 H2]]. glue E2 H2.
  destruct (match p2 with
            | String "."%char p' => scan_digits p' number num_digits
            | _ => (number, num_digits, p2)
            end) as [[number' num_all] p3] eqn:S3.
  destruct (scan_fraction_split _ _ _ _ _ _ S3) as [p3' [E3 H3]]. glue E3 H3.
  destruct (num_all =? 0)%nat; [ discriminate H | ].
  destruct p3 as [ | c p4].
  - constructor.
  - destruct (Ascii.eqb (tolower_ascii c) "e") eqn:He.
    + destruct (scan_sign p4) as [eneg p5] eqn:S5.
      destruct (scan_sign_split _ _ _ S5) as [p5' [E5 H5]].
      destruct (scan_digits p5 0 0) as [[n k] p6] eqn:S6.
      destruct (scan_digits_split _ _ _ _ _ _ S6) as [p6' [E6 H6]].
      destruct (k =? 0)%nat; [ discriminate H | ].
      destruct (17 <? k)%nat; [ discriminate H | ].
      case_if H. case_if H.
      destruct (skip_spaces p6) eqn:S7; [ | discriminate H ].
      simpl. constructor; [ exact (exponent_mark c He) | ].
      rewrite E5. apply Forall_app. split; [ exact H5 | ].
      rewrite E6. apply Forall_app. split; [ exact H6 | ].
      apply skip_spaces_all. exact S7.
    + case_if H. case_if H.
      destruct (skip_spaces (String c p4)) eqn:S7; [ | discriminate H ].
      apply skip_spaces_all. exact S7.
Qed.

(** A cleaned cell with a character no number is written with never gives a
    finite amount other than 0. *)
Lemma valor_num_not_numeric (s : string) (c : ascii) :
  In c (list_ascii_of_string (clean_valor s)) -> numeric_char c = false ->
  valor_num (Some s) = Fin 0 \/ valor_num (Some s) = PInf \/ valor_num (Some s) = NInf.
Proof.
  intros Hin Hc. unfold valor_num, astype_str, to_numeric, floatify.
  destruct (to_double (clean_valor s)) as [q | ] eqn:E.
  - apply to_double_chars in E. rewrite Forall_forall in E.
    specialize (E c Hin). congruence.
  - destruct (lower (clean_valor s) =? "nan"); [ auto | ].
    destruct (_ || _); [ auto | ].
    destruct (_ || _); auto.
Qed.

(** ** Numbers as numeric coercion reads them *)

Lemma skip_spaces_spec (s : string) :
  exists b, spaces b /\ s = (b ++ skip_spaces s)%string.
Proof.
  induction s as [ | c s [b [Hb E]]]; simpl.
  - exists ""%string. split; [ constructor | reflexivity ].
  - destruct (isspace_ascii c) eqn:Hc.
    + exists (String c b). split; [ constructor; assumption | ].
      simpl. rewrite <- E. reflexivity.
    + exists ""%string. split; [ constructor | reflexivity ].
Qed.

Lemma skip_spaces_empty (s : string) : skip_spaces s = "" -> spaces s.
Proof.
  intros H. destruct (skip_spaces_spec s) as [b [Hb E]].
  rewrite H, append_empty_r in E. rewrite E. exact Hb.
Qed.

Lemma scan_sign_spec (s r : string) (b : bool) :
  scan_sign s = (b, r) -> exists sg, sign_text sg /\ s = (sg ++ r)%string.
Proof.
  unfold scan_sign, sign_text.
  destruct s as [ | c s]; [ intros H; injection H as _ <-; exists ""%string; auto | ].
  destruct (Ascii.eqb_spec c "-") as [-> | Hm].
  - intros H. injection H as _ <-. exists "-"%string. auto.
  - destruct (Ascii.eqb_spec c "+") as [-> | Hp].
    + intros H. injection H as _ <-. exists "+"%string. auto.
    + assert (E : match c with
                  | "-"%char => (true, s)
                  | "+"%char => (false, s)
                  | _ => (false, String c s)
                  end = (false, String c s)).
      { destruct c as [[ | ] [ | ] [ | ] [ | ] [ | ] [ | ] [ | ] [ | ]];
          try reflexivity; congruence. }
      rewrite E. intros H. injection H as _ <-. exists ""%string. auto.
Qed.

Lemma scan_digits_spec (s r : string) (acc v : Z) (n k : nat) :
  scan_digits s acc n = (v, k, r) ->
  exists ds, all_digits ds /\ s = (ds ++ r)%string /\ k = (n + String.length ds)%nat.
Proof.
  revert acc n. induction s as [ | c s IH]; intros acc n; simpl.
  - intros H. injection H as _ <- <-. exists ""%string.
    split; [ constructor | ]. split; [ reflexivity | simpl; lia ].
  - destruct (isdigit_ascii c) eqn:Hc.
    + intros H. destruct (IH _ _ H) as [ds [Hds [E K]]].
      exists (String c ds). split; [ constructor; assumption | ].
      split; [ simpl; rewrite <- E; reflexivity | simpl; lia ].
    + intros H. injection H as _ <- <-. exists ""%string.
      split; [ constructor | ]. split; [ reflexivity | simpl; lia ].
Qed.

Lemma scan_fraction_spec (p r : string) (number v : Z) (num_digits k : nat) :
  match p with
  | String "."%char p' => scan_digits p' number num_digits
  | _ => (number, num_digits, p)
  end = (v, k, r) ->
  (p = r /\ k = num_digits)
  \/ exists f, all_digits f /\ p = ("." ++ f ++ r)%string
               /\ k = (num_digits + String.length f)%nat.
Proof.
  destruct p as [ | c p'];
    [ intros H; injection H as _ <- <-; left; auto | ].
  destruct (Ascii.eqb_spec c ".") as [-> | Hc].
  - intros H. destruct (scan_digits_spec _ _ _ _ _ _ H) as [f [Hf [E K]]].
    right. exists f. split; [ exact Hf | ]. split; [ rewrite E; reflexivity | exact K ].
  - assert (E : match c with
                | "."%char => scan_digits p' number num_digits
                | _ => (number, num_digits, String c p')
                end = (number, num_digits, String c p')).
    { destruct c as [[ | ] [ | ] [ | ] [ | ] [ | ] [ | ] [ | ] [ | ]];
        try reflexivity; congruence. }
    rewrite E. intros H. injection H as _ <- <-. left. auto.
Qed.

Lemma empty_length (w : string) : String.length w <> 0%nat -> w <> ""%string.
Proof. intros H ->. apply H. reflexivity. Qed.

Lemma exponent_letter (c : ascii) :
  Ascii.eqb (tolower_ascii c) "e" = true -> c = "e"%char \/ c = "E"%char.
Proof.
  intros He. apply Ascii.eqb_eq in He.
  destruct c as [[ | ] [ | ] [ | ] [ | ] [ | ] [ | ] [ | ] [ | ]];
    try discriminate He; auto.
Qed.

(** Whatever [to_double] reads is a number written in decimal or scientific
    notation. *)
Lemma to_double_numeral (s : string) (q : Q) :
  to_double s = Some q -> numeral_text s.
Proof.
  intros H. unfold to_double in H.
  destruct (skip_spaces_spec s) as [b1 [Hb1 E0]].
  destruct (scan_sign (skip_spaces s)) as [negative p1] eqn:S1.
  destruct (scan_sign_spec _ _ _ S1) as [sg [Hsg E1]].
  destruct (scan_digits p1 0 0) as [[number num_digits] p2] eqn:S2.
  destruct (scan_digits_spec _ _ _ _ _ _ S2) as [ip [Hip [E2 K2]]].
  destruct (match p2 with
            | String "."%char p' => scan_digits p' number num_digits
            | _ => (number, num_digits, p2)
            end) as [[number' num_all] p3] eqn:S3.
  apply scan_fraction_spec in S3.
  destruct (num_all =? 0)%nat eqn:Hall; [ discriminate H | ].
  apply Nat.eqb_neq in Hall.
  assert (Hm : exists m, mantissa_text m /\ p1 = (m ++ p3)%string).
  { destruct S3 as [[E3 K3] | [f [Hf [E3 K3]]]].
    - exists ip. split; [ | congruence ].
      exists ip, ""%string. split; [ exact Hip | ]. split; [ constructor | ].
      left. split; [ reflexivity | ]. apply empty_length. simpl in K2. lia.
    - exists (ip ++ "." ++ f)%string. split.
      + exists ip, f. split; [ exact Hip | ]. split; [ exact Hf | ].
        right. split; [ reflexivity | ].
        destruct (String.length ip) eqn:Li;
          [ right; apply empty_length; simpl in K2; lia
          | left; apply empty_length; lia ].
      + rewrite E2, E3, !app_string_assoc. reflexivity. }
  destruct Hm as [m [Hm Em]].
  assert (Hx : exists ex b2, exponent_text ex /\ spaces b2 /\ p3 = (ex ++ b2)%string).
  { destruct p3 as [ | c p4].
    - exists ""%string, ""%string. split; [ left; reflexivity | ].
      split; [ constructor | reflexivity ].
    - destruct (Ascii.eqb (tolower_ascii c) "e") eqn:He.
      + destruct (scan_sign p4) as [eneg p5] eqn:S5.
        destruct (scan_sign_spec _ _ _ S5) as [sg' [Hsg' E5]].
        destruct (scan_digits p5 0 0) as [[n k] p6] eqn:S6.
        destruct (scan_digits_spec _ _ _ _ _ _ S6) as [ds [Hds [E6 K6]]].
        destruct (k =? 0)%nat eqn:Hk; [ discriminate H | ].
        apply Nat.eqb_neq in Hk.
        destruct (17 <? k)%nat; [ discriminate H | ].
        case_if H. case_if H.
        destruct (skip_spaces p6) eqn:S7; [ | discriminate H ].
        exists (String c "" ++ sg' ++ ds)%string, p6.
        split; [ | split; [ apply skip_spaces_empty; exact S7 | ] ].
        * right. exists (String c ""), sg', ds.
          split; [ destruct (exponent_letter c He) as [-> | ->]; auto | ].
          split; [ exact Hsg' | ]. split; [ exact Hds | ].
          split; [ apply empty_length; simpl in K6; lia | reflexivity ].
        * rewrite E5, E6, !app_string_assoc. reflexivity.
      + case_if H. case_if H.
        destruct (skip_spaces (String c p4)) eqn:S7; [ | discriminate H ].
        exists ""%string, (String c p4).
        split; [ left; reflexivity | ].
        split; [ apply skip_spaces_empty; exact S7 | reflexivity ]. }
  destruct Hx as [ex [b2 [Hex [Hb2 Ex]]]].
  exists b1, sg, m, ex, b2. repeat (split; [ assumption | ]).
  rewrite E0 at 1. rewrite E1, Em, Ex. reflexivity.
Qed.

Lemma spaces_numeric (w : string) :
  spaces w -> Forall (fun c => numeric_char c = true) (list_ascii_of_string w).
Proof.
  apply Forall_impl. intros c Hc. unfold numeric_char. rewrite Hc. reflexivity.
Qed.

Lemma digits_numeric (w : string) :
  all_digits w -> Forall (fun c => numeric_char c = true) (list_ascii_of_string w).
Proof.
  apply Forall_impl. intros c Hc. unfold numeric_char. rewrite Hc, orb_true_r. reflexivity.
Qed.

Lemma sign_numeric (w : string) :
  sign_text w -> Forall (fun c => numeric_char c = true) (list_ascii_of_string w).
Proof. intros [-> | [-> | ->]]; repeat constructor. Qed.

Ltac numeric_pieces :=
  repeat (rewrite chars_app; apply Forall_app; split);
  try (apply spaces_numeric; assumption);
  try (apply digits_numeric; assumption);
  try (apply sign_numeric; assumption);
  try (repeat constructor).

(** A number is written with numeric characters only. *)
Lemma numeral_text_chars (s : string) :
  numeral_text s -> Forall (fun c => numeric_char c = true) (list_ascii_of_string s).
Proof.
  intros [b1 [sg [m [ex [b2 [Hb1 [Hsg [Hm [Hex [Hb2 ->]]]]]]]]]].
  destruct Hm as [i [f [Hi [Hf [[-> _] | [-> _]]]]]];
    (destruct Hex as [-> | [e [sg' [ds [[-> | ->] [Hsg' [Hds [_ ->]]]]]]]]);
    numeric_pieces.
Qed.

Lemma lower_app (a b : string) : lower (a ++ b) = (lower a ++ lower b)%string.
Proof. induction a as [ | c a IH]; simpl; [ reflexivity | rewrite IH; reflexivity ]. Qed.

(** In lower case, a spelling of infinity is one of six words. *)
Lemma infinity_text_lower (s : string) : infinity_text s -> In (lower s) infinity_words.
Proof.
  intros [sg [w [Hsg [Hw ->]]]]. rewrite lower_app.
  destruct Hsg as [-> | [-> | ->]]; destruct Hw as [-> | ->]; simpl; tauto.
Qed.

Lemma lower_numeric (s : string) :
  Forall (fun c => numeric_char c = true) (list_ascii_of_string s) ->
  Forall (fun c => numeric_char c = true) (list_ascii_of_string (lower s)).
Proof.
  induction s as [ | c s IH]; simpl; intros H; [ constructor | ].
  inversion H as [ | ? ? Hc Hs]; subst. constructor; [ | exact (IH Hs) ].
  destruct c as [[ | ] [ | ] [ | ] [ | ] [ | ] [ | ] [ | ] [ | ]];
    try discriminate Hc; reflexivity.
Qed.

(** No spelling of infinity is a number. *)
Lemma infinity_is_no_numeral (s : string) : infinity_text s -> ~ numeral_text s.
Proof.
  intros Hi Hn. apply infinity_text_lower in Hi.
  apply numeral_text_chars, lower_numeric in Hn. rewrite Forall_forall in Hn.
  assert (Hc : In "n"%char (list_ascii_of_string (lower s))).
  { unfold infinity_words in Hi. simpl in Hi.
    repeat (destruct Hi as [<- | Hi]; [ simpl; tauto | ]). contradiction. }
  specialize (Hn _ Hc). discriminate Hn.
Qed.

(** A spelling of infinity is given an infinite amount. *)
Lemma valor_num_infinity (s : string) :
  infinity_text (clean_valor s) ->
  valor_num (Some s) = PInf \/ valor_num (Some s) = NInf.
Proof.
  intros Hi. unfold valor_num, astype_str, to_numeric, floatify.
  destruct (to_double (clean_valor s)) as [q | ] eqn:E.
  - apply to_double_numeral in E. destruct (infinity_is_no_numeral _ Hi E).
  - apply infinity_text_lower in Hi. cbv zeta. unfold infinity_words in Hi. simpl in Hi.
    repeat (destruct Hi as [<- | Hi]; [ simpl; auto | ]). contradiction.
Qed.

Lemma lower_signed (t w : string) (c : ascii) :
  lower t = String c w -> c = "+"%char \/ c = "-"%char ->
  exists w', t = String c w' /\ lower w' = w.
Proof.
  destruct t as [ | a t]; simpl; intros H Hc; [ discriminate H | ].
  injection H as Ha Hw. exists t. split; [ | exact Hw ]. f_equal.
  destruct Hc as [-> | ->];
    destruct a as [[ | ] [ | ] [ | ] [ | ] [ | ] [ | ] [ | ] [ | ]];
    try discriminate Ha; reflexivity.
Qed.

(** Conversely, a text that is one of the six words in lower case is a
    spelling of infinity. *)
Lemma infinity_words_text (t : string) : In (lower t) infinity_words -> infinity_text t.
Proof.
  unfold infinity_words, infinity_text, sign_text. simpl. intros H.
  destruct H as [H | [H | [H | [H | [H | [H | []]]]]]]; symmetry in H.
  - exists ""%string, t. auto.
  - destruct (lower_signed _ _ _ H) as [w' [-> Hw]]; [ auto | ].
    exists "+"%string, w'. auto.
  - destruct (lower_signed _ _ _ H) as [w' [-> Hw]]; [ auto | ].
    exists "-"%string, w'. auto.
  - exists ""%string, t. auto.
  - destruct (lower_signed _ _ _ H) as [w' [-> Hw]]; [ auto | ].
    exists "+"%string, w'. auto.
  - destruct (lower_signed _ _ _ H) as [w' [-> Hw]]; [ auto | ].
    exists "-"%string, w'. auto.
Qed.

(** A cleaned text that is neither a number nor a spelling of infinity is
    given the amount 0. *)
Lemma valor_num_unread (s : string) :
  ~ numeral_text (clean_valor s) -> ~ infinity_text (clean_valor s) ->
  valor_num (Some s) = Fin 0.
Proof.
  intros Hn Hi. unfold valor_num, astype_str, to_numeric, floatify.
  destruct (to_double (clean_valor s)) as [q | ] eqn:E.
  - apply to_double_numeral in E. contradiction.
  - cbv zeta.
    assert (Hw : forall w, In w infinity_words ->
                           String.eqb (lower (clean_valor s)) w = false).
    { intros w Hw. apply String.eqb_neq. intros E'.
      apply Hi, infinity_words_text. rewrite E'. exact Hw. }
    destruct (lower (clean_valor s) =? "nan")%string; [ reflexivity | ].
    rewrite (Hw "inf"), (Hw "+inf"), (Hw "infinity"), (Hw "+infinity"),
      (Hw "-inf"), (Hw "-infinity") by (simpl; tauto).
    reflexivity.
Qed.

(** C5, as the specification words it, fails: the cell [inf] is no number,
    yet it is not given the amount 0; numeric coercion reads it as an
    infinity, which [fillna] keeps. *)
Lemma C5_infinity_is_not_zeroed : ~ unparseable_amounts_are_zero.
Proof.
  intros H. specialize (H "inf"%string).
  assert (Hn : ~ numeral_text (clean_valor "inf")).
  { apply infinity_is_no_numeral. exists ""%string, "inf"%string.
    split; [ left; reflexivity | ]. split; [ left; reflexivity | reflexivity ]. }
  specialize (H (or_intror Hn)). vm_compute in H. discriminate H.
Qed.

(** C5, amended. A currency cell that is empty, or that once cleaned is
    neither a number in decimal or scientific notation nor a spelling of
    infinity, has
    the amount 0, and so has a cell missing from a short row; a spelling of
    infinity has an infinite amount.  Cleaning removes the prefix [R$ ] and
    every thousands separator and turns the decimal comma into a point. *)
Theorem C5_amount_of_empty_or_unparseable (s : string) (gs : list string) (c : string) :
  s = "" \/ (~ numeral_text (clean_valor s) /\ ~ infinity_text (clean_valor s)) ->
  Forall all_digits gs -> all_digits c ->
  valor_num (Some s) = Fin 0
  /\ valor_num None = Fin 0
  /\ (forall t, infinity_text (clean_valor t) ->
                valor_num (Some t) = PInf \/ valor_num (Some t) = NInf)
  /\ clean_valor ("R$ " ++ String.concat "." gs ++ "," ++ c)
     = (String.concat "" gs ++ "." ++ c)%string.
Proof.
  intros Hs Hgs Hc. split; [ | split; [ | split ] ].
  - destruct Hs as [-> | [Hn Hi]].
    + vm_compute. reflexivity.
    + apply valor_num_unread; assumption.
  - vm_compute. reflexivity.
  - exact valor_num_infinity.
  - apply clean_valor_formatted; assumption.
Qed.

Lemma C5_amount_witness :
  ("a combinar" = "" \/ (~ numeral_text (clean_valor "a combinar")
                         /\ ~ infinity_text (clean_valor "a combinar")))
  /\ valor_num (Some "a combinar") = Fin 0
  /\ clean_valor "R$ 1.250.000,50" = "1250000.50".
Proof.
  assert (H : "a combinar" = ""
              \/ (~ numeral_text (clean_valor "a combinar")
                  /\ ~ infinity_text (clean_valor "a combinar"))).
  { right. split.
    - intros Hn. apply numeral_text_chars in Hn. vm_compute in Hn.
      inversion Hn as [ | ? ? Ha _]. discriminate Ha.
    - intros Hi. apply infinity_text_lower in Hi. vm_compute in Hi.
      repeat (destruct Hi as [Hi | Hi]; [ discriminate Hi | ]). exact Hi. }
  assert (Hgs : Forall all_digits ["1"; "250"; "000"]%string)
    by (repeat constructor).
  assert (Hc : all_digits "50") by (repeat constructor).
  split; [ exact H | ].
  destruct (C5_amount_of_empty_or_unparseable "a combinar" ["1"; "250"; "000"]%string "50"
              H Hgs Hc) as [H1 [_ [_ H2]]].
  split; [ exact H1 | exact H2 ].
Defined.

(** ** Date cells *)

Lemma split_on_nonempty sep s : split_on sep s <> [].
Proof.
  destruct s as [ | c s]; simpl; [ discriminate | ].
  destruct (Ascii.eqb c sep); [ discriminate | ].
  destruct (split_on sep s); discriminate.
Qed.

(** Joining the pieces with the separator gives the text back. *)
Lemma split_on_concat sep s :
  String.concat (String sep "") (split_on sep s) = s.
Proof.
  induction s as [ | c s IH]; [ reflexivity | ].
  simpl split_on. pose proof (split_on_nonempty sep s) as Hne.
  destruct (Ascii.eqb_spec c sep) as [-> | Hc].
  - destruct (split_on sep s) as [ | w ws]; [ contradiction | ].
    cbn [String.concat] in *. rewrite IH. reflexivity.
  - destruct (split_on sep s) as [ | w ws]; [ contradiction | ].
    destruct ws as [ | w' ws]; cbn [String.concat append] in *; rewrite IH; reflexivity.
Qed.

Lemma split_on_lacking sep (y : string) : lacks sep y -> split_on sep y = [y].
Proof.
  induction y as [ | c y IH]; intros H; [ reflexivity | ].
  rewrite lacks_cons in H. destruct H as [Hc Hy].
  simpl. destruct (Ascii.eqb_spec c sep) as [E | _]; [ contradiction | ].
  rewrite (IH Hy). reflexivity.
Qed.

Lemma split_on_app sep (x y : string) :
  lacks sep x -> split_on sep (x ++ String sep y) = x :: split_on sep y.
Proof.
  induction x as [ | c x IH]; intros H.
  - simpl. rewrite Ascii.eqb_refl. reflexivity.
  - rewrite lacks_cons in H. destruct H as [Hc Hx].
    simpl. destruct (Ascii.eqb_spec c sep) as [E | _]; [ contradiction | ].
    rewrite (IH Hx). reflexivity.
Qed.

Lemma nonzero_digit_is_digit c : nonzero_digit c = true -> isdigit_ascii c = true.
Proof. unfold nonzero_digit. rewrite andb_true_iff. tauto. Qed.

(** *** Characters *)

Lemma beyond_ascii_single (c : ascii) : beyond_ascii (String c "") = false.
Proof. destruct c as [[] [] [] [] [] [] [] []]; reflexivity. Qed.

Lemma isdigit_width (c : ascii) : isdigit_ascii c = true -> utf8_width c = 1%nat.
Proof. destruct c as [[] [] [] [] [] [] [] []]; simpl; intros H; try discriminate H; reflexivity. Qed.

Lemma digit_sound (rt : runtime) (w : string) (v : Z) :
  digit rt w = Some v -> digit_text rt w v.
Proof.
  unfold digit. destruct w as [ | c [ | c' w']].
  - simpl. discriminate.
  - destruct (isdigit_ascii c) eqn:E; [ | discriminate ].
    intros H. injection H as <-. constructor. exact E.
  - destruct (beyond_ascii (String c (String c' w'))) eqn:E; [ | discriminate ].
    intros H. apply other_digit; assumption.
Qed.

Lemma digit_complete (rt : runtime) (w : string) (v : Z) :
  digit_text rt w v -> digit rt w = Some v.
Proof.
  intros [c Hc | w' v' Hb Hd]; unfold digit.
  - rewrite Hc. reflexivity.
  - destruct w' as [ | c [ | c' w'']].
    + discriminate Hb.
    + rewrite beyond_ascii_single in Hb. discriminate Hb.
    + rewrite Hb. exact Hd.
Qed.

(** A digit is one character: as many bytes as its first byte announces. *)
Lemma digit_text_width (rt : runtime) (w : string) (v : Z) :
  digit_text rt w v ->
  exists c w', w = String c w' /\ String.length w = utf8_width c.
Proof.
  intros [c Hc | w' v' Hb Hd].
  - exists c, ""%string. split; [ reflexivity | ]. rewrite (isdigit_width c Hc). reflexivity.
  - destruct w' as [ | c w'']; [ discriminate Hb | ].
    exists c, w''. split; [ reflexivity | ].
    unfold beyond_ascii in Hb. rewrite !andb_true_iff in Hb.
    destruct Hb as [[_ Hl] _]. apply Nat.eqb_eq in Hl. exact Hl.
Qed.

Lemma continuation_lacks (p : ascii) (w : string) :
  continuation p = false ->
  forallb continuation (list_ascii_of_string w) = true -> lacks p w.
Proof.
  intros Hp. induction w as [ | c w IH]; simpl; intros H.
  - constructor.
  - apply andb_true_iff in H. destruct H as [Hc Hw].
    rewrite lacks_cons. split; [ intros ->; congruence | exact (IH Hw) ].
Qed.

(** No digit holds a slash. *)
Lemma digit_text_lacks_slash (rt : runtime) (w : string) (v : Z) :
  digit_text rt w v -> lacks "/" w.
Proof.
  intros [c Hc | w' v' Hb Hd].
  - rewrite lacks_cons. split; [ intros ->; discriminate Hc | constructor ].
  - destruct w' as [ | c w'']; [ discriminate Hb | ].
    unfold beyond_ascii in Hb. rewrite !andb_true_iff in Hb.
    destruct Hb as [[[Hlo _] _] Hcont].
    rewrite lacks_cons. split; [ intros ->; discriminate Hlo | ].
    apply continuation_lacks; [ reflexivity | exact Hcont ].
Qed.

Lemma substring_all (s : string) : substring 0 (String.length s) s = s.
Proof. induction s as [ | c s IH]; simpl; [ reflexivity | rewrite IH; reflexivity ]. Qed.

Lemma substring_prefix (w rest : string) :
  substring 0 (String.length w) (w ++ rest) = w.
Proof. induction w as [ | c w IH]; simpl; [ destruct rest; reflexivity | rewrite IH; reflexivity ]. Qed.

Lemma substring_suffix (w rest : string) :
  substring (String.length w) (String.length rest) (w ++ rest) = rest.
Proof. induction w as [ | c w IH]; simpl; [ apply substring_all | exact IH ]. Qed.

Lemma substring_split (n : nat) (s : string) :
  (n <= String.length s)%nat ->
  (substring 0 n s ++ substring n (String.length s - n) s)%string = s.
Proof.
  revert s. induction n as [ | n IH]; intros s H.
  - rewrite Nat.sub_0_r, substring_all. destruct s; reflexivity.
  - destruct s as [ | c s]; [ simpl in H; lia | ].
    simpl in H |- *. rewrite IH by lia. reflexivity.
Qed.

Lemma uncons_char_sound (s w rest : string) :
  uncons_char s = Some (w, rest) -> s = (w ++ rest)%string.
Proof.
  unfold uncons_char. destruct s as [ | c s']; [ discriminate | ].
  remember (String c s') as s0 eqn:Es. remember (utf8_width c) as n eqn:En.
  destruct (n <=? String.length s0)%nat eqn:E; [ | discriminate ].
  intros H. injection H as Hw Hr. rewrite <- Hw, <- Hr. symmetry.
  apply substring_split. apply Nat.leb_le. exact E.
Qed.

Lemma uncons_char_app (c : ascii) (w' rest : string) :
  String.length (String c w') = utf8_width c ->
  uncons_char (String c w' ++ rest) = Some (String c w', rest).
Proof.
  intros Hw. set (w := String c w') in *.
  assert (E : uncons_char (w ++ rest)
              = if (utf8_width c <=? String.length (w ++ rest))%nat
                then Some (substring 0 (utf8_width c) (w ++ rest),
                           substring (utf8_width c)
                                     (String.length (w ++ rest) - utf8_width c) (w ++ rest))
                else None) by reflexivity.
  rewrite E, <- Hw, length_append.
  replace (String.length w <=? String.length w + String.length rest)%nat with true
    by (symmetry; apply Nat.leb_le; lia).
  rewrite substring_prefix.
  replace (String.length w + String.length rest - String.length w)%nat
    with (String.length rest) by lia.
  rewrite substring_suffix. reflexivity.
Qed.

Lemma uncons_char_whole (c : ascii) (w' : string) :
  String.length (String c w') = utf8_width c ->
  uncons_char (String c w') = Some (String c w', ""%string).
Proof.
  intros Hw. pose proof (uncons_char_app c w' "" Hw) as H.
  rewrite append_empty_r in H. exact H.
Qed.

(** *** The three fields *)

Lemma match_d_sound (rt : runtime) (d : string) (v : Z) :
  match_d rt d = Some v -> day_text rt d v.
Proof.
  unfold match_d. destruct d as [ | a [ | b rest]]; [ discriminate | | ].
  - destruct (nonzero_digit a) eqn:Ha; [ | discriminate ].
    intros H. injection H as <-. apply day_single. exact Ha.
  - destruct (Ascii.eqb_spec a "1") as [-> | N1].
    { cbn [orb].
      destruct (digit rt (String b rest)) as [v' | ] eqn:E; [ | discriminate ].
      intros H. replace v with (digit_val "1" * 10 + v')%Z by congruence.
      apply day_tens; [ left; reflexivity | apply digit_sound; exact E ]. }
    destruct (Ascii.eqb_spec a "2") as [-> | N2].
    { cbn [orb].
      destruct (digit rt (String b rest)) as [v' | ] eqn:E; [ | discriminate ].
      intros H. replace v with (digit_val "2" * 10 + v')%Z by congruence.
      apply day_tens; [ right; reflexivity | apply digit_sound; exact E ]. }
    cbn [orb].
    destruct rest as [ | x y]; [ | discriminate ].
    destruct (Ascii.eqb_spec a "3") as [-> | N3].
    { destruct (Ascii.eqb_spec b "0") as [-> | _]; cbn [orb andb].
      - intros H. injection H as <-. apply day_thirties. left. reflexivity.
      - destruct (Ascii.eqb_spec b "1") as [-> | _]; cbn [orb andb].
        + intros H. injection H as <-. apply day_thirties. right. reflexivity.
        + change (Ascii.eqb "3" "0" || Ascii.eqb "3" " ") with false.
          discriminate. }
    cbn [andb].
    destruct (Ascii.eqb_spec a "0") as [-> | N0].
    { cbn [orb andb]. destruct (nonzero_digit b) eqn:Hb; [ | discriminate ].
      intros H. injection H as <-. apply day_padded; [ left; reflexivity | exact Hb ]. }
    destruct (Ascii.eqb_spec a " ") as [-> | Ns]; cbn [orb andb]; [ | discriminate ].
    destruct (nonzero_digit b) eqn:Hb; [ | discriminate ].
    intros H. injection H as <-. apply day_padded; [ right; reflexivity | exact Hb ].
Qed.

Lemma digit_text_nonempty (rt : runtime) (w : string) (v : Z) :
  digit_text rt w v -> exists c w', w = String c w'.
Proof.
  intros H. destruct (digit_text_width rt w v H) as [c [w' [E _]]]. eauto.
Qed.

Lemma match_d_complete (rt : runtime) (d : string) (v : Z) :
  day_text rt d v -> match_d rt d = Some v.
Proof.
  intros [b Hb | a w v' Ha Hw | a b Ha Hb | b Hb]; unfold match_d.
  - destruct Hb as [-> | ->]; reflexivity.
  - destruct (digit_text_nonempty rt w v' Hw) as [c [w' ->]].
    rewrite (digit_complete rt _ _ Hw).
    destruct Ha as [-> | ->]; reflexivity.
  - destruct Ha as [-> | ->]; simpl; rewrite Hb; reflexivity.
  - rewrite Hb. reflexivity.
Qed.

Lemma match_m_sound (m : string) (v : Z) : match_m m = Some v -> month_text m v.
Proof.
  unfold match_m. destruct m as [ | a [ | b [ | x y]]]; try discriminate.
  - destruct (nonzero_digit a) eqn:Ha; [ | discriminate ].
    intros H. injection H as <-. apply month_single. exact Ha.
  - destruct (Ascii.eqb_spec a "1") as [-> | N1].
    { destruct (Ascii.eqb_spec b "0") as [-> | _]; cbn [orb andb];
        [ intros H; injection H as <-; apply month_tens; auto | ].
      destruct (Ascii.eqb_spec b "1") as [-> | _]; cbn [orb andb];
        [ intros H; injection H as <-; apply month_tens; auto | ].
      destruct (Ascii.eqb_spec b "2") as [-> | _]; cbn [orb andb];
        [ intros H; injection H as <-; apply month_tens; auto | ].
      change (Ascii.eqb "1" "0") with false. discriminate. }
    cbn [andb].
    destruct (Ascii.eqb_spec a "0") as [-> | N0]; cbn [andb]; [ | discriminate ].
    destruct (nonzero_digit b) eqn:Hb; [ | discriminate ].
    intros H. injection H as <-. apply month_padded. exact Hb.
Qed.

Lemma match_m_complete (m : string) (v : Z) : month_text m v -> match_m m = Some v.
Proof.
  intros [b Hb | b Hb | b Hb]; unfold match_m.
  - destruct Hb as [-> | [-> | ->]]; reflexivity.
  - simpl. rewrite Hb. reflexivity.
  - rewrite Hb. reflexivity.
Qed.

Lemma match_Y_sound (rt : runtime) (y : string) (v : Z) :
  match_Y rt y = Some v -> year_text rt y v.
Proof.
  unfold match_Y. cbn [read_digits].
  destruct (uncons_char y) as [[w1 r1] | ] eqn:U1; [ | discriminate ].
  destruct (digit rt w1) as [v1 | ] eqn:D1; [ | discriminate ].
  destruct (uncons_char r1) as [[w2 r2] | ] eqn:U2; [ | discriminate ].
  destruct (digit rt w2) as [v2 | ] eqn:D2; [ | discriminate ].
  destruct (uncons_char r2) as [[w3 r3] | ] eqn:U3; [ | discriminate ].
  destruct (digit rt w3) as [v3 | ] eqn:D3; [ | discriminate ].
  destruct (uncons_char r3) as [[w4 r4] | ] eqn:U4; [ | discriminate ].
  destruct (digit rt w4) as [v4 | ] eqn:D4; [ | discriminate ].
  destruct r4; [ | discriminate ].
  intros H.
  assert (Ev : v = (((v1 * 10 + v2) * 10 + v3) * 10 + v4)%Z).
  { injection H as <-. lia. }
  apply uncons_char_sound in U1, U2, U3, U4.
  rewrite append_empty_r in U4. subst r3 r2 r1 y v.
  apply year_digits; apply digit_sound; assumption.
Qed.

Lemma match_Y_complete (rt : runtime) (y : string) (v : Z) :
  year_text rt y v -> match_Y rt y = Some v.
Proof.
  intros [w1 w2 w3 w4 v1 v2 v3 v4 H1 H2 H3 H4].
  destruct (digit_text_width rt _ _ H1) as [c1 [x1 [-> L1]]].
  destruct (digit_text_width rt _ _ H2) as [c2 [x2 [-> L2]]].
  destruct (digit_text_width rt _ _ H3) as [c3 [x3 [-> L3]]].
  destruct (digit_text_width rt _ _ H4) as [c4 [x4 [-> L4]]].
  unfold match_Y. cbn [read_digits].
  rewrite (uncons_char_app c1 x1 _ L1), (digit_complete rt _ _ H1).
  rewrite (uncons_char_app c2 x2 _ L2), (digit_complete rt _ _ H2).
  rewrite (uncons_char_app c3 x3 _ L3), (digit_complete rt _ _ H3).
  rewrite (uncons_char_whole c4 x4 L4), (digit_complete rt _ _ H4).
  f_equal; lia.
Qed.

Lemma day_text_lacks_slash (rt : runtime) (d : string) (v : Z) :
  day_text rt d v -> lacks "/" d.
Proof.
  intros [b Hb | a w v' Ha Hw | a b Ha Hb | b Hb].
  - destruct Hb as [-> | ->]; unfold lacks; simpl; repeat constructor; discriminate.
  - rewrite lacks_cons. split; [ destruct Ha as [-> | ->]; discriminate | ].
    exact (digit_text_lacks_slash rt w v' Hw).
  - rewrite !lacks_cons. split; [ destruct Ha as [-> | ->]; discriminate | ].
    split; [ intros ->; discriminate Hb | constructor ].
  - rewrite lacks_cons. split; [ intros ->; discriminate Hb | constructor ].
Qed.

Lemma month_text_lacks_slash (m : string) (v : Z) : month_text m v -> lacks "/" m.
Proof.
  intros [b Hb | b Hb | b Hb].
  - destruct Hb as [-> | [-> | ->]]; unfold lacks; simpl; repeat constructor; discriminate.
  - rewrite !lacks_cons. split; [ discriminate | ].
    split; [ intros ->; discriminate Hb | constructor ].
  - rewrite lacks_cons. split; [ intros ->; discriminate Hb | constructor ].
Qed.

Lemma year_text_lacks_slash (rt : runtime) (y : string) (v : Z) :
  year_text rt y v -> lacks "/" y.
Proof.
  intros [w1 w2 w3 w4 v1 v2 v3 v4 H1 H2 H3 H4].
  repeat apply lacks_app; eapply digit_text_lacks_slash; eassumption.
Qed.

(** *** The whole format *)

(** A cell the format reads writes the date it is read as. *)
Lemma strptime_dmy_sound (rt : runtime) (s : string) (t : date) :
  strptime_dmy rt s = Some t -> dmy_text rt s t.
Proof.
  unfold strptime_dmy. pose proof (split_on_concat "/" s) as Hs.
  destruct (split_on "/" s) as [ | d [ | m [ | y [ | z l]]]]; try discriminate.
  destruct (match_d rt d) as [dd | ] eqn:Hd; [ | discriminate ].
  destruct (match_m m) as [mm | ] eqn:Hm; [ | discriminate ].
  destruct (match_Y rt y) as [yy | ] eqn:Hy; [ | discriminate ].
  cbv zeta. destruct (valid_date (mkdate yy mm dd)) eqn:Hv; [ | discriminate ].
  intros H. injection H as <-.
  exists d, m, y. split; [ symmetry; exact Hs | ].
  split; [ exact (match_d_sound rt d dd Hd) | ].
  split; [ exact (match_m_sound m mm Hm) | ].
  split; [ exact (match_Y_sound rt y yy Hy) | exact Hv ].
Qed.

(** And every text that writes a date is read as that date. *)
Lemma strptime_dmy_complete (rt : runtime) (s : string) (t : date) :
  dmy_text rt s t -> strptime_dmy rt s = Some t.
Proof.
  intros [d [m [y [-> [Hd [Hm [Hy Hv]]]]]]].
  unfold strptime_dmy.
  change ("/" ++ m ++ "/" ++ y)%string with (String "/" (m ++ String "/" y)).
  rewrite (split_on_app _ _ _ (day_text_lacks_slash rt d _ Hd)).
  rewrite (split_on_app _ _ _ (month_text_lacks_slash m _ Hm)).
  rewrite (split_on_lacking _ _ (year_text_lacks_slash rt y _ Hy)).
  rewrite (match_d_complete rt d _ Hd), (match_m_complete m _ Hm),
    (match_Y_complete rt y _ Hy).
  cbv zeta. destruct t as [yy mm dd]. cbn [year month day] in *. rewrite Hv. reflexivity.
Qed.

Lemma in_concat_char (d rest : string) (c : ascii) :
  In c (list_ascii_of_string (d ++ String c rest)).
Proof. induction d as [ | x d IH]; simpl; auto. Qed.

Lemma dmy_text_has_slash rt s t : dmy_text rt s t -> In "/"%char (list_ascii_of_string s).
Proof.
  intros [d [m [y [-> _]]]]. apply in_concat_char.
Qed.

(** The two words that are read as the current time match no date. *)
Lemma now_is_no_date (rt : runtime) (s : string) (t : date) :
  s = "now"%string \/ s = "today"%string -> ~ dmy_text rt s t.
Proof.
  intros Hs H. apply dmy_text_has_slash in H.
  destruct Hs as [-> | ->]; simpl in H;
    repeat (destruct H as [H | H]; [ discriminate H | ]); exact H.
Qed.

(** ** Loading never depends on what the cells hold *)

Lemma max_width_lengths (b b' : list (list string)) :
  map (@List.length string) b = map (@List.length string) b' ->
  max_width b = max_width b'.
Proof.
  revert b'. induction b as [ | r b IH]; intros [ | r' b'] H; simpl in *;
    try discriminate; [ reflexivity | ].
  injection H as Hr Hb. rewrite Hr, (IH b' Hb). reflexivity.
Qed.

Lemma load_rows_length (rt : runtime) (cols : list string) (i : nat) (body : list (list string)) :
  List.length (load_rows rt cols i body) = List.length body.
Proof.
  revert i. induction body as [ | r body IH]; intros i; simpl; [ reflexivity | ].
  rewrite IH. reflexivity.
Qed.

Lemma load_rows_In (rt : runtime) (cols : list string) (i : nat) (body : list (list string))
    (r : Row) :
  In r (load_rows rt cols i body) ->
  exists j raw, In raw body /\ r = load_row rt j cols raw.
Proof.
  revert i. induction body as [ | raw body IH]; intros i; simpl; [ contradiction | ].
  intros [<- | H].
  - exists i, raw. auto.
  - destruct (IH _ H) as [j [raw' [Hin E]]]. exists j, raw'. auto.
Qed.

Lemma load_data_rows (rt : runtime) (m : list (list string)) (df : DataFrame) :
  load_data rt m = Some df -> List.length (rows df) = List.length (tl m).
Proof.
  destruct m as [ | header body]; simpl; [ discriminate | ].
  destruct (frame_fits header body); [ | discriminate ].
  destruct (conversions_apply (map strip header)); [ | discriminate ].
  intros H. injection H as <-. simpl. apply load_rows_length.
Qed.

Lemma load_data_same_shape (rt : runtime) (m m' : list (list string)) (df : DataFrame) :
  same_shape m m' ->
  load_data rt m = Some df ->
  exists df', load_data rt m' = Some df'
              /\ columns df' = columns df
              /\ List.length (rows df') = List.length (rows df).
Proof.
  intros [Hh Hl] H.
  destruct m as [ | header body]; [ discriminate | ].
  destruct m' as [ | header' body']; [ discriminate | ].
  simpl in Hh. injection Hh as <-. simpl in Hl. injection Hl as Hl.
  assert (Hlen : List.length body' = List.length body).
  { rewrite <- (length_map (@List.length string) body'), <- Hl. apply length_map. }
  simpl in H |- *.
  assert (Hw : frame_fits header body' = frame_fits header body).
  { unfold frame_fits. rewrite <- (max_width_lengths _ _ Hl).
    destruct body, body'; simpl in Hlen; try discriminate; reflexivity. }
  rewrite Hw.
  destruct (frame_fits header body); [ | discriminate ].
  destruct (conversions_apply (map strip header)); [ | discriminate ].
  injection H as <-. eexists. split; [ reflexivity | ]. simpl.
  split; [ reflexivity | ]. rewrite !load_rows_length. exact Hlen.
Qed.

(** C6, as the specification words it, fails: the cell [now] matches no
    date of the format, and is read as the current time. *)
Lemma C6_now_is_read_as_the_current_time : ~ unmatched_dates_are_absent.
Proof.
  intros H.
  specialize (H sample_run half_past_ten "now"%string
                (fun t => now_is_no_date sample_run "now" t (or_introl eq_refl))).
  discriminate H.
Qed.

(** C6, amended. A date cell that writes no date of the calendar in the
    day/month/year format (the empty cell is one), and is not one of the
    words [now] and [today], becomes an absent date, while a cell that does
    write one becomes that date at midnight and the two words become the
    time of the clock; parsing is a total function, and what the
    cells hold never decides whether the sheet loads: a sheet that loads
    gives one row per data row, and every sheet of the same shape loads too,
    with the same columns and as many rows. *)
Theorem C6_malformed_date_is_absent
    (rt : runtime) (reading : timestamp) (s : string)
    (m m' : list (list string)) (df : DataFrame) :
  s <> "now"%string -> s <> "today"%string ->
  (forall t, ~ dmy_text rt s t) ->
  same_shape m m' ->
  load_data rt m = Some df ->
  to_datetime rt reading (Some s) = None
  /\ to_datetime rt reading (Some "") = None
  /\ (forall s' t, dmy_text rt s' t ->
                   to_datetime rt reading (Some s') = Some (midnight t))
  /\ to_datetime rt reading (Some "now") = Some reading
  /\ to_datetime rt reading (Some "today") = Some reading
  /\ List.length (rows df) = List.length (tl m)
  /\ exists df', load_data rt m' = Some df'
                 /\ columns df' = columns df
                 /\ List.length (rows df') = List.length (rows df).
Proof.
  intros Hnow Htoday Hs Hshape Hload.
  split.
  { unfold to_datetime.
    apply String.eqb_neq in Hnow, Htoday. rewrite Hnow, Htoday. simpl.
    destruct (strptime_dmy rt s) as [t | ] eqn:E; [ | reflexivity ].
    exfalso. exact (Hs t (strptime_dmy_sound rt s t E)). }
  split; [ reflexivity | ].
  split.
  { intros s' t H. unfold to_datetime.
    assert (N1 : s' <> "now"%string)
      by (intros E; exact (now_is_no_date rt s' t (or_introl E) H)).
    assert (N2 : s' <> "today"%string)
      by (intros E; exact (now_is_no_date rt s' t (or_intror E) H)).
    apply String.eqb_neq in N1, N2. rewrite N1, N2. simpl.
    rewrite (strptime_dmy_complete rt s' t H). reflexivity. }
  split; [ reflexivity | ]. split; [ reflexivity | ].
  split; [ exact (load_data_rows rt m df Hload) | ].
  exact (load_data_same_shape rt m m' df Hshape Hload).
Qed.

Lemma C6_malformed_date_witness :
  "45/13/2024"%string <> "now"%string /\ "45/13/2024"%string <> "today"%string
  /\ (forall t, ~ dmy_text sample_run "45/13/2024" t)
  /\ same_shape scenario_matrix scenario_matrix_iso_date
  /\ load_data sample_run scenario_matrix = Some scenario_df
  /\ to_datetime sample_run half_past_ten (Some "45/13/2024") = None
  /\ List.length (rows scenario_df) = 1%nat
  /\ exists df', load_data sample_run scenario_matrix_iso_date = Some df'
                 /\ columns df' = columns scenario_df
                 /\ List.length (rows df') = List.length (rows scenario_df).
Proof.
  assert (N1 : "45/13/2024"%string <> "now"%string) by discriminate.
  assert (N2 : "45/13/2024"%string <> "today"%string) by discriminate.
  assert (H1 : forall t, ~ dmy_text sample_run "45/13/2024" t).
  { intros t H. apply strptime_dmy_complete in H. vm_compute in H. discriminate H. }
  assert (H2 : same_shape scenario_matrix scenario_matrix_iso_date)
    by (split; reflexivity).
  assert (H3 : load_data sample_run scenario_matrix = Some scenario_df)
    by (vm_compute; reflexivity).
  destruct (C6_malformed_date_is_absent sample_run half_past_ten "45/13/2024"
              scenario_matrix scenario_matrix_iso_date scenario_df N1 N2 H1 H2 H3)
    as [Ha [_ [_ [_ [_ [Hb Hc]]]]]].
  repeat (split; [ assumption | ]). exact Hc.
Defined.

(* ================================================================== *)
(** * Filter engine *)

(** ** Running a page *)

Lemma bind_ret_l {A B} (a : A) (k : A -> App B) : bind (ret a) k = k a.
Proof. unfold bind, ret. destruct (k a); reflexivity. Qed.

Lemma outcome_bind {A B} (m : App A) (k : A -> App B) :
  outcome (bind m k) =
  match outcome m with
  | Ok a => outcome (k a)
  | KeyError c => KeyError c
  | TypeError => TypeError
  | AttributeError => AttributeError
  end.
Proof.
  destruct m as [out [a | c | | ]]; simpl; try reflexivity.
  destruct (k a); reflexivity.
Qed.

Lemma rendered_bind {A B} (m : App A) (k : A -> App B) :
  rendered (bind m k) =
  match outcome m with
  | Ok a => rendered m ++ rendered (k a)
  | _ => rendered m
  end.
Proof.
  destruct m as [out [a | c | | ]]; simpl; try reflexivity.
  destruct (k a); reflexivity.
Qed.

Lemma require_present df name :
  has_col (columns df) name = true -> require df name = ret tt.
Proof. unfold require. intros ->. reflexivity. Qed.

Lemma require_absent df name :
  has_col (columns df) name = false -> require df name = ([], KeyError name).
Proof. unfold require. intros ->. reflexivity. Qed.

Lemma with_rows_same df : with_rows df (rows df) = df.
Proof. destruct df; reflexivity. Qed.

(** ** Filtering rows *)

Lemma filter_all {A} (p : A -> bool) (l : list A) :
  (forall x, In x l -> p x = true) -> filter p l = l.
Proof.
  induction l as [ | x l IH]; intros H; simpl; [ reflexivity | ].
  rewrite (H x (or_introl eq_refl)). f_equal. apply IH.
  intros y Hy. apply H. right. exact Hy.
Qed.

Lemma filter_twice {A} (p q : A -> bool) (l : list A) :
  filter p (filter q l) = filter (fun x => q x && p x) l.
Proof.
  induction l as [ | x l IH]; simpl; [ reflexivity | ].
  destruct (q x); simpl; [ destruct (p x) | ]; rewrite IH; reflexivity.
Qed.

Lemma filter_swap {A} (p q : A -> bool) (l : list A) :
  filter p (filter q l) = filter q (filter p l).
Proof.
  rewrite !filter_twice. apply filter_ext. intros x. apply andb_comm.
Qed.

(** ** The order on dates *)

Lemma date_leb_spec (a b : date) :
  date_leb a b = true <->
  (year a < year b
   \/ (year a = year b
       /\ (month a < month b \/ (month a = month b /\ day a <= day b))))%Z.
Proof.
  unfold date_leb.
  rewrite orb_true_iff, andb_true_iff, orb_true_iff, andb_true_iff.
  rewrite !Z.ltb_lt, !Z.eqb_eq, Z.leb_le. reflexivity.
Qed.

Lemma date_leb_refl (t : date) : date_leb t t = true.
Proof. apply date_leb_spec. lia. Qed.

Lemma date_leb_total (a b : date) : date_leb a b = true \/ date_leb b a = true.
Proof. rewrite !date_leb_spec. lia. Qed.

Lemma date_leb_trans (a b c : date) :
  date_leb a b = true -> date_leb b c = true -> date_leb a c = true.
Proof. rewrite !date_leb_spec. lia. Qed.

Lemma date_leb_antisym (a b : date) :
  date_leb a b = true -> date_leb b a = true -> a = b.
Proof.
  rewrite !date_leb_spec. destruct a as [y m d], b as [y' m' d']. simpl.
  intros H1 H2. f_equal; lia.
Qed.

(** The order of timestamps: by the day, and within a day by the time. *)
Lemma ts_leb_spec (a b : timestamp) :
  ts_leb a b = true <->
  date_leb (on a) (on b) = true
  /\ (date_leb (on b) (on a) = true -> (nanos a <= nanos b)%N).
Proof.
  unfold ts_leb. rewrite orb_true_iff, andb_true_iff, negb_true_iff, N.leb_le.
  destruct (date_leb_total (on a) (on b)) as [H | H];
    destruct (date_leb (on a) (on b)) eqn:Eab, (date_leb (on b) (on a)) eqn:Eba;
    try discriminate H; intuition congruence.
Qed.

Lemma ts_leb_refl (t : timestamp) : ts_leb t t = true.
Proof. apply ts_leb_spec. split; [ apply date_leb_refl | intros _; lia ]. Qed.

Lemma ts_leb_trans (a b c : timestamp) :
  ts_leb a b = true -> ts_leb b c = true -> ts_leb a c = true.
Proof.
  rewrite !ts_leb_spec. intros [H1 N1] [H2 N2].
  split; [ exact (date_leb_trans _ _ _ H1 H2) | ].
  intros H3.
  assert (Hba : date_leb (on b) (on a) = true) by exact (date_leb_trans _ _ _ H2 H3).
  assert (Hcb : date_leb (on c) (on b) = true) by exact (date_leb_trans _ _ _ H3 H1).
  specialize (N1 Hba). specialize (N2 Hcb). lia.
Qed.

Lemma ts_leb_total (a b : timestamp) : ts_leb a b = true \/ ts_leb b a = true.
Proof.
  rewrite !ts_leb_spec.
  destruct (date_leb (on a) (on b)) eqn:Eab, (date_leb (on b) (on a)) eqn:Eba.
  - destruct (N.le_ge_cases (nanos a) (nanos b)); [ left | right ]; auto.
  - left. split; [ reflexivity | discriminate ].
  - right. split; [ reflexivity | discriminate ].
  - destruct (date_leb_total (on a) (on b)); congruence.
Qed.

(** Midnight of a day against a timestamp. *)
Lemma midnight_leb (d : date) (t : timestamp) :
  ts_leb (midnight d) t = true <-> date_leb d (on t) = true.
Proof.
  rewrite ts_leb_spec. simpl. split; [ tauto | ].
  intros H. split; [ exact H | intros _; lia ].
Qed.

Lemma leb_midnight (t : timestamp) (d : date) :
  ts_leb t (midnight d) = true <->
  date_leb (on t) d = true /\ (date_leb d (on t) = true -> nanos t = 0%N).
Proof.
  rewrite ts_leb_spec. simpl. split; intros [H1 H2]; (split; [ exact H1 | ]);
    intros H; specialize (H2 H); lia.
Qed.

(** Both ends of a range belong to it. *)
Lemma in_range_ends (s e : date) :
  date_leb s e = true ->
  in_range s e (Some (midnight s)) = true /\ in_range s e (Some (midnight e)) = true.
Proof.
  intros H. unfold in_range. rewrite !ts_leb_refl.
  assert (Hse : ts_leb (midnight s) (midnight e) = true) by (apply midnight_leb; exact H).
  rewrite Hse. auto.
Qed.

(** ** The date filters *)

Lemma filtro_agendamento_range ui df s e :
  has_col (columns df) "DATA" = true ->
  agendamento_date ui = [s; e] ->
  filtro_agendamento ui df =
  ([date_input "agendamento_date" (date_bounds (map DATA (rows df)))],
   Ok (with_rows df (filter (fun r => in_range s e (DATA r)) (rows df)))).
Proof.
  intros Hcol Hsel. unfold filtro_agendamento. rewrite Hcol, Hsel. reflexivity.
Qed.

Lemma no_sale_date_nothing_kept (rs : list Row) :
  (forall r, In r rs -> DIA_DA_VENDA r = None) ->
  filter (fun r => negb (isna (DIA_DA_VENDA r))) rs = [].
Proof.
  induction rs as [ | r rs IH]; intros H; simpl; [ reflexivity | ].
  rewrite (H r (or_introl eq_refl)). simpl. apply IH.
  intros x Hx. apply H. right. exact Hx.
Qed.

Lemma some_sale_date_kept (rs : list Row) :
  filter (fun r => negb (isna (DIA_DA_VENDA r))) rs = [] ->
  forall r, In r rs -> DIA_DA_VENDA r = None.
Proof.
  induction rs as [ | x rs IH]; simpl; intros H r Hr; [ contradiction | ].
  destruct (DIA_DA_VENDA x) eqn:Hx; simpl in H; [ discriminate | ].
  destruct Hr as [<- | Hr]; [ exact Hx | apply IH; assumption ].
Qed.

(** The sale-date filter, whatever its guards decide, keeps the rows that
    [passes Venda] keeps. *)
Lemma filtro_venda_outcome ui df :
  outcome (filtro_venda ui df) =
  Ok (with_rows df (filter (passes Venda ui (columns df)) (rows df))).
Proof.
  unfold filtro_venda, passes.
  destruct (has_col (columns df) "DIA DA VENDA"); simpl;
    [ | rewrite filter_all by reflexivity; rewrite with_rows_same; reflexivity ].
  destruct (usar_filtro_venda ui); simpl;
    [ | rewrite filter_all by reflexivity; rewrite with_rows_same; reflexivity ].
  destruct (filter (fun r => negb (isna (DIA_DA_VENDA r))) (rows df)) as [ | v vs] eqn:Hv;
    simpl.
  - rewrite filter_all, with_rows_same; [ reflexivity | ].
    intros r Hr. rewrite (some_sale_date_kept _ Hv r Hr).
    destruct (venda_date ui) as [ | a [ | b [ | c l]]]; reflexivity.
  - destruct (venda_date ui) as [ | a [ | b [ | c l]]]; simpl;
      try (rewrite filter_all by reflexivity; rewrite with_rows_same); reflexivity.
Qed.

Lemma filtro_agendamento_outcome ui df :
  outcome (filtro_agendamento ui df) =
  Ok (with_rows df (filter (passes Agendamento ui (columns df)) (rows df))).
Proof.
  unfold filtro_agendamento, passes.
  destruct (has_col (columns df) "DATA"); simpl;
    [ | rewrite filter_all by reflexivity; rewrite with_rows_same; reflexivity ].
  destruct (agendamento_date ui) as [ | a [ | b [ | c l]]]; simpl;
    try (rewrite filter_all by reflexivity; rewrite with_rows_same); reflexivity.
Qed.

Lemma in_range_spec s e c :
  in_range s e c = true <->
  exists t, c = Some t /\ ts_leb (midnight s) t = true /\ ts_leb t (midnight e) = true.
Proof.
  destruct c as [t | ]; unfold in_range.
  - rewrite andb_true_iff. split.
    + intros [H1 H2]. exists t. auto.
    + intros [t' [Ht [H1 H2]]]. injection Ht as ->. auto.
  - split; [ discriminate | intros [t [Ht _]]; discriminate ].
Qed.




(** ** The categorical filters *)

Lemma asked_date_app key (p q : list element) :
  asked_date key (p ++ q) = asked_date key p || asked_date key q.
Proof. unfold asked_date. apply existsb_app. Qed.

Lemma filtro_produto_no_date ui df key :
  asked_date key (rendered (filtro_produto ui df)) = false.
Proof.
  unfold filtro_produto, require_series.
  destruct (has_col (columns df) "PRODUTO"); [ | reflexivity ].
  destruct (1 <? count_col (columns df) "PRODUTO")%nat; [ reflexivity | ].
  rewrite bind_ret_l.
  destruct (negb (selected_produto ui =? "Todos")); reflexivity.
Qed.

Lemma filtro_funil_no_date ui df key :
  asked_date key (rendered (filtro_funil ui df)) = false.
Proof.
  unfold filtro_funil, require_series.
  destruct (has_col (columns df) "FUNIL"); [ | reflexivity ].
  destruct (1 <? count_col (columns df) "FUNIL")%nat; [ reflexivity | ].
  rewrite bind_ret_l.
  destruct (negb (selected_funil ui =? "Todos")); reflexivity.
Qed.

Lemma filtro_status_no_date ui df key :
  asked_date key (rendered (filtro_status ui df)) = false.
Proof.
  unfold filtro_status, require_series.
  destruct (has_col (columns df) "STATUS"); [ | reflexivity ].
  destruct (1 <? count_col (columns df) "STATUS")%nat; [ reflexivity | ].
  rewrite bind_ret_l.
  destruct (negb (selected_status ui =? "Todos")); reflexivity.
Qed.

Lemma filtro_agendamento_no_sale_date ui df :
  asked_date "venda_date" (rendered (filtro_agendamento ui df)) = false.
Proof.
  unfold filtro_agendamento.
  destruct (has_col (columns df) "DATA"); [ | reflexivity ].
  destruct (agendamento_date ui) as [ | a [ | b [ | c l]]]; reflexivity.
Qed.

(** C10. With the sale-date filter enabled on a frame in which no row has a
    sale date (the frame the scheduling-date filter returned), the sale-date
    step renders its checkbox only, asks for no sale-date range and returns
    the frame as it got it; no run of the filters shows the sale-date
    selector. *)
Theorem C10_sale_filter_without_sale_dates (ui : session) (df d1 : DataFrame) :
  outcome (filtro_agendamento ui df) = Ok d1 ->
  has_col (columns d1) "DIA DA VENDA" = true ->
  usar_filtro_venda ui = true ->
  (forall r, In r (rows d1) -> DIA_DA_VENDA r = None) ->
  filtro_venda ui d1 = ([checkbox "Filtrar também por data de venda"], Ok d1)
  /\ asked_date "venda_date" (rendered (main_filters ui df)) = false.
Proof.
  intros H1 HV Hu Hnone.
  assert (Hstep : filtro_venda ui d1 =
                  ([checkbox "Filtrar também por data de venda"], Ok d1)).
  { unfold filtro_venda. rewrite HV, Hu.
    rewrite (no_sale_date_nothing_kept _ Hnone). reflexivity. }
  split; [ exact Hstep | ].
  unfold main_filters.
  rewrite rendered_bind, H1, asked_date_app, filtro_agendamento_no_sale_date.
  rewrite rendered_bind, Hstep. simpl.
  rewrite rendered_bind.
  destruct (outcome (filtro_produto ui d1)) as [d3 | c | | ] eqn:H3;
    try apply filtro_produto_no_date.
  rewrite asked_date_app, filtro_produto_no_date, rendered_bind.
  destruct (outcome (filtro_funil ui d3)) as [d4 | c | | ] eqn:H4;
    try apply filtro_funil_no_date.
  rewrite asked_date_app, filtro_funil_no_date, rendered_bind.
  destruct (outcome (filtro_status ui d4)) as [d5 | c | | ] eqn:H5;
    try apply filtro_status_no_date.
  rewrite asked_date_app, filtro_status_no_date. reflexivity.
Qed.

Lemma C10_sale_filter_witness :
  filtro_venda march_2024 no_sales
  = ([checkbox "Filtrar também por data de venda"], Ok no_sales)
  /\ asked_date "venda_date" (rendered (main_filters march_2024 no_sales)) = false.
Proof.
  apply (C10_sale_filter_without_sale_dates march_2024 no_sales no_sales);
    [ reflexivity | reflexivity | reflexivity | ].
  intros r [<- | [<- | []]]; reflexivity.
Defined.

(** ** Every filter keeps the rows its predicate accepts *)

Lemma filtro_produto_outcome ui df :
  outcome (filtro_produto ui df) =
  reads df "PRODUTO" (with_rows df (filter (passes Produto ui (columns df)) (rows df))).
Proof.
  unfold filtro_produto, require_series, reads, passes.
  destruct (has_col (columns df) "PRODUTO"); [ | reflexivity ].
  destruct (1 <? count_col (columns df) "PRODUTO")%nat; [ reflexivity | ].
  rewrite bind_ret_l.
  destruct (selected_produto ui =? "Todos"); simpl.
  - rewrite filter_all by reflexivity. rewrite with_rows_same. reflexivity.
  - reflexivity.
Qed.

Lemma filtro_funil_outcome ui df :
  outcome (filtro_funil ui df) =
  reads df "FUNIL" (with_rows df (filter (passes Funil_ ui (columns df)) (rows df))).
Proof.
  unfold filtro_funil, require_series, reads, passes.
  destruct (has_col (columns df) "FUNIL"); [ | reflexivity ].
  destruct (1 <? count_col (columns df) "FUNIL")%nat; [ reflexivity | ].
  rewrite bind_ret_l.
  destruct (selected_funil ui =? "Todos"); simpl.
  - rewrite filter_all by reflexivity. rewrite with_rows_same. reflexivity.
  - reflexivity.
Qed.

Lemma filtro_status_outcome ui df :
  outcome (filtro_status ui df) =
  reads df "STATUS" (with_rows df (filter (passes Status_ ui (columns df)) (rows df))).
Proof.
  unfold filtro_status, require_series, reads, passes.
  destruct (has_col (columns df) "STATUS"); [ | reflexivity ].
  destruct (1 <? count_col (columns df) "STATUS")%nat; [ reflexivity | ].
  rewrite bind_ret_l.
  destruct (selected_status ui =? "Todos"); simpl.
  - rewrite filter_all by reflexivity. rewrite with_rows_same. reflexivity.
  - reflexivity.
Qed.

Lemma aplicar_outcome f ui df :
  outcome (aplicar f ui df) =
  match needed f with
  | Some c => reads df c (kept f ui df)
  | None => Ok (kept f ui df)
  end.
Proof.
  destruct f; simpl.
  - apply filtro_agendamento_outcome.
  - apply filtro_venda_outcome.
  - apply filtro_produto_outcome.
  - apply filtro_funil_outcome.
  - apply filtro_status_outcome.
Qed.

Lemma aplicar_ok_inv f ui df d :
  outcome (aplicar f ui df) = Ok d ->
  d = kept f ui df
  /\ forall df', columns df' = columns df ->
                 outcome (aplicar f ui df') = Ok (kept f ui df').
Proof.
  rewrite aplicar_outcome. unfold reads. intros H. split.
  - destruct (needed f) as [c | ];
      [ destruct (has_col (columns df) c);
        [ destruct (1 <? count_col (columns df) c)%nat | ] | ]; congruence.
  - intros df' Hc. rewrite aplicar_outcome. unfold reads. rewrite Hc.
    destruct (needed f) as [c | ];
      [ destruct (has_col (columns df) c);
        [ destruct (1 <? count_col (columns df) c)%nat | ] | ]; congruence.
Qed.

Lemma kept_kept f g ui1 ui2 df :
  kept g ui2 (kept f ui1 df) =
  with_rows df (filter (fun r => passes f ui1 (columns df) r && passes g ui2 (columns df) r)
                       (rows df)).
Proof. unfold kept. simpl. rewrite filter_twice. reflexivity. Qed.

Lemma kept_swap f g ui1 ui2 df :
  kept g ui2 (kept f ui1 df) = kept f ui1 (kept g ui2 df).
Proof. unfold kept. simpl. rewrite filter_swap. reflexivity. Qed.

(** C8. Two sidebar filters (date ranges or categorical selections, each
    with its own selection) applied in either order give the same frame:
    when the one order runs through, so does the other, with the same
    result, and that result keeps exactly the rows that satisfy both
    predicates. *)
Theorem C8_filters_commute
    (A B : filtro) (ui1 ui2 : session) (df d : DataFrame) :
  outcome (d1 <- aplicar A ui1 df ;; aplicar B ui2 d1) = Ok d ->
  outcome (d1 <- aplicar B ui2 df ;; aplicar A ui1 d1) = Ok d
  /\ rows d = filter (fun r => passes A ui1 (columns df) r && passes B ui2 (columns df) r)
                     (rows df).
Proof.
  intros H. rewrite outcome_bind in H.
  destruct (outcome (aplicar A ui1 df)) as [dA | c | | ] eqn:EA; try discriminate.
  apply aplicar_ok_inv in EA. destruct EA as [-> HA].
  apply aplicar_ok_inv in H. destruct H as [-> HB].
  split.
  - rewrite outcome_bind, (HB df) by reflexivity.
    rewrite (HA (kept B ui2 df)) by reflexivity.
    rewrite kept_swap. reflexivity.
  - rewrite kept_kept. reflexivity.
Qed.

Lemma C8_filters_commute_witness :
  outcome (d1 <- aplicar Produto pick_curso two_products ;;
           aplicar Agendamento march_2024 d1) = Ok curso_in_march
  /\ rows curso_in_march
     = filter (fun r => passes Agendamento march_2024 (columns two_products) r
                        && passes Produto pick_curso (columns two_products) r)
              (rows two_products).
Proof.
  apply (C8_filters_commute Agendamento Produto march_2024 pick_curso
           two_products curso_in_march).
  reflexivity.
Defined.

(** ** Selector options *)

Section SortedMembers.
Context {A : Type} (leb : A -> A -> bool).

Lemma insert_sorted_In (a x : A) (l : list A) :
  In x (insert_sorted leb a l) <-> x = a \/ In x l.
Proof.
  induction l as [ | y l IH]; simpl.
  - intuition congruence.
  - destruct (leb a y); simpl; [ intuition congruence | ].
    rewrite IH. intuition congruence.
Qed.

Lemma sorted_In (x : A) (l : list A) : In x (sorted leb l) <-> In x l.
Proof.
  induction l as [ | y l IH]; simpl; [ reflexivity | ].
  rewrite insert_sorted_In, IH. intuition congruence.
Qed.

Lemma insert_sorted_length (a : A) (l : list A) :
  List.length (insert_sorted leb a l) = S (List.length l).
Proof.
  induction l as [ | y l IH]; simpl; [ reflexivity | ].
  destruct (leb a y); simpl; [ reflexivity | rewrite IH; reflexivity ].
Qed.

Lemma sorted_length (l : list A) : List.length (sorted leb l) = List.length l.
Proof.
  induction l as [ | y l IH]; simpl; [ reflexivity | ].
  rewrite insert_sorted_length, IH. reflexivity.
Qed.

End SortedMembers.

Lemma unique_In (x : string) (l : list string) : In x (unique l) <-> In x l.
Proof.
  induction l as [ | y l IH]; simpl; [ reflexivity | ].
  rewrite filter_In, IH, negb_true_iff, String.eqb_neq.
  destruct (string_dec y x) as [-> | Hne]; [ tauto | ].
  split; [ tauto | ].
  intros [H | H]; [ contradiction | ]. right. split; [ exact H | congruence ].
Qed.

Lemma dropna_In (x : string) (l : list cell) : In x (dropna l) <-> In (Some x) l.
Proof.
  induction l as [ | [s | ] l IH]; simpl.
  - reflexivity.
  - rewrite IH. split; intros [H | H]; auto; left; congruence.
  - rewrite IH. split; [ auto | intros [H | H]; [ discriminate | exact H ] ].
Qed.

Lemma selector_options_In (v : string) (col : list cell) :
  In v (selector_options col) <-> v = "Todos" \/ In (Some v) col.
Proof.
  unfold selector_options. simpl.
  rewrite sorted_In, unique_In, dropna_In. intuition congruence.
Qed.

Lemma offered_app label (p q : list element) :
  offered label (p ++ q) =
  match offered label p with
  | Some o => Some o
  | None => offered label q
  end.
Proof.
  induction p as [ | e p IH]; simpl; [ reflexivity | ].
  destruct e as [ | | | | l o | | | | | ]; try exact IH.
  destruct (l =? label); [ reflexivity | exact IH ].
Qed.

Lemma filtro_agendamento_no_selector ui df label :
  offered label (rendered (filtro_agendamento ui df)) = None.
Proof.
  unfold filtro_agendamento.
  destruct (has_col (columns df) "DATA"); [ | reflexivity ].
  destruct (agendamento_date ui) as [ | a [ | b [ | c l]]]; reflexivity.
Qed.

Lemma filtro_venda_no_selector ui df label :
  offered label (rendered (filtro_venda ui df)) = None.
Proof.
  unfold filtro_venda.
  destruct (has_col (columns df) "DIA DA VENDA"); [ | reflexivity ].
  destruct (usar_filtro_venda ui); [ | reflexivity ].
  destruct (0 <? _)%nat; [ | reflexivity ].
  destruct (venda_date ui) as [ | a [ | b [ | c l]]]; reflexivity.
Qed.

Lemma filtro_produto_rendered ui df :
  has_col (columns df) "PRODUTO" = true ->
  (1 <? count_col (columns df) "PRODUTO")%nat = false ->
  rendered (filtro_produto ui df)
  = [selectbox "Produto:" (selector_options (map PRODUTO (rows df)))].
Proof.
  intros H H1. unfold filtro_produto, require_series. rewrite H, H1, bind_ret_l.
  destruct (negb (selected_produto ui =? "Todos")); reflexivity.
Qed.

Lemma filtro_funil_rendered ui df :
  has_col (columns df) "FUNIL" = true ->
  (1 <? count_col (columns df) "FUNIL")%nat = false ->
  rendered (filtro_funil ui df)
  = [selectbox "Funil:" (selector_options (map (fun r => Some (FUNIL r)) (rows df)))].
Proof.
  intros H H1. unfold filtro_funil, require_series. rewrite H, H1, bind_ret_l.
  destruct (negb (selected_funil ui =? "Todos")); reflexivity.
Qed.

Lemma filtro_status_rendered ui df :
  has_col (columns df) "STATUS" = true ->
  (1 <? count_col (columns df) "STATUS")%nat = false ->
  rendered (filtro_status ui df)
  = [selectbox "Status:" (selector_options (map (fun r => Some (STATUS r)) (rows df)))].
Proof.
  intros H H1. unfold filtro_status, require_series. rewrite H, H1, bind_ret_l.
  destruct (negb (selected_status ui =? "Todos")); reflexivity.
Qed.

Lemma narrowed_snoc fs f ui df :
  rows (kept f ui (with_rows df (narrowed fs ui df))) = narrowed (fs ++ [f]) ui df.
Proof.
  unfold kept, narrowed. simpl. rewrite filter_twice. apply filter_ext.
  intros r. rewrite forallb_app. simpl. rewrite andb_true_r. reflexivity.
Qed.

Lemma kept_narrowed fs f ui df :
  kept f ui (with_rows df (narrowed fs ui df)) = with_rows df (narrowed (fs ++ [f]) ui df).
Proof.
  rewrite <- narrowed_snoc. reflexivity.
Qed.

Lemma kept_first f ui df : kept f ui df = with_rows df (narrowed [f] ui df).
Proof.
  unfold kept, narrowed. f_equal. apply filter_ext. intros r. simpl.
  rewrite andb_true_r. reflexivity.
Qed.

Lemma narrowed_nil ui df : with_rows df (narrowed [] ui df) = df.
Proof.
  unfold narrowed. simpl. rewrite filter_all by reflexivity. apply with_rows_same.
Qed.

(** One filter on a frame already narrowed by others. *)
Lemma aplicar_narrowed f fs ui df :
  outcome (aplicar f ui (with_rows df (narrowed fs ui df))) =
  match needed f with
  | Some c => reads df c (with_rows df (narrowed (fs ++ [f]) ui df))
  | None => Ok (with_rows df (narrowed (fs ++ [f]) ui df))
  end.
Proof.
  rewrite aplicar_outcome, kept_narrowed. reflexivity.
Qed.

Lemma run_pair {A} (m : App A) : m = (rendered m, outcome m).
Proof. destruct m; reflexivity. Qed.

Lemma main_filters_as_steps ui df :
  main_filters ui df =
  (d <- aplicar Agendamento ui (with_rows df (narrowed [] ui df)) ;;
   d <- aplicar Venda ui d ;;
   d <- aplicar Produto ui d ;;
   d <- aplicar Funil_ ui d ;;
   d <- aplicar Status_ ui d ;;
   emit (metric "Registros Filtrados" (Count (List.length (rows d)))) ;;
   ret d).
Proof. rewrite narrowed_nil. reflexivity. Qed.

(** A run of the filters that ends well: what it rendered and returned. *)
Lemma main_filters_ok ui df page df' :
  main_filters ui df = (page, Ok df') ->
  df' = with_rows df (narrowed [Agendamento; Venda; Produto; Funil_; Status_] ui df)
  /\ page =
     rendered (filtro_agendamento ui df)
     ++ rendered (filtro_venda ui (with_rows df (narrowed [Agendamento] ui df)))
     ++ [ selectbox "Produto:"
            (selector_options (map PRODUTO (narrowed [Agendamento; Venda] ui df)));
          selectbox "Funil:"
            (selector_options
               (map (fun r => Some (FUNIL r)) (narrowed [Agendamento; Venda; Produto] ui df)));
          selectbox "Status:"
            (selector_options
               (map (fun r => Some (STATUS r))
                    (narrowed [Agendamento; Venda; Produto; Funil_] ui df)));
          metric "Registros Filtrados" (Count (List.length (rows df'))) ].
Proof.
  intros H.
  assert (Hout : outcome (main_filters ui df) = Ok df') by (rewrite H; reflexivity).
  assert (Hpage : rendered (main_filters ui df) = page) by (rewrite H; reflexivity).
  clear H. rewrite main_filters_as_steps in Hout, Hpage.
  do 3 (rewrite outcome_bind, aplicar_narrowed in Hout;
        rewrite rendered_bind, aplicar_narrowed in Hpage;
        simpl needed in Hout, Hpage; cbv beta iota in Hout, Hpage).
  unfold reads in Hout, Hpage.
  destruct (has_col (columns df) "PRODUTO") eqn:HP; [ | discriminate Hout ].
  destruct (1 <? count_col (columns df) "PRODUTO")%nat eqn:HP1; [ discriminate Hout | ].
  rewrite outcome_bind, aplicar_narrowed in Hout.
  rewrite rendered_bind, aplicar_narrowed in Hpage.
  simpl needed in Hout, Hpage; cbv beta iota in Hout, Hpage.
  unfold reads in Hout, Hpage.
  destruct (has_col (columns df) "FUNIL") eqn:HF; [ | discriminate Hout ].
  destruct (1 <? count_col (columns df) "FUNIL")%nat eqn:HF1; [ discriminate Hout | ].
  rewrite outcome_bind, aplicar_narrowed in Hout.
  rewrite rendered_bind, aplicar_narrowed in Hpage.
  simpl needed in Hout, Hpage; cbv beta iota in Hout, Hpage.
  unfold reads in Hout, Hpage.
  destruct (has_col (columns df) "STATUS") eqn:HS; [ | discriminate Hout ].
  destruct (1 <? count_col (columns df) "STATUS")%nat eqn:HS1; [ discriminate Hout | ].
  injection Hout as <-.
  split; [ reflexivity | ].
  rewrite <- Hpage, narrowed_nil.
  change (aplicar Agendamento ui df) with (filtro_agendamento ui df).
  change (aplicar Venda ui ?d) with (filtro_venda ui d).
  change (aplicar Produto ui ?d) with (filtro_produto ui d).
  change (aplicar Funil_ ui ?d) with (filtro_funil ui d).
  change (aplicar Status_ ui ?d) with (filtro_status ui d).
  rewrite filtro_produto_rendered by assumption.
  rewrite filtro_funil_rendered by assumption.
  rewrite filtro_status_rendered by assumption.
  reflexivity.
Qed.

Lemma narrowed_In fs ui df r :
  In r (narrowed fs ui df) <->
  In r (rows df) /\ Forall (fun f => passes f ui (columns df) r = true) fs.
Proof.
  unfold narrowed. rewrite filter_In, forallb_forall, Forall_forall. reflexivity.
Qed.

Lemma options_of_narrowed (col : Row -> cell) fs ui df v :
  In v (selector_options (map col (narrowed fs ui df))) <->
  v = "Todos" \/
  exists r, In r (rows df) /\ col r = Some v
            /\ Forall (fun f => passes f ui (columns df) r = true) fs.
Proof.
  rewrite selector_options_In, in_map_iff.
  split; (intros [H | [r H]]; [ left; exact H | right; exists r ]).
  - rewrite narrowed_In in H. tauto.
  - rewrite narrowed_In. tauto.
Qed.

(** C3, as the specification words it, fails: on [two_products] with the
    product Curso selected, the funnel selector offers Inbound only, while
    the frame the filters started from also has Outbound. *)
Lemma C3_options_depend_on_earlier_filters : ~ options_from_unfiltered_frame.
Proof.
  intros H.
  assert (E : main_filters pick_curso two_products
              = (rendered (main_filters pick_curso two_products), Ok curso_in_march))
    by (vm_compute; reflexivity).
  destruct (H _ _ _ _ E) as [_ [Hf _]].
  vm_compute in Hf. congruence.
Qed.

(** C3, amended. In a run of the sidebar filters that ends well, each
    selector lists 'Todos' and then, sorted and without repetition, the
    values of its column in the frame as narrowed by the filters before it:
    the product selector after the two date filters, the funnel selector
    also after the product filter, the status selector also after the funnel
    filter.  A value is offered exactly when it is 'Todos' or some row of the
    frame the filters started from carries it and passes those earlier
    filters. *)
Theorem C3_options_follow_earlier_filters
    (ui : session) (df df' : DataFrame) (page : list element) :
  main_filters ui df = (page, Ok df') ->
  let produtos := selector_options (map PRODUTO (narrowed [Agendamento; Venda] ui df)) in
  let funis :=
    selector_options
      (map (fun r => Some (FUNIL r)) (narrowed [Agendamento; Venda; Produto] ui df)) in
  let status_options :=
    selector_options
      (map (fun r => Some (STATUS r))
           (narrowed [Agendamento; Venda; Produto; Funil_] ui df)) in
  offered "Produto:" page = Some produtos
  /\ offered "Funil:" page = Some funis
  /\ offered "Status:" page = Some status_options
  /\ (forall v, In v produtos <->
        v = "Todos" \/
        exists r, In r (rows df) /\ PRODUTO r = Some v
                  /\ Forall (fun f => passes f ui (columns df) r = true)
                            [Agendamento; Venda])
  /\ (forall v, In v funis <->
        v = "Todos" \/
        exists r, In r (rows df) /\ Some (FUNIL r) = Some v
                  /\ Forall (fun f => passes f ui (columns df) r = true)
                            [Agendamento; Venda; Produto])
  /\ (forall v, In v status_options <->
        v = "Todos" \/
        exists r, In r (rows df) /\ Some (STATUS r) = Some v
                  /\ Forall (fun f => passes f ui (columns df) r = true)
                            [Agendamento; Venda; Produto; Funil_]).
Proof.
  intros H produtos funis status_options.
  apply main_filters_ok in H. destruct H as [_ ->].
  rewrite !offered_app, !filtro_agendamento_no_selector, !filtro_venda_no_selector.
  split; [ reflexivity | ].
  split; [ reflexivity | ].
  split; [ reflexivity | ].
  split; [ | split ]; intros v.
  - apply (options_of_narrowed PRODUTO).
  - apply (options_of_narrowed (fun r => Some (FUNIL r))).
  - apply (options_of_narrowed (fun r => Some (STATUS r))).
Qed.

Lemma C3_options_witness :
  main_filters pick_curso two_products
  = (rendered (main_filters pick_curso two_products), Ok curso_in_march)
  /\ offered "Produto:" (rendered (main_filters pick_curso two_products))
     = Some ["Todos"; "Curso"; "Mentoria"]
  /\ offered "Funil:" (rendered (main_filters pick_curso two_products))
     = Some ["Todos"; "Inbound"]
  /\ offered "Status:" (rendered (main_filters pick_curso two_products))
     = Some ["Todos"; "Call Realizada"].
Proof.
  assert (E : main_filters pick_curso two_products
              = (rendered (main_filters pick_curso two_products), Ok curso_in_march))
    by reflexivity.
  split; [ exact E | ].
  destruct (C3_options_follow_earlier_filters pick_curso two_products curso_in_march
              (rendered (main_filters pick_curso two_products)) E)
    as [Hp [Hf [Hs _]]].
  rewrite Hp, Hf, Hs. repeat split.
Defined.

(* ================================================================== *)
(** * Metric aggregator and reports *)

(** ** Rates *)

(** The guarded scalar rate is 0 on a zero denominator. *)
Lemma taxa_zero_denominator (num : nat) : taxa num 0 = 0%Q.
Proof. reflexivity. Qed.

(** The unguarded column rate is not: [0 / 0] is NaN and [n / 0] is infinite. *)
Lemma taxa_col_zero_denominator (num : nat) :
  taxa_col num 0 = match num with O => NaN | S _ => PInf end.
Proof. destruct num; reflexivity. Qed.

Lemma taxa_col_finite (num den : nat) :
  (0 < den)%nat -> exists q, taxa_col num den = Fin q.
Proof.
  intros H. unfold taxa_col, int_div.
  destruct (Z.of_nat den =? 0)%Z eqn:E.
  - apply Z.eqb_eq in E. lia.
  - simpl. eexists. reflexivity.
Qed.

(** Every group of [groupby] has at least one row. *)
Lemma groupby_nonempty (key : Row -> string) (rs : list Row) (k : string) (x : list Row) :
  In (k, x) (groupby key rs) -> (0 < List.length x)%nat.
Proof.
  unfold groupby. rewrite in_map_iff. intros [k' [E Hk]].
  injection E as <- <-.
  rewrite sorted_In, unique_In, in_map_iff in Hk. destruct Hk as [r [Hr Hin]].
  assert (Hx : In r (filter (fun r0 => key r0 =? k') rs)).
  { rewrite filter_In. split; [ exact Hin | ]. rewrite Hr. apply String.eqb_refl. }
  destruct (filter (fun r0 => key r0 =? k') rs); [ contradiction | simpl; lia ].
Qed.

(** So the show rate by SDR never meets a zero denominator. *)
Lemma sdr_stats_rate_finite (rs : list Row) (s : sdr_stats_row) :
  In s (sdr_stats rs) -> exists q, sdr_Taxa_Show s = Fin q.
Proof.
  unfold sdr_stats. rewrite in_map_iff. intros [[k x] [<- Hg]]. simpl.
  apply taxa_col_finite. exact (groupby_nonempty _ _ _ _ Hg).
Qed.

(** Nor does the conversion rate by funnel, which groups the held calls
    only. *)
Lemma conversao_funil_rate_finite (rs : list Row) (k : string) (v : float64) :
  In (k, v) (conversao_funil rs) -> exists q, v = Fin q.
Proof.
  unfold conversao_funil. rewrite in_map_iff. intros [[k' x] [E Hg]].
  injection E as _ <-.
  apply taxa_col_finite. exact (groupby_nonempty _ _ _ _ Hg).
Qed.

(** C1. The headline rates are guarded, but the conversion-rate column of
    the per-closer table and of the funnel summary divides two columns
    without a guard: on the sheet [no_call_matrix] the closer Carla and the
    funnel Outbound have no held call, and their conversion rate is NaN, not
    0. *)
Theorem C1_group_without_calls_has_nan_rate (rt : runtime) :
  load_data rt no_call_matrix = Some no_call_df
  /\ map (fun s => (Vendedor s, Calls_Realizadas s, Vendas s, Taxa_Conversao s))
         (vendedor_stats (rows no_call_df))
     = [("Bruno", 1%nat, 1%nat, Fin 100); ("Carla", 0%nat, 0%nat, NaN)]
  /\ map (fun s => (Funil s, f_Calls_Realizadas s, f_Vendas s, f_Taxa_Conversao s))
         (funil_complete (rows no_call_df))
     = [("Inbound", 1%nat, 1%nat, Fin 100); ("Outbound", 0%nat, 0%nat, NaN)]
  /\ In (closers_table (vendedor_stats (rows no_call_df)))
        (rendered (dashboard_vendedores no_call_df "Todos"))
  /\ In (metric "Taxa de Conversão" (Percent 0))
        (rendered (dashboard_vendedores no_call_df "Carla")).
Proof.
  split; [ vm_compute; reflexivity | ].
  split; [ vm_compute; reflexivity | ].
  split; [ vm_compute; reflexivity | ].
  split; vm_compute; tauto.
Qed.

(** ** The other grouped rates *)

Lemma funil_analysis_rate_finite (rs : list Row) (k : string) (a n : nat) (v : float64) :
  In (k, a, n, v) (funil_analysis rs) -> exists q, v = Fin q.
Proof.
  unfold funil_analysis. rewrite in_map_iff. intros [[k' x] [E Hg]].
  injection E as _ _ _ <-.
  apply taxa_col_finite. exact (groupby_nonempty _ _ _ _ Hg).
Qed.

Example dashboard_sdr_no_call :
  dashboard_sdr no_call_df "Todos"
  = ([ selectbox "Selecione o SDR:" ["Todos"; "Ana"];
       metric "Agendamentos" (Count 2);
       metric "Calls Realizadas" (Count 1);
       metric "Taxa de Show" (Percent 50);
       metric "No Shows" (Count 1);
       bar_chart "Taxa de Show por SDR (%)" [("Ana", Fin 50)];
       bar_chart "Total de Agendamentos por SDR" [("Ana", Fin 2)];
       sdrs_table [ {| sdr_SDR := "Ana"; sdr_Total_Agendamentos := 2;
                       sdr_Calls_Realizadas := 1; sdr_No_Shows := 1;
                       sdr_Taxa_Show := Fin 50 |} ] ],
     Ok tt).
Proof. vm_compute. reflexivity. Qed.

Example dashboard_funis_no_call :
  dashboard_funis no_call_df
  = ([ bar_chart "Taxa de Conversão por Funil (%)" [("Inbound", Fin 100)];
       funis_table (funil_complete (rows no_call_df)) ],
     Ok tt).
Proof. vm_compute. reflexivity. Qed.

(** ** Sales-cycle statistics *)

Lemma ciclo_preenchido_positive (r : Row) :
  ciclo_preenchido r = true <-> positive (CICLO_DE_VENDAS r).
Proof.
  unfold ciclo_preenchido. destruct (CICLO_DE_VENDAS r) as [q | | | ]; simpl;
    try (split; [ discriminate | contradiction ]); [ | tauto ].
  rewrite negb_true_iff. split.
  - intros H. apply Qnot_le_lt. intros Hle.
    apply Qle_bool_iff in Hle. congruence.
  - intros H. destruct (Qle_bool q 0) eqn:E; [ | reflexivity ].
    apply Qle_bool_iff in E. exfalso. exact (Qlt_not_le _ _ H E).
Qed.

Lemma positive_notna x : positive x -> notna x = true.
Proof. destruct x; simpl; tauto. Qed.

Lemma positive_gt_zero x : positive x -> fltb (Fin 0) x = true.
Proof.
  destruct x as [q | | | ]; simpl; try tauto.
  intros H. destruct (Qle_bool q 0) eqn:E; [ | reflexivity ].
  apply Qle_bool_iff in E. exfalso. exact (Qlt_not_le _ _ H E).
Qed.

Lemma fadd_positive x y : positive x -> positive y -> positive (fadd x y).
Proof.
  destruct x as [a | | | ], y as [b | | | ]; cbn [positive fadd]; try tauto.
  intros Ha Hb. rewrite Qred_correct.
  apply Qlt_trans with (y := (0 + b)%Q).
  - rewrite Qplus_0_l. exact Hb.
  - apply Qplus_lt_l. exact Ha.
Qed.

Lemma fold_fadd_positive (xs : list float64) (acc : float64) :
  Forall positive xs -> positive acc -> positive (fold_left fadd xs acc).
Proof.
  revert acc. induction xs as [ | x xs IH]; intros acc Hxs Hacc; simpl; [ exact Hacc | ].
  inversion Hxs; subst. apply IH; [ assumption | ]. apply fadd_positive; assumption.
Qed.

Lemma fadd_zero_l x : positive x -> positive (fadd (Fin 0) x).
Proof.
  destruct x as [b | | | ]; cbn [positive fadd]; try tauto.
  intros Hb. rewrite Qred_correct, Qplus_0_l. exact Hb.
Qed.

Lemma filter_notna_positive (xs : list float64) :
  Forall positive xs -> filter notna xs = xs.
Proof.
  intros H. apply filter_all. intros x Hx.
  apply positive_notna. rewrite Forall_forall in H. auto.
Qed.

Lemma fdiv_count_positive x n : positive x -> (0 < n)%nat -> positive (fdiv_count x n).
Proof.
  destruct x as [a | | | ]; cbn [positive fdiv_count]; try tauto.
  intros Ha Hn. rewrite Qred_correct.
  apply Qlt_shift_div_l.
  - change 0%Q with (inject_Z 0). rewrite <- Zlt_Qlt. lia.
  - rewrite Qmult_0_l. exact Ha.
Qed.

(** The mean of a non-empty column of positive values is positive, hence
    neither absent nor zero. *)
Lemma fmean_positive (xs : list float64) :
  Forall positive xs -> xs <> [] -> positive (fmean xs).
Proof.
  intros H Hne. unfold fmean. rewrite (filter_notna_positive xs H).
  destruct xs as [ | x xs]; [ congruence | ].
  apply fdiv_count_positive; [ | simpl; lia ].
  simpl. inversion H; subst.
  apply fold_fadd_positive; [ assumption | apply fadd_zero_l; assumption ].
Qed.

Lemma ciclo_values_positive (rs : list Row) :
  Forall positive (map CICLO_DE_VENDAS (filter ciclo_preenchido rs)).
Proof.
  rewrite Forall_forall. intros x Hx. rewrite in_map_iff in Hx.
  destruct Hx as [r [<- Hr]]. rewrite filter_In in Hr.
  apply ciclo_preenchido_positive. tauto.
Qed.

Lemma fold_min_In (ys : list float64) (y : float64) :
  In (fold_left (fun m x => if fltb x m then x else m) ys y) (y :: ys).
Proof.
  revert y. induction ys as [ | x ys IH]; intros y; simpl; [ auto | ].
  destruct (IH (if fltb x y then x else y)) as [H | H].
  - destruct (fltb x y); rewrite <- H; auto.
  - auto.
Qed.

Lemma fold_max_In (ys : list float64) (y : float64) :
  In (fold_left (fun m x => if fltb m x then x else m) ys y) (y :: ys).
Proof.
  revert y. induction ys as [ | x ys IH]; intros y; simpl; [ auto | ].
  destruct (IH (if fltb y x then x else y)) as [H | H].
  - destruct (fltb y x); rewrite <- H; auto.
  - auto.
Qed.

Lemma fmin_positive (xs : list float64) :
  Forall positive xs -> xs <> [] -> positive (fmin xs).
Proof.
  intros H Hne. unfold fmin. rewrite (filter_notna_positive xs H).
  destruct xs as [ | y ys]; [ congruence | ].
  rewrite Forall_forall in H. apply H. apply fold_min_In.
Qed.

Lemma fmax_positive (xs : list float64) :
  Forall positive xs -> xs <> [] -> positive (fmax xs).
Proof.
  intros H Hne. unfold fmax. rewrite (filter_notna_positive xs H).
  destruct xs as [ | y ys]; [ congruence | ].
  rewrite Forall_forall in H. apply H. apply fold_max_In.
Qed.

Lemma fmedian_positive (xs : list float64) :
  Forall positive xs -> xs <> [] -> positive (fmedian xs).
Proof.
  intros H Hne. unfold fmedian. rewrite (filter_notna_positive xs H).
  assert (Hs : Forall positive (sorted fleb xs)).
  { rewrite Forall_forall in *. intros x Hx. apply H. apply sorted_In in Hx. exact Hx. }
  assert (Hlen : (0 < List.length (sorted fleb xs))%nat).
  { rewrite sorted_length. destruct xs; [ congruence | simpl; lia ]. }
  destruct (sorted fleb xs) as [ | y ys] eqn:E; [ simpl in Hlen; lia | ].
  rewrite Forall_forall in Hs.
  assert (Hnth : forall i, (i < List.length (y :: ys))%nat -> positive (nth i (y :: ys) NaN)).
  { intros i Hi. apply Hs. apply nth_In. exact Hi. }
  assert (Hhalf : (List.length (y :: ys) / 2 < List.length (y :: ys))%nat)
    by (apply Nat.div_lt; lia).
  destruct (Nat.even (List.length (y :: ys))).
  - unfold fmid. apply fdiv_count_positive; [ | lia ].
    apply fadd_positive; apply Hnth; lia.
  - apply Hnth. exact Hhalf.
Qed.

Lemma dashboard_ciclo_vendas_cards (df : DataFrame) :
  has_col (columns df) "CICLO DE VENDAS" = true ->
  cycle_cards (rendered (dashboard_ciclo_vendas df)) =
  match map CICLO_DE_VENDAS (filter ciclo_preenchido (rows df)) with
  | [] => [warning "Não há dados de ciclo de vendas disponíveis."]
  | ciclo => [ metric "Ciclo Médio" (Days (fmean ciclo));
               metric "Ciclo Mediano" (Days (fmedian ciclo));
               metric "Ciclo Mínimo" (Days (fmin ciclo));
               metric "Ciclo Máximo" (Days (fmax ciclo)) ]
  end.
Proof.
  intros Hc. unfold dashboard_ciclo_vendas.
  rewrite (require_present _ _ Hc), bind_ret_l.
  destruct (filter ciclo_preenchido (rows df)) as [ | r0 l]; [ reflexivity | ].
  cbn [List.length Nat.eqb map].
  generalize (CICLO_DE_VENDAS r0 :: map CICLO_DE_VENDAS l). intros ciclo.
  generalize (fmean ciclo) (fmedian ciclo) (fmin ciclo) (fmax ciclo).
  intros a b c d.
  generalize (ciclo_por FUNIL (r0 :: l)) (ciclo_por CLOSER (r0 :: l)). intros tf tc.
  unfold require, bind, ret, emit.
  destruct (has_col (columns df) "FUNIL"), (has_col (columns df) "CLOSER");
    destruct ciclo; reflexivity.
Qed.

Lemma dashboard_geral_cycle_card (df : DataFrame) :
  has_col (columns df) "CICLO DE VENDAS" = true ->
  has_col (columns df) "STATUS" = true ->
  has_col (columns df) "VENDA REALIZADA" = true ->
  has_col (columns df) "VALOR_NUM" = true ->
  cycle_cards (rendered (dashboard_geral df)) =
  [ metric "Ciclo Médio"
      match map CICLO_DE_VENDAS (filter ciclo_preenchido (rows df)) with
      | [] => NA
      | ciclo => Days (fmean ciclo)
      end ].
Proof.
  intros Hc Hs Hv Hn. unfold dashboard_geral, create_metrics_cards.
  rewrite !(require_present _ _ Hc), !(require_present _ _ Hs),
    !(require_present _ _ Hv), !(require_present _ _ Hn), !bind_ret_l.
  pose proof (ciclo_values_positive (rows df)) as Hpos.
  destruct (map CICLO_DE_VENDAS (filter ciclo_preenchido (rows df))) as [ | x xs] eqn:E.
  - reflexivity.
  - assert (Hm : notna (fmean (x :: xs)) = true)
      by (apply positive_notna, fmean_positive; [ exact Hpos | discriminate ]).
    rewrite Hm. reflexivity.
Qed.

Lemma dashboard_ciclo_vendas_ignores (df : DataFrame) (r : Row) (before after : list Row) :
  ciclo_preenchido r = false ->
  dashboard_ciclo_vendas (with_rows df (before ++ r :: after))
  = dashboard_ciclo_vendas (with_rows df (before ++ after)).
Proof.
  intros Hr. unfold dashboard_ciclo_vendas, require. simpl columns. simpl rows.
  rewrite !filter_app. simpl filter. rewrite Hr. reflexivity.
Qed.

(** C7. The sales-cycle statistics are computed over the rows whose cycle is
    present and strictly positive, and over nothing else: a row without such
    a cycle can be taken out of the frame without changing the cycle page.
    When no row has one, the cycle page shows a warning and the overview
    shows N/A in place of the mean; otherwise mean, median, minimum and
    maximum of those values are shown, and each of them is strictly positive
    (so an unavailable statistic is never a zero). *)
Theorem C7_sales_cycle_statistics
    (df : DataFrame) (r : Row) (before after : list Row) :
  has_col (columns df) "CICLO DE VENDAS" = true ->
  has_col (columns df) "STATUS" = true ->
  has_col (columns df) "VENDA REALIZADA" = true ->
  has_col (columns df) "VALOR_NUM" = true ->
  ciclo_preenchido r = false ->
  let ciclo := map CICLO_DE_VENDAS (filter ciclo_preenchido (rows df)) in
  (forall x, In x ciclo <->
     (exists r', In r' (rows df) /\ CICLO_DE_VENDAS r' = x)
     /\ notna x = true /\ fltb (Fin 0) x = true)
  /\ cycle_cards (rendered (dashboard_ciclo_vendas df)) =
     match ciclo with
     | [] => [warning "Não há dados de ciclo de vendas disponíveis."]
     | _ => [ metric "Ciclo Médio" (Days (fmean ciclo));
              metric "Ciclo Mediano" (Days (fmedian ciclo));
              metric "Ciclo Mínimo" (Days (fmin ciclo));
              metric "Ciclo Máximo" (Days (fmax ciclo)) ]
     end
  /\ cycle_cards (rendered (dashboard_geral df)) =
     [ metric "Ciclo Médio" match ciclo with [] => NA | _ => Days (fmean ciclo) end ]
  /\ (ciclo <> [] ->
      positive (fmean ciclo) /\ positive (fmedian ciclo)
      /\ positive (fmin ciclo) /\ positive (fmax ciclo))
  /\ dashboard_ciclo_vendas (with_rows df (before ++ r :: after))
     = dashboard_ciclo_vendas (with_rows df (before ++ after)).
Proof.
  intros Hc Hs Hv Hn Hr ciclo.
  split; [ | split; [ | split; [ | split ] ] ].
  - intros x. unfold ciclo. rewrite in_map_iff. split.
    + intros [r' [<- Hin]]. rewrite filter_In in Hin. destruct Hin as [Hin Hp].
      split; [ exists r'; auto | ].
      unfold ciclo_preenchido in Hp. apply andb_true_iff in Hp. exact Hp.
    + intros [[r' [Hin <-]] [H1 H2]]. exists r'. split; [ reflexivity | ].
      rewrite filter_In. split; [ exact Hin | ].
      unfold ciclo_preenchido. rewrite H1, H2. reflexivity.
  - rewrite (dashboard_ciclo_vendas_cards df Hc). fold ciclo.
    destruct ciclo; reflexivity.
  - rewrite (dashboard_geral_cycle_card df Hc Hs Hv Hn). fold ciclo.
    destruct ciclo; reflexivity.
  - intros Hne. pose proof (ciclo_values_positive (rows df)) as Hpos. fold ciclo in Hpos.
    auto using fmean_positive, fmedian_positive, fmin_positive, fmax_positive.
  - exact (dashboard_ciclo_vendas_ignores df r before after Hr).
Qed.

Lemma C7_sales_cycle_witness :
  ciclo_preenchido carla_row = false
  /\ cycle_cards (rendered (dashboard_ciclo_vendas two_products))
     = [ metric "Ciclo Médio" (Days (Fin 9));
         metric "Ciclo Mediano" (Days (Fin 9));
         metric "Ciclo Mínimo" (Days (Fin 9));
         metric "Ciclo Máximo" (Days (Fin 9)) ]
  /\ cycle_cards (rendered (dashboard_geral two_products))
     = [ metric "Ciclo Médio" (Days (Fin 9)) ]
  /\ cycle_cards (rendered (dashboard_ciclo_vendas no_sales))
     = [ warning "Não há dados de ciclo de vendas disponíveis." ]
  /\ cycle_cards (rendered (dashboard_geral no_sales)) = [ metric "Ciclo Médio" NA ].
Proof.
  assert (Hr : ciclo_preenchido carla_row = false) by reflexivity.
  split; [ exact Hr | ].
  destruct (C7_sales_cycle_statistics two_products carla_row [] []
              eq_refl eq_refl eq_refl eq_refl Hr) as [_ [H1 [H2 _]]].
  destruct (C7_sales_cycle_statistics no_sales carla_row [] []
              eq_refl eq_refl eq_refl eq_refl Hr) as [_ [H3 [H4 _]]].
  rewrite H1, H2, H3, H4. repeat split.
Defined.

(** ** The closers page *)

Ltac run_page :=
  unfold require, round_rate, bind, ret, emit;
  repeat match goal with
         | |- context [has_col ?cols ?name] => destruct (has_col cols name)
         end;
  try match goal with
      | |- context [rows ?df] => destruct (rows df)
      end;
  simpl.

(** C9. On the closers page the two comparison charts and the comparison
    table are computed from the whole frame handed to the page: they, the
    selector's options and the way the page ends are the same for every
    choice of the closer selector, and only the four headline metrics can
    differ between two choices (as they do on [two_products] between Carla
    and 'Todos').  The page ends in one of three ways, whatever the choice:
    with a [KeyError] for a missing column, with the [TypeError] of line 244
    on a frame without rows, in both cases before any chart or table, or
    well, with the two charts and the table of the whole frame. *)
Theorem C9_comparison_independent_of_selected_closer
    (df : DataFrame) (s1 s2 : string) :
  comparison_part (rendered (dashboard_vendedores df s1))
  = comparison_part (rendered (dashboard_vendedores df s2))
  /\ without_metrics (rendered (dashboard_vendedores df s1))
     = without_metrics (rendered (dashboard_vendedores df s2))
  /\ outcome (dashboard_vendedores df s1) = outcome (dashboard_vendedores df s2)
  /\ ((exists c, outcome (dashboard_vendedores df s1) = KeyError c
                 /\ comparison_part (rendered (dashboard_vendedores df s1)) = [])
      \/ (rows df = []
          /\ outcome (dashboard_vendedores df s1) = TypeError
          /\ comparison_part (rendered (dashboard_vendedores df s1)) = [])
      \/ (rows df <> []
          /\ outcome (dashboard_vendedores df s1) = Ok tt
          /\ comparison_part (rendered (dashboard_vendedores df s1))
             = [ bar_chart "Taxa de Conversão por Closer (%)"
                   (map (fun s => (Vendedor s, Taxa_Conversao s)) (vendedor_stats (rows df)));
                 bar_chart "Receita Total por Closer (R$)"
                   (map (fun s => (Vendedor s, Receita s)) (vendedor_stats (rows df)));
                 closers_table (vendedor_stats (rows df)) ]))
  /\ rendered (dashboard_vendedores two_products "Carla")
     <> rendered (dashboard_vendedores two_products "Todos").
Proof.
  split; [ | split; [ | split; [ | split ] ] ].
  - unfold dashboard_vendedores. run_page; reflexivity.
  - unfold dashboard_vendedores. run_page; reflexivity.
  - unfold dashboard_vendedores. run_page; reflexivity.
  - unfold dashboard_vendedores. run_page;
      solve [ left; eexists; split; reflexivity
            | right; left; repeat split; reflexivity
            | right; right; repeat split; discriminate ].
  - intros H. vm_compute in H. congruence.
Qed.

(** ** The scenario of the specification *)

(** C4. The scenario sheet loads into one row with amount 1000 and status
    'Call Realizada', and the overview renders the cards Calls Realizadas 1,
    Vendas Fechadas 1 and Receita Total 1000; the conversion rate it computes
    is 100, but the page stops with [KeyError: 'CICLO DE VENDAS'] before the
    rate is rendered, the scenario sheet having no such column (and the
    sidebar filters of [main] stop on it with [KeyError: 'PRODUTO']). *)
Theorem C4_scenario_overview_stops_before_rate (rt : runtime) :
  load_data rt scenario_matrix = Some scenario_df
  /\ rows scenario_df = [scenario_row]
  /\ VALOR_NUM scenario_row = Fin 1000
  /\ STATUS scenario_row = "Call Realizada"
  /\ dashboard_geral scenario_df
     = ([ metric "Total Agendamentos" (Count 1);
          metric "Calls Realizadas" (Count 1);
          metric "Vendas Fechadas" (Count 1);
          metric "Receita Total" (Money (Fin 1000)) ],
        KeyError "CICLO DE VENDAS")
  /\ taxa (count_where is_ganho (rows scenario_df))
          (count_where is_call_realizada (rows scenario_df)) = 100%Q
  /\ outcome (main_filters no_filter scenario_df) = KeyError "PRODUTO".
Proof.
  repeat split; vm_compute; reflexivity.
Qed.

(** With a sales-cycle column in the sheet, whatever its cell holds, the
    overview of the scenario runs through and shows the rate 100. *)
Lemma scenario_with_ciclo_shows_rate (rt : runtime) (ciclo : string) :
  exists df v,
    load_data rt (scenario_matrix_with_ciclo ciclo) = Some df
    /\ dashboard_geral df
       = ([ metric "Total Agendamentos" (Count 1);
            metric "Calls Realizadas" (Count 1);
            metric "Vendas Fechadas" (Count 1);
            metric "Receita Total" (Money (Fin 1000));
            metric "Taxa de Show" (Percent 100);
            metric "Taxa de Conversão" (Percent 100);
            metric "Taxa de No Show" (Percent 0);
            metric "Ciclo Médio" v ],
          Ok tt).
Proof.
  eexists. eexists. split.
  - lazy -[to_numeric]. reflexivity.
  - lazy -[to_numeric fmean ciclo_preenchido]. reflexivity.
Qed.

(* ================================================================== *)
(** * Further properties of the filters *)

(** ** The whole sidebar *)

Lemma has_col_count (cols : list string) (c : string) :
  has_col cols c = (0 <? count_col cols c)%nat.
Proof.
  unfold has_col, count_col. induction cols as [ | x cols IH]; simpl; [ reflexivity | ].
  destruct (c =? x)%string; simpl; [ reflexivity | exact IH ].
Qed.

(** How [reads] ends, by the number of times the column is listed. *)
Lemma reads_cases (df : DataFrame) (c : string) (d : DataFrame) :
  (count_col (columns df) c = 0%nat /\ reads df c d = KeyError c)
  \/ (count_col (columns df) c = 1%nat /\ reads df c d = Ok d)
  \/ ((1 < count_col (columns df) c)%nat /\ reads df c d = AttributeError).
Proof.
  unfold reads. rewrite has_col_count.
  destruct (0 <? count_col (columns df) c)%nat eqn:E0.
  - apply Nat.ltb_lt in E0.
    destruct (1 <? count_col (columns df) c)%nat eqn:E1.
    + apply Nat.ltb_lt in E1. right. right. split; [ exact E1 | reflexivity ].
    + apply Nat.ltb_ge in E1. right. left. split; [ lia | reflexivity ].
  - apply Nat.ltb_ge in E0. left. split; [ lia | reflexivity ].
Qed.

Lemma main_filters_outcome (ui : session) (df : DataFrame) :
  outcome (main_filters ui df) =
  match reads df "PRODUTO" df with
  | Ok _ =>
      match reads df "FUNIL" df with
      | Ok _ =>
          reads df "STATUS"
            (with_rows df (narrowed [Agendamento; Venda; Produto; Funil_; Status_] ui df))
      | e => e
      end
  | e => e
  end.
Proof.
  rewrite main_filters_as_steps.
  do 3 (rewrite outcome_bind, aplicar_narrowed; simpl needed; cbv beta iota).
  unfold reads.
  destruct (has_col (columns df) "PRODUTO"); [ | reflexivity ].
  destruct (1 <? count_col (columns df) "PRODUTO")%nat; [ reflexivity | ].
  rewrite outcome_bind, aplicar_narrowed; simpl needed; cbv beta iota.
  unfold reads.
  destruct (has_col (columns df) "FUNIL"); [ | reflexivity ].
  destruct (1 <? count_col (columns df) "FUNIL")%nat; [ reflexivity | ].
  rewrite outcome_bind, aplicar_narrowed; simpl needed; cbv beta iota.
  unfold reads.
  destruct (has_col (columns df) "STATUS"); [ | reflexivity ].
  destruct (1 <? count_col (columns df) "STATUS")%nat; reflexivity.
Qed.

(** X1. On a frame that lists neither DATA nor DIA DA VENDA twice (no frame
    the loader returns does), the sidebar filters end by the first of the
    columns PRODUTO, FUNIL and STATUS, in that order, that the frame does not
    list exactly once: with a [KeyError] that names it when it is missing,
    and with an [AttributeError] when it is listed twice (which the loader
    lets through for PRODUTO).  When all three are listed once the filters
    run through, also on a frame without DATA or DIA DA VENDA, and the
    columns are those of the frame they started from. *)
Theorem X1_filters_fail_on_first_missing_column (ui : session) (df : DataFrame) :
  (count_col (columns df) "DATA" <= 1)%nat ->
  (count_col (columns df) "DIA DA VENDA" <= 1)%nat ->
  let listed c := count_col (columns df) c in
  let ends := outcome (main_filters ui df) in
  (listed "PRODUTO" = 1 /\ listed "FUNIL" = 1 /\ listed "STATUS" = 1
   /\ exists d, ends = Ok d /\ columns d = columns df)%nat
  \/ (listed "PRODUTO" = 0%nat /\ ends = KeyError "PRODUTO")
  \/ ((1 < listed "PRODUTO")%nat /\ ends = AttributeError)
  \/ (listed "PRODUTO" = 1%nat /\ listed "FUNIL" = 0%nat /\ ends = KeyError "FUNIL")
  \/ (listed "PRODUTO" = 1%nat /\ (1 < listed "FUNIL")%nat /\ ends = AttributeError)
  \/ (listed "PRODUTO" = 1%nat /\ listed "FUNIL" = 1%nat
      /\ listed "STATUS" = 0%nat /\ ends = KeyError "STATUS")
  \/ (listed "PRODUTO" = 1%nat /\ listed "FUNIL" = 1%nat
      /\ (1 < listed "STATUS")%nat /\ ends = AttributeError).
Proof.
  intros _ _ listed ends. unfold ends, listed. rewrite main_filters_outcome.
  destruct (reads_cases df "PRODUTO" df) as [[C ->] | [[C ->] | [C ->]]].
  { right. left. split; [ exact C | reflexivity ]. }
  2: { do 2 right. left. split; [ exact C | reflexivity ]. }
  destruct (reads_cases df "FUNIL" df) as [[C' ->] | [[C' ->] | [C' ->]]].
  { do 3 right. left. repeat split; assumption. }
  2: { do 4 right. left. repeat split; assumption. }
  destruct (reads_cases df "STATUS"
              (with_rows df (narrowed [Agendamento; Venda; Produto; Funil_; Status_] ui df)))
    as [[C'' ->] | [[C'' ->] | [C'' ->]]].
  - do 5 right. left. repeat split; assumption.
  - left. repeat (split; [ assumption | ]). eexists. split; reflexivity.
  - do 6 right. repeat split; assumption.
Qed.

Lemma X1_filters_witness :
  (count_col (columns produto_twice) "DATA" <= 1)%nat
  /\ (count_col (columns produto_twice) "DIA DA VENDA" <= 1)%nat
  /\ (1 < count_col (columns produto_twice) "PRODUTO")%nat
  /\ outcome (main_filters no_filter produto_twice) = AttributeError.
Proof.
  assert (H1 : (count_col (columns produto_twice) "DATA" <= 1)%nat) by (vm_compute; lia).
  assert (H2 : (count_col (columns produto_twice) "DIA DA VENDA" <= 1)%nat)
    by (vm_compute; lia).
  split; [ exact H1 | ]. split; [ exact H2 | ].
  assert (H3 : (1 < count_col (columns produto_twice) "PRODUTO")%nat)
    by (vm_compute; lia).
  split; [ exact H3 | ].
  destruct (X1_filters_fail_on_first_missing_column no_filter produto_twice H1 H2)
    as [[C _] | [[C _] | [[_ E] | [[C _] | [[C _] | [[C _] | [C _]]]]]]];
    try exact E; exfalso; rewrite C in H3; lia.
Defined.

Lemma narrowed_again fs ui df :
  narrowed fs ui (with_rows df (narrowed fs ui df)) = narrowed fs ui df.
Proof.
  unfold narrowed. simpl. rewrite filter_twice. apply filter_ext.
  intros r. apply andb_diag.
Qed.

(** X2. Filtering is idempotent: the frame the sidebar filters return, put
    through them once more with the same selections, comes back unchanged. *)
Theorem X2_filters_idempotent (ui : session) (df d : DataFrame) :
  outcome (main_filters ui df) = Ok d ->
  outcome (main_filters ui d) = Ok d.
Proof.
  rewrite !main_filters_outcome. unfold reads. intros H.
  destruct (has_col (columns df) "PRODUTO") eqn:HP; [ | discriminate ].
  destruct (1 <? count_col (columns df) "PRODUTO")%nat eqn:HP1; [ discriminate | ].
  destruct (has_col (columns df) "FUNIL") eqn:HF; [ | discriminate ].
  destruct (1 <? count_col (columns df) "FUNIL")%nat eqn:HF1; [ discriminate | ].
  destruct (has_col (columns df) "STATUS") eqn:HS; [ | discriminate ].
  destruct (1 <? count_col (columns df) "STATUS")%nat eqn:HS1; [ discriminate | ].
  injection H as <-. simpl columns. rewrite HP, HP1, HF, HF1, HS, HS1.
  rewrite narrowed_again. reflexivity.
Qed.

Lemma X2_filters_idempotent_witness :
  outcome (main_filters pick_curso two_products) = Ok curso_in_march
  /\ outcome (main_filters pick_curso curso_in_march) = Ok curso_in_march.
Proof.
  assert (H : outcome (main_filters pick_curso two_products) = Ok curso_in_march)
    by reflexivity.
  split; [ exact H | ].
  exact (X2_filters_idempotent pick_curso two_products curso_in_march H).
Defined.

(** ** Selections that were offered *)

Lemma main_filters_offered ui df page df' :
  main_filters ui df = (page, Ok df') ->
  offered "Produto:" page
  = Some (selector_options (map PRODUTO (narrowed [Agendamento; Venda] ui df)))
  /\ offered "Funil:" page
     = Some (selector_options
               (map (fun r => Some (FUNIL r))
                    (narrowed [Agendamento; Venda; Produto] ui df)))
  /\ offered "Status:" page
     = Some (selector_options
               (map (fun r => Some (STATUS r))
                    (narrowed [Agendamento; Venda; Produto; Funil_] ui df))).
Proof.
  intros H. apply main_filters_ok in H. destruct H as [_ ->].
  rewrite !offered_app, !filtro_agendamento_no_selector, !filtro_venda_no_selector.
  repeat split.
Qed.

Lemma narrowed_step_In fs f ui df r :
  In r (narrowed fs ui df) -> passes f ui (columns df) r = true ->
  In r (narrowed (fs ++ [f]) ui df).
Proof.
  rewrite !narrowed_In. intros [Hin Hall] Hf. split; [ exact Hin | ].
  apply Forall_app. split; [ exact Hall | ]. constructor; [ exact Hf | constructor ].
Qed.

(** A selector's option, once selected, leaves a row in the frame if there
    was one before. *)
Lemma offered_selection_keeps_a_row (col : Row -> cell) f fs ui df sel :
  (forall r, passes f ui (columns df) r = (sel =? "Todos") || cell_eqb (col r) sel) ->
  In sel (selector_options (map col (narrowed fs ui df))) ->
  narrowed fs ui df <> [] ->
  narrowed (fs ++ [f]) ui df <> [].
Proof.
  intros Hp Hsel Hne.
  assert (Hrow : exists r, In r (narrowed (fs ++ [f]) ui df)).
  { apply options_of_narrowed in Hsel. destruct Hsel as [-> | [r [Hin [Hc Hall]]]].
    - destruct (narrowed fs ui df) as [ | r0 l] eqn:E; [ congruence | ].
      exists r0. apply narrowed_step_In; [ rewrite E; left; reflexivity | ].
      rewrite Hp. reflexivity.
    - exists r. apply narrowed_step_In; [ apply narrowed_In; auto | ].
      rewrite Hp, Hc. simpl. rewrite String.eqb_refl. apply orb_true_r. }
  destruct Hrow as [r Hr]. intros E. rewrite E in Hr. exact Hr.
Qed.

(** X3. When the three selections of a run are options its selectors
    offered, the categorical filters never empty the frame: if a row is left
    after the two date filters, a row is left at the end. *)
Theorem X3_offered_selections_keep_a_row
    (ui : session) (df df' : DataFrame) (page : list element) :
  main_filters ui df = (page, Ok df') ->
  selections_offered ui page ->
  narrowed [Agendamento; Venda] ui df <> [] ->
  rows df' <> [].
Proof.
  intros H [[op [Hop Hp]] [[of' [Hof Hf]] [os [Hos Hs]]]] Hne.
  destruct (main_filters_offered ui df page df' H) as [Ep [Ef Es]].
  apply main_filters_ok in H. destruct H as [-> _]. simpl rows.
  rewrite Ep in Hop. injection Hop as <-.
  rewrite Ef in Hof. injection Hof as <-.
  rewrite Es in Hos. injection Hos as <-.
  apply (offered_selection_keeps_a_row (fun r => Some (STATUS r)) Status_
           [Agendamento; Venda; Produto; Funil_] ui df (selected_status ui));
    [ reflexivity | exact Hs | ].
  apply (offered_selection_keeps_a_row (fun r => Some (FUNIL r)) Funil_
           [Agendamento; Venda; Produto] ui df (selected_funil ui));
    [ reflexivity | exact Hf | ].
  apply (offered_selection_keeps_a_row PRODUTO Produto
           [Agendamento; Venda] ui df (selected_produto ui));
    [ reflexivity | exact Hp | exact Hne ].
Qed.

Lemma X3_offered_selections_witness :
  main_filters pick_curso two_products
  = (rendered (main_filters pick_curso two_products), Ok curso_in_march)
  /\ selections_offered pick_curso (rendered (main_filters pick_curso two_products))
  /\ narrowed [Agendamento; Venda] pick_curso two_products <> []
  /\ rows curso_in_march <> [].
Proof.
  assert (H1 : main_filters pick_curso two_products
               = (rendered (main_filters pick_curso two_products), Ok curso_in_march))
    by reflexivity.
  assert (H2 : selections_offered pick_curso
                 (rendered (main_filters pick_curso two_products))).
  { repeat split; eexists; (split; [ reflexivity | simpl; tauto ]). }
  assert (H3 : narrowed [Agendamento; Venda] pick_curso two_products <> [])
    by discriminate.
  repeat (split; [ assumption | ]).
  exact (X3_offered_selections_keep_a_row pick_curso two_products curso_in_march
           _ H1 H2 H3).
Defined.

(** ** The span of a date column *)

Lemma ts_bounds_none (col : list (option timestamp)) :
  ts_bounds col = None -> forall t, ~ In (Some t) col.
Proof.
  induction col as [ | [t0 | ] col IH]; simpl; intros H t Hin.
  - exact Hin.
  - destruct (ts_bounds col) as [[lo hi] | ]; discriminate.
  - destruct Hin as [Hin | Hin]; [ discriminate | exact (IH H t Hin) ].
Qed.

(** [min()] and [max()] of a date column bound every timestamp in it. *)
Lemma ts_bounds_cover (col : list (option timestamp)) (lo hi : timestamp) :
  ts_bounds col = Some (lo, hi) ->
  forall t, In (Some t) col -> ts_leb lo t = true /\ ts_leb t hi = true.
Proof.
  revert lo hi. induction col as [ | [t0 | ] col IH]; simpl; intros lo hi H t Hin.
  - discriminate.
  - destruct (ts_bounds col) as [[lo' hi'] | ] eqn:E.
    + injection H as <- <-.
      assert (Hlo : ts_leb (if ts_leb t0 lo' then t0 else lo') t0 = true
                    /\ ts_leb (if ts_leb t0 lo' then t0 else lo') lo' = true).
      { destruct (ts_leb t0 lo') eqn:L.
        - split; [ apply ts_leb_refl | exact L ].
        - split; [ | apply ts_leb_refl ].
          destruct (ts_leb_total t0 lo'); congruence. }
      assert (Hhi : ts_leb t0 (if ts_leb hi' t0 then t0 else hi') = true
                    /\ ts_leb hi' (if ts_leb hi' t0 then t0 else hi') = true).
      { destruct (ts_leb hi' t0) eqn:L.
        - split; [ apply ts_leb_refl | exact L ].
        - split; [ | apply ts_leb_refl ].
          destruct (ts_leb_total hi' t0); congruence. }
      destruct Hin as [Hin | Hin].
      * injection Hin as <-. tauto.
      * destruct (IH lo' hi' eq_refl t Hin) as [H1 H2]. split.
        -- exact (ts_leb_trans _ _ _ (proj2 Hlo) H1).
        -- exact (ts_leb_trans _ _ _ H2 (proj2 Hhi)).
    + injection H as <- <-. destruct Hin as [Hin | Hin].
      * injection Hin as <-. split; apply ts_leb_refl.
      * exfalso. exact (ts_bounds_none col E t Hin).
  - destruct Hin as [Hin | Hin]; [ discriminate | exact (IH lo hi H t Hin) ].
Qed.

(** The days the selector starts on bound the day of every timestamp. *)
Lemma date_bounds_cover (col : list (option timestamp)) (lo hi : date) :
  date_bounds col = Some (lo, hi) ->
  forall t, In (Some t) col ->
            date_leb lo (on t) = true /\ date_leb (on t) hi = true.
Proof.
  unfold date_bounds. destruct (ts_bounds col) as [[tlo thi] | ] eqn:E; [ | discriminate ].
  intros H t Hin. injection H as <- <-.
  destruct (ts_bounds_cover col tlo thi E t Hin) as [H1 H2].
  apply ts_leb_spec in H1, H2. tauto.
Qed.

(** X4. On a frame that lists DATA once, with the scheduling-date selector
    on the whole span of the DATA column (from the day of its earliest to the
    day of its latest timestamp, the range the selector starts on), the
    scheduling filter still narrows the frame: it keeps exactly the rows whose DATA is present and not later
    than midnight of the last day.  So it drops the rows without DATA, and
    the rows stamped on the last day after midnight (a cell [now] or
    [today]), and it keeps every row dated at midnight. *)
Theorem X4_whole_span_drops_undated_rows
    (ui : session) (df : DataFrame) (lo hi : date) :
  count_col (columns df) "DATA" = 1%nat ->
  date_bounds (map DATA (rows df)) = Some (lo, hi) ->
  agendamento_date ui = [lo; hi] ->
  exists d,
    outcome (filtro_agendamento ui df) = Ok d
    /\ (forall r, In r (rows d) <->
          In r (rows df)
          /\ exists t, DATA r = Some t /\ ts_leb t (midnight hi) = true)
    /\ (forall r t, In r (rows df) -> DATA r = Some t -> nanos t = 0%N ->
                    In r (rows d)).
Proof.
  intros Hone Hb Hsel.
  assert (Hc : has_col (columns df) "DATA" = true)
    by (rewrite has_col_count, Hone; reflexivity).
  rewrite (filtro_agendamento_range ui df lo hi Hc Hsel). eexists.
  split; [ reflexivity | ].
  assert (Hkeep : forall r, In r (rows df) ->
            in_range lo hi (DATA r) = true <->
            exists t, DATA r = Some t /\ ts_leb t (midnight hi) = true).
  { intros r Hr. rewrite in_range_spec. split; intros [t [Ht H]]; exists t.
    - tauto.
    - split; [ exact Ht | ]. split; [ | exact H ].
      apply midnight_leb.
      assert (Hin : In (Some t) (map DATA (rows df)))
        by (rewrite <- Ht; apply in_map; exact Hr).
      exact (proj1 (date_bounds_cover _ lo hi Hb t Hin)). }
  split.
  - intros r. simpl. rewrite filter_In. split.
    + intros [Hr H]. split; [ exact Hr | apply (Hkeep r Hr); exact H ].
    + intros [Hr H]. split; [ exact Hr | apply (Hkeep r Hr); exact H ].
  - intros r t Hr Ht Hn. simpl. rewrite filter_In. split; [ exact Hr | ].
    apply (Hkeep r Hr). exists t. split; [ exact Ht | ].
    apply leb_midnight. split; [ | intros _; exact Hn ].
    assert (Hin : In (Some t) (map DATA (rows df)))
      by (rewrite <- Ht; apply in_map; exact Hr).
    exact (proj2 (date_bounds_cover _ lo hi Hb t Hin)).
Qed.

Lemma X4_whole_span_witness :
  count_col (columns odd_dates) "DATA" = 1%nat
  /\ date_bounds (map DATA (rows odd_dates)) = Some (mkdate 2024 3 1, mkdate 2024 3 15)
  /\ outcome (filtro_agendamento odd_span odd_dates) = Ok two_products
  /\ exists d,
       outcome (filtro_agendamento odd_span odd_dates) = Ok d
       /\ (forall r, In r (rows d) <->
             In r (rows odd_dates)
             /\ exists t, DATA r = Some t
                          /\ ts_leb t (midnight (mkdate 2024 3 15)) = true)
       /\ (forall r t, In r (rows odd_dates) -> DATA r = Some t -> nanos t = 0%N ->
                       In r (rows d)).
Proof.
  split; [ reflexivity | ]. split; [ reflexivity | ]. split; [ reflexivity | ].
  exact (X4_whole_span_drops_undated_rows odd_span odd_dates
           (mkdate 2024 3 1) (mkdate 2024 3 15) eq_refl eq_refl eq_refl).
Defined.

(** X5. On a frame that does not list DIA DA VENDA twice, with the
    sale-date filter enabled and its selector on the whole span of the sale
    dates of the frame, the sale-date filter keeps every row, provided every
    sale date of the frame is at midnight (no sale cell was [now] or [today]);
    a sale stamped later on the last day is dropped, as [stamped_sale]
    shows. *)
Theorem X5_whole_sale_span_keeps_all
    (ui : session) (df : DataFrame) (lo hi : date) :
  (count_col (columns df) "DIA DA VENDA" <= 1)%nat ->
  date_bounds (map DIA_DA_VENDA (filter (fun r => negb (isna (DIA_DA_VENDA r))) (rows df)))
  = Some (lo, hi) ->
  venda_date ui = [lo; hi] ->
  (forall r t, In r (rows df) -> DIA_DA_VENDA r = Some t -> nanos t = 0%N) ->
  outcome (filtro_venda ui df) = Ok df.
Proof.
  intros _ Hb Hsel Hmid. rewrite filtro_venda_outcome.
  rewrite filter_all; [ rewrite with_rows_same; reflexivity | ].
  intros r Hr. unfold passes. rewrite Hsel.
  destruct (has_col (columns df) "DIA DA VENDA" && usar_filtro_venda ui);
    [ | reflexivity ].
  destruct (DIA_DA_VENDA r) as [t | ] eqn:Ht; [ | reflexivity ].
  assert (Hin : In (Some t)
                   (map DIA_DA_VENDA
                        (filter (fun r => negb (isna (DIA_DA_VENDA r))) (rows df)))).
  { rewrite <- Ht. apply in_map. apply filter_In. split; [ exact Hr | ].
    rewrite Ht. reflexivity. }
  destruct (date_bounds_cover _ lo hi Hb t Hin) as [H1 H2].
  apply orb_true_iff. left. apply in_range_spec. exists t.
  split; [ reflexivity | ]. split; [ apply midnight_leb; exact H1 | ].
  apply leb_midnight. split; [ exact H2 | intros _; exact (Hmid r t Hr Ht) ].
Qed.

Example stamped_sale :
  date_bounds (map DIA_DA_VENDA (rows stamped_sale_df))
  = Some (mkdate 2024 3 15, mkdate 2024 3 15)
  /\ outcome (filtro_venda stamped_sale_span stamped_sale_df)
     = Ok (with_rows stamped_sale_df []).
Proof. split; vm_compute; reflexivity. Qed.

Lemma X5_whole_sale_span_witness :
  date_bounds (map DIA_DA_VENDA
                   (filter (fun r => negb (isna (DIA_DA_VENDA r))) (rows two_products)))
  = Some (mkdate 2024 3 10, mkdate 2024 3 10)
  /\ (count_col (columns two_products) "DIA DA VENDA" <= 1)%nat
  /\ (forall r t, In r (rows two_products) -> DIA_DA_VENDA r = Some t -> nanos t = 0%N)
  /\ outcome (filtro_venda whole_sale_span two_products) = Ok two_products.
Proof.
  assert (H : forall r t, In r (rows two_products) -> DIA_DA_VENDA r = Some t ->
                          nanos t = 0%N).
  { intros r t [<- | [<- | []]] E; simpl in E; [ | discriminate E ].
    injection E as <-. reflexivity. }
  assert (Hone : (count_col (columns two_products) "DIA DA VENDA" <= 1)%nat)
    by (vm_compute; lia).
  split; [ reflexivity | ]. split; [ exact Hone | ]. split; [ exact H | ].
  exact (X5_whole_sale_span_keeps_all whole_sale_span two_products
           (mkdate 2024 3 10) (mkdate 2024 3 10) Hone eq_refl eq_refl H).
Defined.

(* ================================================================== *)
(** * Further properties of the grouped tables *)

(** ** Sorting rearranges *)

Lemma insert_sorted_perm {A} (leb : A -> A -> bool) (x : A) (l : list A) :
  Permutation (insert_sorted leb x l) (x :: l).
Proof.
  induction l as [ | y l IH]; simpl; [ apply Permutation_refl | ].
  destruct (leb x y); [ apply Permutation_refl | ].
  apply Permutation_trans with (l' := y :: x :: l).
  - apply perm_skip. exact IH.
  - apply perm_swap.
Qed.

Lemma sorted_perm {A} (leb : A -> A -> bool) (l : list A) :
  Permutation (sorted leb l) l.
Proof.
  induction l as [ | x l IH]; simpl; [ apply Permutation_refl | ].
  apply Permutation_trans with (l' := x :: sorted leb l).
  - apply insert_sorted_perm.
  - apply perm_skip. exact IH.
Qed.

Lemma list_sum_perm (l l' : list nat) :
  Permutation l l' -> list_sum l = list_sum l'.
Proof.
  induction 1; simpl; lia.
Qed.

Lemma list_sum_cons (a : nat) (l : list nat) : list_sum (a :: l) = (a + list_sum l)%nat.
Proof. reflexivity. Qed.

Lemma unique_NoDup (l : list string) : NoDup (unique l).
Proof.
  induction l as [ | x l IH]; simpl; constructor.
  - rewrite filter_In, negb_true_iff, String.eqb_neq. tauto.
  - apply NoDup_filter. exact IH.
Qed.

(** ** Grouping partitions the rows *)

(** Among distinct keys that include the key of a row, exactly one is it. *)
Lemma one_key_matches (k0 : string) (keys : list string) :
  NoDup keys -> In k0 keys ->
  list_sum (map (fun k => if String.eqb k0 k then 1 else 0)%nat keys) = 1%nat.
Proof.
  induction keys as [ | k keys IH]; intros Hnd Hin; [ contradiction | ].
  inversion Hnd as [ | ? ? Hk Hnd' ]; subst. simpl.
  destruct (String.eqb_spec k0 k) as [-> | Hne].
  - assert (Hz : list_sum (map (fun k' => if String.eqb k k' then 1 else 0)%nat keys) = 0%nat).
    { clear IH Hnd Hnd' Hin. induction keys as [ | k' keys IH]; [ reflexivity | ].
      simpl. destruct (String.eqb_spec k k') as [-> | _].
      - exfalso. apply Hk. left. reflexivity.
      - apply IH. intros H. apply Hk. right. exact H. }
    rewrite Hz. reflexivity.
  - destruct Hin as [Hin | Hin]; [ congruence | ].
    rewrite (IH Hnd' Hin). reflexivity.
Qed.

Lemma group_sizes_sum (key : Row -> string) (keys : list string) (rs : list Row) :
  NoDup keys -> (forall r, In r rs -> In (key r) keys) ->
  list_sum (map (fun k => List.length (filter (fun r => String.eqb (key r) k) rs)) keys)
  = List.length rs.
Proof.
  intros Hnd. induction rs as [ | r rs IH]; intros Hin.
  - clear Hnd Hin. induction keys as [ | k keys IH]; simpl; [ reflexivity | exact IH ].
  - assert (Hsplit :
      forall ks,
        list_sum (map (fun k => List.length
                                  (filter (fun r0 => String.eqb (key r0) k) (r :: rs))) ks)
        = (list_sum (map (fun k => if String.eqb (key r) k then 1 else 0)%nat ks)
           + list_sum (map (fun k => List.length
                                       (filter (fun r0 => String.eqb (key r0) k) rs)) ks))%nat).
    { induction ks as [ | k ks IHk]; [ reflexivity | ].
      cbn [map]. rewrite !list_sum_cons, IHk. cbn [filter].
      destruct (String.eqb (key r) k); simpl; lia. }
    rewrite Hsplit, IH, one_key_matches.
    + reflexivity.
    + exact Hnd.
    + apply Hin. left. reflexivity.
    + intros r' Hr'. apply Hin. right. exact Hr'.
Qed.

(** The rows of a frame with a property, counted group by group, add up to
    their count in the whole frame. *)
Lemma groupby_counts_sum (key : Row -> string) (p : Row -> bool) (rs : list Row) :
  list_sum (map (fun g : string * list Row => count_where p (snd g)) (groupby key rs))
  = count_where p rs.
Proof.
  unfold groupby, count_where. rewrite map_map. simpl.
  rewrite (list_sum_perm _ _
             (Permutation_map _ (sorted_perm String.leb (unique (map key rs))))).
  rewrite <- (group_sizes_sum key (unique (map key rs)) (filter p rs)).
  - f_equal. apply map_ext. intros k. f_equal. apply filter_swap.
  - apply unique_NoDup.
  - intros r Hr. apply unique_In. apply in_map. apply filter_In in Hr. tauto.
Qed.

(** ** Keys come out in strictly ascending order *)

Lemma string_leb_trans (a b c : string) :
  String.leb a b = true -> String.leb b c = true -> String.leb a c = true.
Proof.
  unfold String.leb. revert b c.
  induction a as [ | x a IH]; intros [ | y b] [ | z c]; simpl; try congruence.
  unfold Ascii.compare.
  destruct (N.compare_spec (N_of_ascii x) (N_of_ascii y)) as [E1 | L1 | G1];
    destruct (N.compare_spec (N_of_ascii y) (N_of_ascii z)) as [E2 | L2 | G2];
    destruct (N.compare_spec (N_of_ascii x) (N_of_ascii z)) as [E3 | L3 | G3];
    try congruence; try lia.
  apply IH.
Qed.

Lemma string_lt_of_le_ne (a b : string) :
  String.leb a b = true -> a <> b -> String.ltb a b = true.
Proof.
  unfold String.leb, String.ltb. intros H Hne.
  destruct (String.compare a b) eqn:E; try congruence.
  exfalso. apply Hne. apply String.compare_eq_iff. exact E.
Qed.

Lemma insert_sorted_strongly (x : string) (l : list string) :
  StronglySorted (fun a b => String.leb a b = true) l ->
  StronglySorted (fun a b => String.leb a b = true) (insert_sorted String.leb x l).
Proof.
  induction l as [ | y l IH]; intros Hs; simpl.
  - constructor; constructor.
  - inversion Hs as [ | ? ? Hs' Hall ]; subst.
    destruct (String.leb x y) eqn:Hxy.
    + constructor; [ exact Hs | ]. constructor; [ exact Hxy | ].
      rewrite Forall_forall in *. intros z Hz.
      exact (string_leb_trans _ _ _ Hxy (Hall z Hz)).
    + constructor; [ exact (IH Hs') | ].
      rewrite Forall_forall in *. intros z Hz.
      apply insert_sorted_In in Hz. destruct Hz as [-> | Hz]; [ | exact (Hall z Hz) ].
      destruct (String.leb_total x y); congruence.
Qed.

Lemma sorted_strongly (l : list string) :
  StronglySorted (fun a b => String.leb a b = true) (sorted String.leb l).
Proof.
  induction l as [ | x l IH]; simpl; [ constructor | ].
  apply insert_sorted_strongly. exact IH.
Qed.

Lemma strongly_sorted_strict (l : list string) :
  NoDup l ->
  StronglySorted (fun a b => String.leb a b = true) l ->
  StronglySorted (fun a b => String.ltb a b = true) l.
Proof.
  induction l as [ | x l IH]; intros Hnd Hs; [ constructor | ].
  inversion Hnd as [ | ? ? Hx Hnd' ]; subst.
  inversion Hs as [ | ? ? Hs' Hall ]; subst.
  constructor; [ exact (IH Hnd' Hs') | ].
  rewrite Forall_forall in *. intros z Hz.
  apply string_lt_of_le_ne; [ exact (Hall z Hz) | ].
  intros ->. exact (Hx Hz).
Qed.

(** The distinct values of a column, sorted, are strictly ascending. *)
Lemma sorted_unique_strict (l : list string) :
  StronglySorted (fun a b => String.ltb a b = true) (sorted String.leb (unique l)).
Proof.
  apply strongly_sorted_strict; [ | apply sorted_strongly ].
  apply (Permutation_NoDup (Permutation_sym (sorted_perm String.leb (unique l)))).
  apply unique_NoDup.
Qed.

Lemma groupby_keys (key : Row -> string) (rs : list Row) :
  map fst (groupby key rs) = sorted String.leb (unique (map key rs)).
Proof.
  unfold groupby. rewrite map_map. simpl. apply map_id.
Qed.

Lemma groupby_In (key : Row -> string) (rs : list Row) (k : string) :
  In k (map key rs) ->
  In (k, filter (fun r => String.eqb (key r) k) rs) (groupby key rs).
Proof.
  intros H. unfold groupby.
  apply (in_map (fun k0 => (k0, filter (fun r => String.eqb (key r) k0) rs))).
  apply sorted_In, unique_In. exact H.
Qed.

(** X6. The per-closer table has one row for each closer that occurs in the
    frame and no other, in strictly ascending order of the closers' names
    (so none is listed twice). *)
Theorem X6_closer_table_rows (rs : list Row) :
  StronglySorted (fun a b => String.ltb a b = true) (map Vendedor (vendedor_stats rs))
  /\ NoDup (map Vendedor (vendedor_stats rs))
  /\ forall k, In k (map Vendedor (vendedor_stats rs)) <->
               exists r, In r rs /\ CLOSER r = k.
Proof.
  assert (E : map Vendedor (vendedor_stats rs) = sorted String.leb (unique (map CLOSER rs))).
  { rewrite <- groupby_keys. unfold vendedor_stats. rewrite !map_map.
    apply map_ext. intros [k x]. reflexivity. }
  rewrite E. split; [ apply sorted_unique_strict | ]. split.
  - apply (Permutation_NoDup (Permutation_sym (sorted_perm String.leb _))).
    apply unique_NoDup.
  - intros k. rewrite sorted_In, unique_In, in_map_iff.
    split; intros [r H]; exists r; tauto.
Qed.

(** X7. Every selector lists 'Todos' first and then the distinct values of
    its column in strictly ascending order: a value is listed after 'Todos'
    exactly when some cell of the column holds it, and an absent cell adds no
    option. *)
Theorem X7_selector_options_sorted (col : list cell) :
  exists values,
    selector_options col = "Todos" :: values
    /\ StronglySorted (fun a b => String.ltb a b = true) values
    /\ forall v, In v values <-> In (Some v) col.
Proof.
  exists (sorted String.leb (unique (dropna col))).
  split; [ reflexivity | ]. split; [ apply sorted_unique_strict | ].
  intros v. rewrite sorted_In, unique_In, dropna_In. reflexivity.
Qed.

(** ** The table against the headline metrics *)

Lemma vendedor_stats_sums (rs : list Row) :
  list_sum (map Calls_Realizadas (vendedor_stats rs)) = count_where is_call_realizada rs
  /\ list_sum (map Vendas (vendedor_stats rs)) = count_where is_ganho rs.
Proof.
  unfold vendedor_stats. rewrite !map_map. split.
  - rewrite <- (groupby_counts_sum CLOSER is_call_realizada rs).
    f_equal. apply map_ext. intros [k x]. reflexivity.
  - rewrite <- (groupby_counts_sum CLOSER is_ganho rs).
    f_equal. apply map_ext. intros [k x]. reflexivity.
Qed.

(** X8. On the closers page of a frame with rows, with 'Todos' selected,
    the headline counts are the column totals of the per-closer table: the
    held calls of all closers add up to Calls Realizadas and their sales to
    Vendas Fechadas.  (On a frame without rows no table is shown.) *)
Theorem X8_closer_table_adds_up (df : DataFrame) :
  has_col (columns df) "CLOSER" = true ->
  has_col (columns df) "STATUS" = true ->
  has_col (columns df) "VENDA REALIZADA" = true ->
  has_col (columns df) "VALOR_NUM" = true ->
  rows df <> [] ->
  let stats := vendedor_stats (rows df) in
  let page := rendered (dashboard_vendedores df "Todos") in
  In (closers_table stats) page
  /\ In (metric "Calls Realizadas" (Count (list_sum (map Calls_Realizadas stats)))) page
  /\ In (metric "Vendas Fechadas" (Count (list_sum (map Vendas stats)))) page.
Proof.
  intros Hc Hs Hv Hn Hrows stats page.
  destruct (vendedor_stats_sums (rows df)) as [E1 E2].
  unfold stats, page. rewrite E1, E2. unfold dashboard_vendedores.
  rewrite (require_present _ _ Hc), (require_present _ _ Hs),
    (require_present _ _ Hv), (require_present _ _ Hn), !bind_ret_l.
  destruct (rows df) as [ | r rs]; [ congruence | ].
  simpl. tauto.
Qed.

Lemma X8_closer_table_witness :
  rows two_products <> []
  /\ In (metric "Calls Realizadas" (Count 1))
        (rendered (dashboard_vendedores two_products "Todos"))
  /\ list_sum (map Calls_Realizadas (vendedor_stats (rows two_products))) = 1%nat.
Proof.
  assert (H : rows two_products <> []) by discriminate.
  split; [ exact H | ]. split; [ | reflexivity ].
  exact (proj1 (proj2 (X8_closer_table_adds_up two_products
                         eq_refl eq_refl eq_refl eq_refl H))).
Defined.

(** X9. On the closers page with one closer of the frame selected, the
    headline counts and revenue are those of that closer's row in the
    comparison table. *)
Theorem X9_selected_closer_matches_table_row (df : DataFrame) (k : string) :
  has_col (columns df) "CLOSER" = true ->
  has_col (columns df) "STATUS" = true ->
  has_col (columns df) "VENDA REALIZADA" = true ->
  has_col (columns df) "VALOR_NUM" = true ->
  k <> "Todos" ->
  In k (map CLOSER (rows df)) ->
  let page := rendered (dashboard_vendedores df k) in
  exists s,
    In s (vendedor_stats (rows df)) /\ Vendedor s = k
    /\ In (metric "Calls Realizadas" (Count (Calls_Realizadas s))) page
    /\ In (metric "Vendas Fechadas" (Count (Vendas s))) page
    /\ In (metric "Receita Total" (Money (Receita s))) page.
Proof.
  intros Hc Hs Hv Hn Hk Hin page.
  pose (x := filter (fun r => String.eqb (CLOSER r) k) (rows df)).
  exists {| Vendedor := k;
            Calls_Realizadas := count_where is_call_realizada x;
            Vendas := count_where is_ganho x;
            Receita := fsum (map VALOR_NUM (filter is_ganho x));
            Taxa_Conversao := taxa_col (count_where is_ganho x)
                                       (count_where is_call_realizada x) |}.
  split.
  { unfold vendedor_stats.
    apply (in_map (fun g : string * list Row =>
                     let (k0, x0) := g in
                     {| Vendedor := k0;
                        Calls_Realizadas := count_where is_call_realizada x0;
                        Vendas := count_where is_ganho x0;
                        Receita := fsum (map VALOR_NUM (filter is_ganho x0));
                        Taxa_Conversao := taxa_col (count_where is_ganho x0)
                                                   (count_where is_call_realizada x0) |})
                  _ (k, x)).
    apply groupby_In. exact Hin. }
  split; [ reflexivity | ].
  unfold page, dashboard_vendedores.
  rewrite (require_present _ _ Hc), (require_present _ _ Hs),
    (require_present _ _ Hv), (require_present _ _ Hn), !bind_ret_l.
  assert (Hsel : negb (String.eqb k "Todos") = true)
    by (apply negb_true_iff, String.eqb_neq; exact Hk).
  assert (Hr : round_rate (rows df) = ret tt).
  { unfold round_rate. destruct (rows df); [ contradiction | reflexivity ]. }
  rewrite Hsel, Hr. fold x. simpl. tauto.
Qed.

Lemma X9_selected_closer_witness :
  "Bruno" <> "Todos" /\ In "Bruno" (map CLOSER (rows two_products))
  /\ exists s,
       In s (vendedor_stats (rows two_products)) /\ Vendedor s = "Bruno"
       /\ In (metric "Calls Realizadas" (Count (Calls_Realizadas s)))
             (rendered (dashboard_vendedores two_products "Bruno"))
       /\ In (metric "Vendas Fechadas" (Count (Vendas s)))
             (rendered (dashboard_vendedores two_products "Bruno"))
       /\ In (metric "Receita Total" (Money (Receita s)))
             (rendered (dashboard_vendedores two_products "Bruno")).
Proof.
  assert (H1 : "Bruno" <> "Todos") by discriminate.
  assert (H2 : In "Bruno" (map CLOSER (rows two_products))) by (simpl; tauto).
  split; [ exact H1 | ]. split; [ exact H2 | ].
  exact (X9_selected_closer_matches_table_row two_products "Bruno"
           eq_refl eq_refl eq_refl eq_refl H1 H2).
Defined.

(** X10. In the per-SDR table the totals add up: the schedulings of all SDRs
    are the rows of the frame, and their held calls and no-shows are the
    held calls and no-shows of the frame. *)
Theorem X10_sdr_table_adds_up (rs : list Row) :
  list_sum (map sdr_Total_Agendamentos (sdr_stats rs)) = List.length rs
  /\ list_sum (map sdr_Calls_Realizadas (sdr_stats rs)) = count_where is_call_realizada rs
  /\ list_sum (map sdr_No_Shows (sdr_stats rs)) = count_where is_no_show rs.
Proof.
  unfold sdr_stats. rewrite !map_map. repeat split.
  - rewrite <- (filter_all (fun _ => true) rs) at 2 by reflexivity.
    change (List.length (filter (fun _ : Row => true) rs))
      with (count_where (fun _ => true) rs).
    rewrite <- (groupby_counts_sum SDR (fun _ => true) rs).
    f_equal. apply map_ext. intros [k x]. simpl. unfold count_where.
    rewrite filter_all by reflexivity. reflexivity.
  - rewrite <- (groupby_counts_sum SDR is_call_realizada rs).
    f_equal. apply map_ext. intros [k x]. reflexivity.
  - rewrite <- (groupby_counts_sum SDR is_no_show rs).
    f_equal. apply map_ext. intros [k x]. reflexivity.
Qed.

(** ** Rates stay within 0 and 100 *)

Lemma taxa_value (num den : nat) :
  (0 < den)%nat ->
  (taxa num den == inject_Z (Z.of_nat num) / inject_Z (Z.of_nat den) * 100)%Q.
Proof.
  intros H. unfold taxa.
  destruct (0 <? den)%nat eqn:E; [ apply Qred_correct | ].
  apply Nat.ltb_ge in E. lia.
Qed.

Lemma ratio_bounds (a n : nat) :
  (a <= n)%nat -> (0 < n)%nat ->
  (0 <= inject_Z (Z.of_nat a) / inject_Z (Z.of_nat n)
   /\ inject_Z (Z.of_nat a) / inject_Z (Z.of_nat n) <= 1)%Q.
Proof.
  intros Ha Hn.
  assert (Hn' : (0 < inject_Z (Z.of_nat n))%Q)
    by (change 0%Q with (inject_Z 0); rewrite <- Zlt_Qlt; lia).
  assert (Ha0 : (0 <= inject_Z (Z.of_nat a))%Q)
    by (change 0%Q with (inject_Z 0); rewrite <- Zle_Qle; lia).
  assert (Han : (inject_Z (Z.of_nat a) <= inject_Z (Z.of_nat n))%Q)
    by (rewrite <- Zle_Qle; lia).
  split.
  - apply Qle_shift_div_l; [ exact Hn' | ]. rewrite Qmult_0_l. exact Ha0.
  - apply Qle_shift_div_r; [ exact Hn' | ]. rewrite Qmult_1_l. exact Han.
Qed.

Lemma taxa_bounds (a n : nat) :
  (a <= n)%nat -> (0 <= taxa a n /\ taxa a n <= 100)%Q.
Proof.
  intros Ha. destruct n as [ | n].
  - unfold taxa. simpl. split; [ apply Qle_refl | discriminate ].
  - rewrite (taxa_value a (S n)) by lia.
    destruct (ratio_bounds a (S n) Ha) as [H0 H1]; [ lia | ].
    split; lra.
Qed.

Lemma show_and_no_show_disjoint (rs : list Row) :
  (count_where is_call_realizada rs + count_where is_no_show rs <= List.length rs)%nat.
Proof.
  unfold count_where. induction rs as [ | r rs IH]; simpl; [ lia | ].
  unfold is_call_realizada at 1, is_no_show at 1.
  destruct (String.eqb_spec (STATUS r) "Call Realizada") as [E | _].
  - rewrite E. simpl. lia.
  - destruct (STATUS r =? "No Show"); simpl; lia.
Qed.

Lemma count_where_le (p : Row -> bool) (rs : list Row) :
  (count_where p rs <= List.length rs)%nat.
Proof. unfold count_where. apply filter_length_le. Qed.

(** X11. On the overview the show rate and the no-show rate are
    percentages between 0 and 100, and together they never exceed 100, a row
    being a held call or a no-show but not both. *)
Theorem X11_show_and_no_show_rates (df : DataFrame) :
  has_col (columns df) "STATUS" = true ->
  has_col (columns df) "VENDA REALIZADA" = true ->
  has_col (columns df) "VALOR_NUM" = true ->
  has_col (columns df) "CICLO DE VENDAS" = true ->
  exists show no_show : Q,
    In (metric "Taxa de Show" (Percent show)) (rendered (dashboard_geral df))
    /\ In (metric "Taxa de No Show" (Percent no_show)) (rendered (dashboard_geral df))
    /\ (0 <= show)%Q /\ (0 <= no_show)%Q /\ (show + no_show <= 100)%Q.
Proof.
  intros Hs Hv Hn Hc.
  exists (taxa (count_where is_call_realizada (rows df)) (List.length (rows df))),
         (taxa (count_where is_no_show (rows df)) (List.length (rows df))).
  split; [ | split ].
  - unfold dashboard_geral, create_metrics_cards.
    rewrite !(require_present _ _ Hs), !(require_present _ _ Hv),
      !(require_present _ _ Hn), !(require_present _ _ Hc), !bind_ret_l.
    simpl. tauto.
  - unfold dashboard_geral, create_metrics_cards.
    rewrite !(require_present _ _ Hs), !(require_present _ _ Hv),
      !(require_present _ _ Hn), !(require_present _ _ Hc), !bind_ret_l.
    simpl. tauto.
  - pose proof (show_and_no_show_disjoint (rows df)) as Hd.
    pose proof (taxa_bounds _ _ (count_where_le is_call_realizada (rows df))) as [H1 _].
    pose proof (taxa_bounds _ _ (count_where_le is_no_show (rows df))) as [H2 _].
    split; [ exact H1 | ]. split; [ exact H2 | ].
    destruct (rows df) as [ | r rs] eqn:E.
    + unfold taxa. simpl. discriminate.
    + set (n := List.length (r :: rs)) in *.
      assert (Hpos : (0 < n)%nat) by (unfold n; simpl; lia).
      rewrite !(taxa_value _ n Hpos).
      set (a := count_where is_call_realizada (r :: rs)) in *.
      set (b := count_where is_no_show (r :: rs)) in *.
      assert (Hn' : (0 < inject_Z (Z.of_nat n))%Q)
        by (change 0%Q with (inject_Z 0); rewrite <- Zlt_Qlt; lia).
      assert (Hab : (inject_Z (Z.of_nat a) + inject_Z (Z.of_nat b)
                     <= inject_Z (Z.of_nat n))%Q)
        by (rewrite <- inject_Z_plus, <- Zle_Qle; lia).
      assert (Hq : (inject_Z (Z.of_nat a) / inject_Z (Z.of_nat n) * 100
                    + inject_Z (Z.of_nat b) / inject_Z (Z.of_nat n) * 100
                    == (inject_Z (Z.of_nat a) + inject_Z (Z.of_nat b))
                       / inject_Z (Z.of_nat n) * 100)%Q)
        by (field; lra).
      rewrite Hq.
      assert (Hr : ((inject_Z (Z.of_nat a) + inject_Z (Z.of_nat b))
                    / inject_Z (Z.of_nat n) <= 1)%Q)
        by (apply Qle_shift_div_r; [ exact Hn' | lra ]).
      lra.
Qed.

Lemma X11_show_and_no_show_witness :
  exists show no_show : Q,
    In (metric "Taxa de Show" (Percent show)) (rendered (dashboard_geral two_products))
    /\ In (metric "Taxa de No Show" (Percent no_show)) (rendered (dashboard_geral two_products))
    /\ (0 <= show)%Q /\ (0 <= no_show)%Q /\ (show + no_show <= 100)%Q.
Proof.
  exact (X11_show_and_no_show_rates two_products eq_refl eq_refl eq_refl eq_refl).
Defined.

Lemma rint_bounds (x : Q) (M : Z) :
  (0 <= x)%Q -> (x <= inject_Z M)%Q -> (0 <= rint x <= M)%Z.
Proof.
  intros H0 HM. unfold rint.
  assert (Hf0 : (0 <= Qfloor x)%Z)
    by (change 0%Z with (Qfloor 0); apply Qfloor_resp_le; exact H0).
  assert (HfM : (Qfloor x <= M)%Z)
    by (rewrite <- (Qfloor_Z M); apply Qfloor_resp_le; exact HM).
  assert (Hup : (inject_Z (Qfloor x) < x)%Q -> (Qfloor x + 1 <= M)%Z).
  { intros Hlt. assert (Hlt' : (inject_Z (Qfloor x) < inject_Z M)%Q) by lra.
    rewrite <- Zlt_Qlt in Hlt'. lia. }
  destruct (Qcompare (x - inject_Z (Qfloor x)) (1 # 2)) eqn:C.
  - apply Qeq_alt in C. destruct (Z.even (Qfloor x)); [ lia | ].
    split; [ lia | ]. apply Hup. lra.
  - lia.
  - apply Qgt_alt in C. split; [ lia | ]. apply Hup. lra.
Qed.

(** A share of a non-empty group, as a rounded percentage, is a finite
    number between 0 and 100. *)
Lemma taxa_col_bounds (a n : nat) :
  (a <= n)%nat -> (0 < n)%nat ->
  exists q, taxa_col a n = Fin q /\ (0 <= q)%Q /\ (q <= 100)%Q.
Proof.
  intros Ha Hn. unfold taxa_col, int_div.
  destruct (Z.of_nat n =? 0)%Z eqn:E; [ apply Z.eqb_eq in E; lia | ].
  cbn [fmul100 round1]. eexists. split; [ reflexivity | ].
  destruct (ratio_bounds a n Ha Hn) as [H0 H1].
  set (x := (Qred (Qred (inject_Z (Z.of_nat a) / inject_Z (Z.of_nat n)) * 100) * 10)%Q).
  assert (Hx : (0 <= x /\ x <= inject_Z 1000)%Q).
  { unfold x. rewrite !Qred_correct. change (inject_Z 1000) with 1000%Q. split; lra. }
  destruct (rint_bounds x 1000 (proj1 Hx) (proj2 Hx)) as [R0 R1].
  rewrite Qred_correct.
  rewrite Zle_Qle in R0, R1.
  change (inject_Z 0) with 0%Q in R0. change (inject_Z 1000) with 1000%Q in R1.
  set (y := inject_Z (rint x)) in *. clearbody y. clear Hx. clearbody x.
  split.
  - apply Qle_shift_div_l; [ reflexivity | lra ].
  - apply Qle_shift_div_r; [ reflexivity | lra ].
Qed.

(** X12. In the per-SDR table the show rate of every SDR is a finite
    percentage between 0 and 100: a group of [groupby] is never empty, so the
    unguarded division of the column never meets a zero. *)
Theorem X12_sdr_show_rate_bounds (rs : list Row) (s : sdr_stats_row) :
  In s (sdr_stats rs) ->
  exists q, sdr_Taxa_Show s = Fin q /\ (0 <= q)%Q /\ (q <= 100)%Q.
Proof.
  unfold sdr_stats. rewrite in_map_iff. intros [[k x] [<- Hg]]. simpl.
  apply taxa_col_bounds; [ apply count_where_le | ].
  exact (groupby_nonempty _ _ _ _ Hg).
Qed.

Lemma X12_sdr_show_rate_witness :
  In {| sdr_SDR := "Ana"; sdr_Total_Agendamentos := 2;
        sdr_Calls_Realizadas := 1; sdr_No_Shows := 1;
        sdr_Taxa_Show := Fin 50 |}
     (sdr_stats (rows no_call_df))
  /\ exists q, Fin 50 = Fin q /\ (0 <= q)%Q /\ (q <= 100)%Q.
Proof.
  assert (H : In {| sdr_SDR := "Ana"; sdr_Total_Agendamentos := 2;
                    sdr_Calls_Realizadas := 1; sdr_No_Shows := 1;
                    sdr_Taxa_Show := Fin 50 |}
                 (sdr_stats (rows no_call_df)))
    by (vm_compute; left; reflexivity).
  split; [ exact H | ].
  exact (X12_sdr_show_rate_bounds (rows no_call_df) _ H).
Defined.

(** X13. In the conversion chart of the funnels page, which groups the held
    calls only, every funnel shown has a finite conversion rate between 0 and
    100, and a funnel without a held call is not shown at all. *)
Theorem X13_funnel_conversion_chart (rs : list Row) (k : string) :
  (forall v, In (k, v) (conversao_funil rs) ->
             exists q, v = Fin q /\ (0 <= q)%Q /\ (q <= 100)%Q)
  /\ (In k (map fst (conversao_funil rs)) <->
      exists r, In r rs /\ FUNIL r = k /\ STATUS r = "Call Realizada").
Proof.
  split.
  - intros v. unfold conversao_funil. rewrite in_map_iff. intros [[k' x] [E Hg]].
    injection E as _ <-.
    apply taxa_col_bounds; [ apply count_where_le | ].
    exact (groupby_nonempty _ _ _ _ Hg).
  - assert (E : map fst (conversao_funil rs)
                = map fst (groupby FUNIL (filter is_call_realizada rs))).
    { unfold conversao_funil. rewrite map_map. apply map_ext. intros [k' x]. reflexivity. }
    rewrite E, groupby_keys, sorted_In, unique_In, in_map_iff.
    split.
    + intros [r [Hk Hr]]. apply filter_In in Hr. destruct Hr as [Hr Hc].
      exists r. unfold is_call_realizada in Hc. apply String.eqb_eq in Hc. auto.
    + intros [r [Hr [Hk Hc]]]. exists r. split; [ exact Hk | ].
      apply filter_In. split; [ exact Hr | ].
      unfold is_call_realizada. rewrite Hc. reflexivity.
Qed.

(* ================================================================== *)
(** * Further properties of the loader *)

(** ** Trimmed text *)

Lemma rev_string_app (a b : string) :
  rev_string (a ++ b) = (rev_string b ++ rev_string a)%string.
Proof.
  unfold rev_string. rewrite chars_app, rev_app_distr. apply string_of_chars_app.
Qed.

Lemma rev_string_involutive (s : string) : rev_string (rev_string s) = s.
Proof.
  unfold rev_string.
  rewrite list_ascii_of_string_of_list_ascii, rev_involutive.
  apply string_of_list_ascii_of_string.
Qed.

Lemma rev_string_length (s : string) : String.length (rev_string s) = String.length s.
Proof.
  induction s as [ | c s IH]; [ reflexivity | ].
  change (String c s) with (String c "" ++ s)%string.
  rewrite rev_string_app, !length_append, IH. simpl. lia.
Qed.

Lemma after_spec (w s t : string) : after w s = Some t -> s = (w ++ t)%string.
Proof.
  revert s. induction w as [ | a w IH]; intros s H; simpl in H |- *.
  - destruct s; congruence.
  - destruct s as [ | b s]; [ discriminate H | ].
    destruct (Ascii.eqb_spec a b) as [-> | _]; [ | discriminate H ].
    simpl. f_equal. apply IH. exact H.
Qed.

Lemma after_complete (w t : string) : after w (w ++ t) = Some t.
Proof.
  induction w as [ | a w IH]; simpl; [ reflexivity | ].
  rewrite Ascii.eqb_refl. exact IH.
Qed.

Lemma after_any_spec (ws : list string) (s t : string) :
  after_any ws s = Some t -> exists w, In w ws /\ s = (w ++ t)%string.
Proof.
  induction ws as [ | w ws IH]; simpl; [ discriminate | ].
  destruct (after w s) as [u | ] eqn:E.
  - intros H. injection H as <-. exists w. split; [ left; reflexivity | ].
    apply after_spec. exact E.
  - intros H. destruct (IH H) as [w' [Hin Hs]]. exists w'. auto.
Qed.

Lemma after_any_none (ws : list string) (s : string) :
  after_any ws s = None -> forall w t, In w ws -> s <> (w ++ t)%string.
Proof.
  induction ws as [ | w ws IH]; simpl; intros H w' t Hin; [ contradiction | ].
  destruct (after w s) as [u | ] eqn:E; [ discriminate H | ].
  destruct Hin as [<- | Hin].
  - intros ->. rewrite after_complete in E. discriminate E.
  - apply IH; assumption.
Qed.

Lemma made_of_app (ws : list string) (a b : string) :
  made_of ws a -> made_of ws b -> made_of ws (a ++ b).
Proof.
  induction 1 as [ | w t Hw Ht IH]; intros Hb; [ exact Hb | ].
  rewrite app_string_assoc. constructor; auto.
Qed.

Lemma made_of_rev (ws : list string) (a : string) :
  made_of (map rev_string ws) a -> made_of ws (rev_string a).
Proof.
  induction 1 as [ | w t Hw Ht IH]; [ constructor | ].
  rewrite rev_string_app. apply made_of_app; [ exact IH | ].
  apply in_map_iff in Hw. destruct Hw as [w' [<- Hw']].
  rewrite rev_string_involutive.
  rewrite <- (append_empty_r w'). constructor; [ exact Hw' | constructor ].
Qed.

(** What was dropped is made of the words, and what is left starts with
    none of them. *)
Lemma drop_leading_split (ws : list string) (fuel : nat) (s : string) :
  exists a, made_of ws a /\ s = (a ++ drop_leading ws fuel s)%string.
Proof.
  revert s. induction fuel as [ | fuel IH]; intros s; simpl.
  - exists ""%string. split; [ constructor | reflexivity ].
  - destruct (after_any ws s) as [t | ] eqn:E.
    + destruct (after_any_spec ws s t E) as [w [Hw ->]].
      destruct (IH t) as [a [Ha Ht]].
      exists (w ++ a)%string. split; [ constructor; assumption | ].
      rewrite app_string_assoc, <- Ht. reflexivity.
    + exists ""%string. split; [ constructor | reflexivity ].
Qed.

Lemma drop_leading_done (ws : list string) (fuel : nat) (s : string) :
  (forall w, In w ws -> w <> ""%string) ->
  (String.length s <= fuel)%nat ->
  after_any ws (drop_leading ws fuel s) = None.
Proof.
  intros Hne. revert s. induction fuel as [ | fuel IH]; intros s Hlen; simpl.
  - destruct s; [ | simpl in Hlen; lia ].
    destruct (after_any ws "") as [t | ] eqn:E; [ | reflexivity ].
    destruct (after_any_spec ws "" t E) as [w [Hw Hs]].
    destruct w; [ exfalso; exact (Hne _ Hw eq_refl) | discriminate Hs ].
  - destruct (after_any ws s) as [t | ] eqn:E; [ | exact E ].
    apply IH. destruct (after_any_spec ws s t E) as [w [Hw ->]].
    rewrite length_append in Hlen.
    destruct w; [ exfalso; exact (Hne _ Hw eq_refl) | simpl in Hlen; lia ].
Qed.

Lemma white_space_nonempty (w : string) : In w white_space -> w <> ""%string.
Proof.
  assert (A : forallb (fun w => negb (String.eqb w "")) white_space = true)
    by (vm_compute; reflexivity).
  rewrite forallb_forall in A. intros Hw E. specialize (A w Hw).
  rewrite E in A. discriminate A.
Qed.

Lemma lstrip_spec (s : string) :
  ~ starts_blank (lstrip s)
  /\ exists a, blank a /\ s = (a ++ lstrip s)%string.
Proof.
  unfold lstrip. split.
  - intros [w [t [Hw E]]].
    pose proof (drop_leading_done white_space (String.length s) s
                  white_space_nonempty (le_n _)) as Hd.
    exact (after_any_none _ _ Hd w t Hw E).
  - apply drop_leading_split.
Qed.

Lemma rstrip_spec (s : string) :
  ~ ends_blank (rstrip s)
  /\ exists b, blank b /\ s = (rstrip s ++ b)%string.
Proof.
  unfold rstrip.
  set (ws := map rev_string white_space).
  set (t := drop_leading ws (String.length s) (rev_string s)).
  assert (Hne : forall w, In w ws -> w <> ""%string).
  { intros w Hw E. apply in_map_iff in Hw. destruct Hw as [w' [Hr Hw']].
    apply (white_space_nonempty w' Hw').
    rewrite <- (rev_string_involutive w'), Hr, E. reflexivity. }
  split.
  - intros [w [u [Hw E]]].
    assert (Hd : after_any ws t = None).
    { apply drop_leading_done; [ exact Hne | rewrite rev_string_length; lia ]. }
    apply (after_any_none _ _ Hd (rev_string w) (rev_string u)).
    + apply in_map. exact Hw.
    + rewrite <- rev_string_app, <- E. symmetry. apply rev_string_involutive.
  - destruct (drop_leading_split ws (String.length s) (rev_string s)) as [a [Ha E]].
    fold t in E. exists (rev_string a). split; [ apply made_of_rev; exact Ha | ].
    rewrite <- rev_string_app, <- E. symmetry. apply rev_string_involutive.
Qed.

(** [strip] gives the text without the white space at its two ends. *)
Lemma strip_spec (s : string) : trimmed_of s (strip s).
Proof.
  unfold trimmed_of, strip.
  destruct (lstrip_spec s) as [Hl [a [Ha Ea]]].
  destruct (rstrip_spec (lstrip s)) as [Hr [b [Hb Eb]]].
  split; [ | split; [ exact Hr | ] ].
  - intros [w [t [Hw E]]]. apply Hl. exists w, (t ++ b)%string.
    split; [ exact Hw | ]. rewrite Eb at 1. rewrite E. apply app_string_assoc.
  - exists a, b. split; [ exact Ha | ]. split; [ exact Hb | ].
    rewrite <- Eb. exact Ea.
Qed.

Lemma load_data_rows_of (rt : runtime) (m : list (list string)) (df : DataFrame) :
  load_data rt m = Some df ->
  exists header body,
    m = header :: body /\ rows df = load_rows rt (map strip header) 0 body.
Proof.
  destruct m as [ | header body]; simpl; [ discriminate | ].
  destruct (frame_fits header body); [ | discriminate ].
  destruct (conversions_apply (map strip header)); [ | discriminate ].
  intros H. injection H as <-. exists header, body. auto.
Qed.

(** X14. Every row [load_data] builds has its five text fields trimmed:
    each of SDR, CLOSER, FUNIL, STATUS and VENDA REALIZADA is the text of its
    cell in the sheet without the white space at its two ends, so that it
    neither starts nor ends with a white-space character (the ASCII ones and
    those beyond, such as the no-break space). *)
Theorem X14_loaded_text_is_trimmed
    (rt : runtime) (m : list (list string)) (df : DataFrame) (r : Row) :
  load_data rt m = Some df ->
  In r (rows df) ->
  exists header body raw,
    m = header :: body /\ In raw body
    /\ let cols := map strip header in
       let text name := astype_str (get_cell cols name raw) in
       (has_col cols "SDR" = true -> trimmed_of (text "SDR") (SDR r))
       /\ (has_col cols "CLOSER" = true -> trimmed_of (text "CLOSER") (CLOSER r))
       /\ (has_col cols "FUNIL" = true -> trimmed_of (text "FUNIL") (FUNIL r))
       /\ (has_col cols "STATUS" = true -> trimmed_of (text "STATUS") (STATUS r))
       /\ (has_col cols "VENDA REALIZADA" = true ->
           trimmed_of (text "VENDA REALIZADA") (VENDA_REALIZADA r)).
Proof.
  intros Hload Hr.
  destruct (load_data_rows_of rt m df Hload) as [header [body [-> E]]].
  rewrite E in Hr. apply load_rows_In in Hr. destruct Hr as [j [raw [Hraw ->]]].
  exists header, body, raw. split; [ reflexivity | ]. split; [ exact Hraw | ].
  unfold load_row. cbn [SDR CLOSER FUNIL STATUS VENDA_REALIZADA]. cbv zeta.
  split; [ | split; [ | split; [ | split ] ] ]; intros Hcol; rewrite Hcol; apply strip_spec.
Qed.

Lemma X14_loaded_text_witness :
  load_data sample_run padded_matrix = Some scenario_df
  /\ In scenario_row (rows scenario_df)
  /\ trimmed_of (nbsp ++ " Call Realizada" ++ tabulation ++ ideographic_space)%string
                "Call Realizada".
Proof.
  assert (H1 : load_data sample_run padded_matrix = Some scenario_df)
    by (vm_compute; reflexivity).
  assert (H2 : In scenario_row (rows scenario_df)) by (left; reflexivity).
  split; [ exact H1 | ]. split; [ exact H2 | ].
  destruct (X14_loaded_text_is_trimmed sample_run padded_matrix scenario_df scenario_row
              H1 H2)
    as [header [body [raw [E [Hraw [_ [_ [_ [Hs _]]]]]]]]].
  injection E as <- <-. destruct Hraw as [<- | []].
  apply Hs. reflexivity.
Defined.

(** ** Short rows *)

Lemma index_of_has_col (name : string) (cols : list string) (i : nat) :
  index_of name cols = Some i -> has_col cols name = true.
Proof.
  revert i. induction cols as [ | c cols IH]; simpl; intros i H; [ discriminate | ].
  destruct (String.eqb name c); [ reflexivity | ].
  destruct (index_of name cols) as [j | ]; [ | discriminate ].
  simpl. exact (IH j eq_refl).
Qed.

Lemma get_cell_beyond (cols : list string) (name : string) (raw : list string) (i : nat) :
  index_of name cols = Some i -> (List.length raw <= i)%nat ->
  get_cell cols name raw = None.
Proof.
  intros Hi Hlen. unfold get_cell. rewrite Hi. apply nth_error_None. exact Hlen.
Qed.

(** X15. In a row that stops before a column (the sheet leaves out trailing
    empty cells), the missing cell is read as absent for a date and for the
    sales cycle and as 0 for the amount, but as the text [None] for a text
    column. *)
Theorem X15_cells_missing_from_short_row
    (rt : runtime) (j : nat) (cols raw : list string) :
  (forall name, In name ["DATA"; "STATUS"; "VALOR"; "CICLO DE VENDAS"] ->
                exists i, index_of name cols = Some i /\ (List.length raw <= i)%nat) ->
  DATA (load_row rt j cols raw) = None
  /\ STATUS (load_row rt j cols raw) = "None"
  /\ VALOR_NUM (load_row rt j cols raw) = Fin 0
  /\ CICLO_DE_VENDAS (load_row rt j cols raw) = NaN.
Proof.
  intros H.
  assert (Hcell : forall name,
             In name ["DATA"; "STATUS"; "VALOR"; "CICLO DE VENDAS"] ->
             has_col cols name = true /\ get_cell cols name raw = None).
  { intros name Hin. destruct (H name Hin) as [i [Hi Hlen]].
    split; [ exact (index_of_has_col _ _ _ Hi) | exact (get_cell_beyond _ _ _ _ Hi Hlen) ]. }
  destruct (Hcell "DATA") as [D1 D2]; [ simpl; tauto | ].
  destruct (Hcell "STATUS") as [S1 S2]; [ simpl; tauto | ].
  destruct (Hcell "VALOR") as [V1 V2]; [ simpl; tauto | ].
  destruct (Hcell "CICLO DE VENDAS") as [C1 C2]; [ simpl; tauto | ].
  unfold load_row. simpl. rewrite D1, D2, S1, S2, V1, V2, C1, C2.
  repeat split; vm_compute; reflexivity.
Qed.

Lemma X15_short_row_witness :
  (forall name, In name ["DATA"; "STATUS"; "VALOR"; "CICLO DE VENDAS"] ->
                exists i, index_of name ["SDR"; "DATA"; "STATUS"; "VALOR"; "CICLO DE VENDAS"]
                          = Some i /\ (List.length ["Ana"] <= i)%nat)
  /\ STATUS (load_row sample_run 0 ["SDR"; "DATA"; "STATUS"; "VALOR"; "CICLO DE VENDAS"]
                      ["Ana"]) = "None".
Proof.
  assert (H : forall name, In name ["DATA"; "STATUS"; "VALOR"; "CICLO DE VENDAS"] ->
                exists i, index_of name ["SDR"; "DATA"; "STATUS"; "VALOR"; "CICLO DE VENDAS"]
                          = Some i /\ (List.length ["Ana"] <= i)%nat).
  { intros name [<- | [<- | [<- | [<- | []]]]]; eexists; (split; [ reflexivity | simpl; lia ]). }
  split; [ exact H | ].
  exact (proj1 (proj2 (X15_cells_missing_from_short_row sample_run 0 _ _ H))).
Defined.

(** ** Sheets that do not load *)

Lemma max_width_ge (body : list (list string)) (r : list string) :
  In r body -> (List.length r <= max_width body)%nat.
Proof.
  induction body as [ | x body IH]; simpl; intros H; [ contradiction | ].
  destruct H as [-> | H]; [ lia | ]. specialize (IH H). lia.
Qed.

Lemma max_width_lt (body : list (list string)) (n : nat) :
  (0 < n)%nat -> (forall r, In r body -> (List.length r < n)%nat) ->
  (max_width body < n)%nat.
Proof.
  intros Hn. induction body as [ | x body IH]; simpl; intros H; [ exact Hn | ].
  assert (Hx := H x (or_introl eq_refl)).
  assert (Hb : (max_width body < n)%nat) by (apply IH; intros r Hr; apply H; right; exact Hr).
  lia.
Qed.

(** X16. A sheet with data rows does not load when none of its rows is as
    wide as the header (the API leaves out trailing empty cells, so this is a
    sheet whose last columns are empty everywhere), nor when some row is wider
    than the header: [load_data] returns [None]. *)
Theorem X16_rows_must_fit_header
    (rt : runtime) (header : list string) (body : list (list string)) :
  body <> [] ->
  (forall r, In r body -> (List.length r < List.length header)%nat)
  \/ (exists r, In r body /\ (List.length header < List.length r)%nat) ->
  load_data rt (header :: body) = None.
Proof.
  intros Hne H. simpl.
  assert (Hfit : frame_fits header body = false).
  { unfold frame_fits. destruct body as [ | x body]; [ congruence | ].
    apply Nat.eqb_neq. destruct H as [H | [r [Hr Hlen]]].
    - assert (Hn : (0 < List.length header)%nat)
        by (specialize (H x (or_introl eq_refl)); lia).
      pose proof (max_width_lt (x :: body) _ Hn H). lia.
    - pose proof (max_width_ge (x :: body) r Hr). lia. }
  rewrite Hfit. reflexivity.
Qed.

Lemma X16_rows_must_fit_witness :
  [["01/03/2024"; "Ana"]] <> []
  /\ load_data sample_run [["DATA"; "SDR"; "STATUS"]; ["01/03/2024"; "Ana"]] = None.
Proof.
  assert (H1 : [["01/03/2024"; "Ana"]] <> []) by discriminate.
  split; [ exact H1 | ].
  apply (X16_rows_must_fit_header sample_run ["DATA"; "SDR"; "STATUS"]
           [["01/03/2024"; "Ana"]] H1).
  left. intros r [<- | []]. simpl. lia.
Defined.

(** X17. [main] builds the dashboards exactly when the API call answers
    with a matrix that has a non-empty header row and at least one data row,
    whose widest data row is as wide as the header and in which, once the
    names are trimmed of white space (the ASCII one and that beyond), no
    converted column occurs twice and, if there is a VALOR column, at most one
    column is called VALOR_NUM; a failed call, an answer without values and a
    sheet with its header row only all lead to the error page. *)
Theorem X17_when_the_dashboards_are_built (rt : runtime) (reply : sheets_reply) :
  (exists df, main_data rt reply = Some df) <->
  exists header body,
    reply = answered (Some (header :: body))
    /\ header <> [] /\ body <> []
    /\ max_width body = List.length header
    /\ conversions_apply (map strip header) = true.
Proof.
  unfold main_data, df_empty. split.
  - intros [df H].
    destruct reply as [ | [[ | header body] | ]]; try discriminate H.
    exists header, body. simpl in H.
    destruct (frame_fits header body) eqn:Hfit; [ | discriminate H ].
    destruct (conversions_apply (map strip header)) eqn:Hconv; [ | discriminate H ].
    simpl in H. rewrite load_rows_length in H.
    destruct body as [ | x body]; [ rewrite orb_true_r in H; discriminate H | ].
    destruct header as [ | h header].
    + simpl in H. discriminate H.
    + repeat split; try discriminate.
      unfold frame_fits in Hfit. apply Nat.eqb_eq in Hfit. exact Hfit.
  - intros [header [body [-> [Hh [Hb [Hw Hc]]]]]]. simpl.
    assert (Hfit : frame_fits header body = true).
    { unfold frame_fits. destruct body; [ reflexivity | ]. apply Nat.eqb_eq. exact Hw. }
    rewrite Hfit, Hc. simpl. rewrite load_rows_length.
    destruct body as [ | x body]; [ congruence | ].
    destruct header as [ | h header]; [ congruence | ].
    assert (Hcols : (List.length
                       (if has_col (map strip (h :: header)) "VALOR"
                           && negb (has_col (map strip (h :: header)) "VALOR_NUM")
                        then map strip (h :: header) ++ ["VALOR_NUM"]
                        else map strip (h :: header)) =? 0)%nat = false).
    { destruct (_ && _); simpl; reflexivity. }
    rewrite Hcols. simpl. eexists. reflexivity.
Qed.

(** ** Amounts with stray characters *)

Lemma prefix_skipn (c : ascii) (pat s : string) :
  prefix pat s = true ->
  ~ In c (list_ascii_of_string pat) ->
  In c (list_ascii_of_string s) ->
  In c (skipn (String.length pat) (list_ascii_of_string s)).
Proof.
  revert s. induction pat as [ | p pat IH]; intros s Hp Hc Hin; [ exact Hin | ].
  destruct s as [ | x s]; [ discriminate Hp | ].
  simpl in Hp. destruct (ascii_dec p x) as [-> | _]; [ | discriminate Hp ].
  simpl in *. apply IH; [ exact Hp | tauto | ].
  destruct Hin as [-> | Hin]; [ exfalso; apply Hc; left; reflexivity | exact Hin ].
Qed.

(** A character that is not in the pattern is never lost by a replacement. *)
Lemma replace_keeps (c p : ascii) (pat rep : string) :
  ~ In c (list_ascii_of_string (String p pat)) ->
  forall (s : string) (skip : nat),
    In c (skipn skip (list_ascii_of_string s)) ->
    In c (list_ascii_of_string (replace_from (String p pat) rep skip s)).
Proof.
  intros Hc. induction s as [ | x s IH]; intros skip Hin.
  - destruct skip; exact Hin.
  - destruct skip as [ | k].
    + cbn [replace_from]. destruct (prefix (String p pat) (String x s)) eqn:Hp.
      * rewrite chars_app. apply in_or_app. right. apply IH.
        pose proof (prefix_skipn c _ _ Hp Hc Hin) as H.
        simpl in H. simpl. rewrite Nat.sub_0_r. exact H.
      * simpl in Hin |- *. destruct Hin as [-> | Hin]; [ left; reflexivity | ].
        right. apply (IH 0%nat). exact Hin.
    + cbn [replace_from]. apply IH. exact Hin.
Qed.

Lemma str_replace_keeps (c p : ascii) (pat rep s : string) :
  ~ In c (list_ascii_of_string (String p pat)) ->
  In c (list_ascii_of_string s) ->
  In c (list_ascii_of_string (str_replace (String p pat) rep s)).
Proof.
  intros Hc Hin. unfold str_replace. apply replace_keeps; assumption.
Qed.

Lemma lower_In (c : ascii) (w : string) :
  In c (list_ascii_of_string w) ->
  In (tolower_ascii c) (list_ascii_of_string (lower w)).
Proof.
  induction w as [ | x w IH]; simpl; [ tauto | ].
  intros [-> | H]; [ left; reflexivity | right; exact (IH H) ].
Qed.

Lemma existsb_eqb_In (x : ascii) (l : list ascii) :
  In x l -> existsb (Ascii.eqb x) l = true.
Proof.
  intros H. apply existsb_exists. exists x. split; [ exact H | apply Ascii.eqb_refl ].
Qed.

(** A text with a stray character is none of the spellings of NaN and
    infinity. *)
Lemma stray_not_special (c : ascii) (w word : string) :
  In c (list_ascii_of_string w) ->
  existsb (Ascii.eqb (tolower_ascii c)) (list_ascii_of_string "nainfty+-") = false ->
  incl (list_ascii_of_string word) (list_ascii_of_string "nainfty+-") ->
  String.eqb (lower w) word = false.
Proof.
  intros Hin Hs Hincl. apply String.eqb_neq. intros E.
  apply lower_In in Hin. rewrite E in Hin. apply Hincl in Hin.
  apply existsb_eqb_In in Hin. congruence.
Qed.

Ltac word_incl := intros a Ha; simpl in Ha |- *; intuition.

(** X18. A currency cell that holds any stray character (a letter, a
    currency sign other than the prefix, a percent sign, ...) is given the
    amount 0, whatever else it holds. *)
Theorem X18_stray_character_zeroes_amount (s : string) (c : ascii) :
  In c (list_ascii_of_string s) ->
  stray_char c = true ->
  valor_num (Some s) = Fin 0.
Proof.
  intros Hin Hstray. unfold stray_char in Hstray.
  apply andb_true_iff in Hstray. destruct Hstray as [Hstray Hsp].
  apply andb_true_iff in Hstray. destruct Hstray as [Hnum Hrem].
  apply negb_true_iff in Hnum, Hrem, Hsp.
  assert (HR : c <> "R"%char /\ c <> "$"%char /\ c <> ","%char).
  { simpl in Hrem. repeat split; intros ->; discriminate Hrem. }
  assert (Hsp' : c <> " "%char /\ c <> "."%char)
    by (split; intros ->; discriminate Hnum).
  set (s1 := str_replace "R$ " "" s).
  set (s2 := str_replace "." "" s1).
  set (s3 := str_replace "," "." s2).
  assert (H1 : In c (list_ascii_of_string s1))
    by (apply str_replace_keeps; [ simpl; intuition congruence | exact Hin ]).
  assert (H2 : In c (list_ascii_of_string s2))
    by (apply str_replace_keeps; [ simpl; intuition congruence | exact H1 ]).
  assert (H3 : In c (list_ascii_of_string s3))
    by (apply str_replace_keeps; [ simpl; intuition congruence | exact H2 ]).
  assert (Hclean : clean_valor s = s3).
  { unfold clean_valor. fold s1 s2 s3. destruct s3; [ contradiction | reflexivity ]. }
  unfold valor_num, astype_str, to_numeric, floatify. rewrite Hclean.
  destruct (to_double s3) as [q | ] eqn:E.
  - apply to_double_chars in E. rewrite Forall_forall in E.
    specialize (E c H3). congruence.
  - cbv zeta.
    rewrite (stray_not_special c s3 "nan" H3 Hsp) by word_incl.
    rewrite (stray_not_special c s3 "inf" H3 Hsp) by word_incl.
    rewrite (stray_not_special c s3 "+inf" H3 Hsp) by word_incl.
    rewrite (stray_not_special c s3 "infinity" H3 Hsp) by word_incl.
    rewrite (stray_not_special c s3 "+infinity" H3 Hsp) by word_incl.
    rewrite (stray_not_special c s3 "-inf" H3 Hsp) by word_incl.
    rewrite (stray_not_special c s3 "-infinity" H3 Hsp) by word_incl.
    reflexivity.
Qed.

Lemma X18_stray_character_witness :
  In "%"%char (list_ascii_of_string "R$ 1.000,00 (50%)")
  /\ stray_char "%" = true
  /\ valor_num (Some "R$ 1.000,00 (50%)") = Fin 0.
Proof.
  assert (H1 : In "%"%char (list_ascii_of_string "R$ 1.000,00 (50%)"))
    by (simpl; tauto).
  assert (H2 : stray_char "%" = true) by reflexivity.
  split; [ exact H1 | ]. split; [ exact H2 | ].
  exact (X18_stray_character_zeroes_amount _ _ H1 H2).
Defined.

(** ** The tables of the cycle page *)

Lemma groupby_rows (key : Row -> string) (rs : list Row) (k : string) (x : list Row) :
  In (k, x) (groupby key rs) -> forall r, In r x -> In r rs.
Proof.
  unfold groupby. rewrite in_map_iff. intros [k' [E _]] r Hr.
  injection E as _ <-. apply filter_In in Hr. tauto.
Qed.

Lemma filter_map_length {A B} (f : A -> B) (p : B -> bool) (l : list A) :
  List.length (filter p (map f l)) = List.length (filter (fun a => p (f a)) l).
Proof.
  induction l as [ | a l IH]; simpl; [ reflexivity | ].
  destruct (p (f a)); simpl; rewrite IH; reflexivity.
Qed.

(** The counts of a cycle table add up to the rows it was built from, when
    each of them has a cycle. *)
Lemma ciclo_por_sum (key : Row -> string) (rs : list Row) :
  list_sum (map Quantidade (ciclo_por key (filter ciclo_preenchido rs)))
  = count_where ciclo_preenchido rs.
Proof.
  set (p := fun r : Row => notna (CICLO_DE_VENDAS r)).
  unfold ciclo_por. rewrite map_map.
  transitivity (count_where p (filter ciclo_preenchido rs)).
  - rewrite <- (groupby_counts_sum key p (filter ciclo_preenchido rs)).
    f_equal. apply map_ext. intros [k x]. simpl.
    exact (filter_map_length CICLO_DE_VENDAS notna x).
  - unfold count_where. rewrite filter_all; [ reflexivity | ].
    intros r Hr. apply filter_In in Hr. unfold p.
    apply positive_notna, ciclo_preenchido_positive. tauto.
Qed.

Lemma ciclo_por_rows (key : Row -> string) (rs : list Row) (s : ciclo_stats) :
  In s (ciclo_por key (filter ciclo_preenchido rs)) ->
  (1 <= Quantidade s)%nat /\ positive (Ciclo_Medio s) /\ positive (Ciclo_Mediano s).
Proof.
  unfold ciclo_por. rewrite in_map_iff. intros [[k x] [<- Hg]]. simpl.
  pose proof (groupby_nonempty _ _ _ _ Hg) as Hne.
  assert (Hpos : Forall positive (map CICLO_DE_VENDAS x)).
  { rewrite Forall_forall. intros v Hv. rewrite in_map_iff in Hv.
    destruct Hv as [r [<- Hr]]. apply (groupby_rows _ _ _ _ Hg) in Hr.
    apply filter_In in Hr. apply ciclo_preenchido_positive. tauto. }
  assert (Hx : map CICLO_DE_VENDAS x <> []).
  { destruct x; [ simpl in Hne; lia | discriminate ]. }
  rewrite (filter_notna_positive _ Hpos), length_map.
  split; [ lia | ]. split; [ apply fmean_positive | apply fmedian_positive ]; assumption.
Qed.

(** X19. Each of the two summary tables of the cycle page gives every group
    it lists at least one sale and a strictly positive mean and median cycle,
    so no absent value and no zero; and the sales of its groups add up to the
    rows of the frame that have a cycle. *)
Theorem X19_cycle_tables (df : DataFrame) (title : string) (t : list ciclo_stats) :
  In (ciclo_table title t) (rendered (dashboard_ciclo_vendas df)) ->
  list_sum (map Quantidade t) = count_where ciclo_preenchido (rows df)
  /\ forall s, In s t ->
       (1 <= Quantidade s)%nat /\ positive (Ciclo_Medio s) /\ positive (Ciclo_Mediano s).
Proof.
  unfold dashboard_ciclo_vendas, require.
  destruct (has_col (columns df) "CICLO DE VENDAS"); [ | simpl; tauto ].
  rewrite bind_ret_l.
  destruct (List.length (filter ciclo_preenchido (rows df)) =? 0)%nat.
  { simpl. intros [H | []]. discriminate H. }
  destruct (has_col (columns df) "FUNIL"), (has_col (columns df) "CLOSER");
    unfold bind, ret, emit; simpl; intros H;
    repeat (destruct H as [H | H]; try discriminate H); try contradiction;
    injection H as _ <-;
    (split; [ apply ciclo_por_sum | intros s; apply ciclo_por_rows ]).
Qed.

Lemma X19_cycle_tables_witness :
  list_sum (map Quantidade (ciclo_por FUNIL (filter ciclo_preenchido (rows two_products))))
  = count_where ciclo_preenchido (rows two_products)
  /\ forall s, In s (ciclo_por FUNIL (filter ciclo_preenchido (rows two_products))) ->
       (1 <= Quantidade s)%nat /\ positive (Ciclo_Medio s) /\ positive (Ciclo_Mediano s).
Proof.
  apply (X19_cycle_tables two_products "Resumo por Funil").
  vm_compute. tauto.
Defined.

(** ** Dates the sheet writes are read back *)

Lemma In_Z_range (lo : Z) (len : nat) (n : Z) :
  (lo <= n < lo + Z.of_nat len)%Z -> In n (Z_range lo len).
Proof.
  intros H. unfold Z_range. apply in_map_iff. exists (Z.to_nat (n - lo)).
  split; [ lia | ]. apply in_seq. lia.
Qed.

Lemma reads_back_spec (write : Z -> string) (read : string -> option Z) (n : Z) :
  reads_back write read n = true -> read (write n) = Some n /\ lacks "/" (write n).
Proof.
  unfold reads_back. rewrite andb_true_iff. intros [H1 H2]. split.
  - destruct (read (write n)) as [m | ]; [ | discriminate H1 ].
    apply Z.eqb_eq in H1. congruence.
  - unfold lacks. rewrite forallb_forall in H2. rewrite Forall_forall.
    intros c Hc E. specialize (H2 c Hc). rewrite E in H2. discriminate H2.
Qed.

Lemma days_read_back (rt : runtime) (d : Z) :
  (1 <= d <= 31)%Z -> match_d rt (two_digits d) = Some d /\ lacks "/" (two_digits d).
Proof.
  intros H. apply reads_back_spec.
  assert (A : forallb (reads_back two_digits (match_d rt)) (Z_range 1 31) = true)
    by (vm_compute; reflexivity).
  rewrite forallb_forall in A. apply A. apply In_Z_range. lia.
Qed.

Lemma months_read_back (m : Z) :
  (1 <= m <= 12)%Z -> match_m (two_digits m) = Some m /\ lacks "/" (two_digits m).
Proof.
  intros H. apply reads_back_spec.
  assert (A : forallb (reads_back two_digits match_m) (Z_range 1 12) = true)
    by (vm_compute; reflexivity).
  rewrite forallb_forall in A. apply A. apply In_Z_range. lia.
Qed.

Lemma years_read_back (rt : runtime) (y : Z) :
  (1677 <= y <= 2262)%Z ->
  match_Y rt (four_digits y) = Some y /\ lacks "/" (four_digits y).
Proof.
  intros H. apply reads_back_spec.
  assert (A : forallb (reads_back four_digits (match_Y rt)) (Z_range 1677 586) = true)
    by (vm_compute; reflexivity).
  rewrite forallb_forall in A. apply A. apply In_Z_range. lia.
Qed.

Lemma days_in_month_le (y m : Z) : (days_in_month y m <= 31)%Z.
Proof.
  unfold days_in_month.
  destruct (m =? 2)%Z; [ destruct (is_leap y); lia | ].
  destruct (_ || _); lia.
Qed.

(** X20. Every calendar date a timestamp can hold, written [dd/mm/yyyy] with
    a two-digit day and month and a four-digit year, is read back as that
    very date: the date columns lose no well-written date. *)
Theorem X20_written_dates_are_read (rt : runtime) (reading : timestamp) (t : date) :
  valid_date t = true ->
  to_datetime rt reading (Some (write_dmy t)) = Some (midnight t).
Proof.
  intros Hv. pose proof Hv as Hv'. unfold valid_date in Hv'.
  rewrite !andb_true_iff, !Z.leb_le in Hv'.
  destruct Hv' as [[[[[Hm1 Hm2] Hd1] Hd2] Hlo] Hhi].
  apply date_leb_spec in Hlo, Hhi. simpl in Hlo, Hhi.
  pose proof (days_in_month_le (year t) (month t)) as Hdm.
  destruct (days_read_back rt (day t)) as [Ed Ld]; [ lia | ].
  destruct (months_read_back (month t)) as [Em Lm]; [ lia | ].
  destruct (years_read_back rt (year t)) as [Ey Ly]; [ lia | ].
  assert (E : strptime_dmy rt (write_dmy t) = Some t);
    [ | unfold to_datetime; rewrite E;
        destruct (String.eqb (write_dmy t) "now" || String.eqb (write_dmy t) "today") eqn:Hw;
        [ | reflexivity ] ].
  2: { exfalso. apply orb_true_iff in Hw.
       assert (Hs : In "/"%char (list_ascii_of_string (write_dmy t))).
       { unfold write_dmy. rewrite chars_app. apply in_or_app. right. left. reflexivity. }
       destruct Hw as [Hw | Hw]; apply String.eqb_eq in Hw; rewrite Hw in Hs;
         simpl in Hs; repeat (destruct Hs as [Hs | Hs]; try discriminate Hs);
         contradiction. }
  unfold strptime_dmy, write_dmy.
  change ("/" ++ two_digits (month t) ++ "/" ++ four_digits (year t))%string
    with (String "/" (two_digits (month t) ++ String "/" (four_digits (year t)))).
  rewrite (split_on_app _ _ _ Ld), (split_on_app _ _ _ Lm), (split_on_lacking _ _ Ly).
  rewrite Ed, Em, Ey. clear - Hv. destruct t as [y m d].
  cbn [year month day] in *. rewrite Hv. reflexivity.
Qed.

Lemma X20_written_dates_witness :
  valid_date (mkdate 2024 2 29) = true
  /\ write_dmy (mkdate 2024 2 29) = "29/02/2024"
  /\ to_datetime sample_run half_past_ten (Some "29/02/2024")
     = Some (midnight (mkdate 2024 2 29)).
Proof.
  assert (H : valid_date (mkdate 2024 2 29) = true) by reflexivity.
  split; [ exact H | ]. split; [ reflexivity | ].
  exact (X20_written_dates_are_read sample_run half_past_ten (mkdate 2024 2 29) H).
Defined.

(** ** The cycle cards are in order *)











